(** * arena-web-core: camera frame pipeline and its processors

    A shallow embedding of
    - [src/systems/cv/cameraImageProvider.js] (the provider that owns the
      capture helper, the processor registry and the distribution rounds),
    - [src/systems/cv/cv-processors/apriltag-processor.js] (marker detection),
    - [src/systems/cv/cv-processors/openvps-processor.js] (visual positioning),
    - the origin anchor, the marker registry and the ATLAS tags of
      [src/systems/armarker/armarker.js],
    - the frame callback of [src/systems/cv/capture-helpers/getusermedia-helper.js].

    JavaScript objects become records, [null]/[undefined] become [None],
    numbers that carry fractions are binary64 floats ([PrimFloat]),
    millisecond clocks and counters are [Z].  An [async] function is cut at
    its [await]s: the code before the first [await] is one function, the
    code after each [await] another one that receives what was awaited.
    Side effects on the outside world (console, worker, network, helper)
    are returned as a list of effects next to the new state.  Messages that
    are printed only when [options.debug] is set are left out. *)

From Stdlib Require Import ZArith List Bool String Floats Lia.
From stdpp Require Import base list strings gmap.
Import ListNotations.

#[local] Set Warnings "-inexact-float".
#[local] Open Scope string_scope.
#[local] Open Scope list_scope.

(** ** Frame records ([base-capture-helper.js], typedefs) *)

(** What reading a frame's canvas back through a 2D context gives: the
    context calls throw, or [getImageData] returns RGBA bytes. *)
Inductive Canvas :=
| CanvasThrows
| CanvasReadback (data : list Z).

Record CameraIntrinsics := {
  fx : float; fy : float; cx : float; cy : float; gamma : float }.

(** A [THREE.Matrix4], as its 16 elements. *)
Definition Matrix4 := list float.

Record CaptureImageData := {
  buffer : option (list Z);        (* Uint8ClampedArray, one entry per byte *)
  width : nat;
  height : nat;
  format : string;
  canvas : option Canvas }.

Record CaptureMetadata := {
  timestamp : float;
  cameraIntrinsics : option CameraIntrinsics;
  viewTransformMatrix : option Matrix4  (* [None]: absent or not a Matrix4 *) }.

Record FrameData := {
  imageData : option CaptureImageData;
  metadata : option CaptureMetadata }.

(** ** CameraImageProvider ([cameraImageProvider.js])

    The source file holds two revisions of the class.  The later one, in
    which push-driven helpers call [distributeFrameData], is the one
    embedded here (lines 392-764); the helpers are taken from the matching
    revisions ([WebARViewerCaptureHelper] with a [providerInterface]). *)

Module CameraImageProvider.

(** The capture helpers the provider can create. *)
Inductive CaptureHelper :=
| WebARViewerCaptureHelper
| WebXRRawCameraCaptureHelper
| GetUserMediaCaptureHelper (isHeadset : bool).

(** [X.prototype.usesXRFrame] of each helper class. *)
Definition usesXRFrame (h : CaptureHelper) : bool :=
  match h with
  | WebXRRawCameraCaptureHelper => true
  | WebARViewerCaptureHelper => false
  | GetUserMediaCaptureHelper _ => false
  end.

(** [typeof helper.startStreaming === 'function']: every helper inherits
    both methods from [BaseCaptureHelper]. *)
Definition hasStartStreaming (h : CaptureHelper) : bool := true.
Definition hasStopStreaming (h : CaptureHelper) : bool := true.
Definition hasDestroy (h : CaptureHelper) : bool := true.

Definition apiName (h : CaptureHelper) : string :=
  match h with
  | WebARViewerCaptureHelper => "webar-viewer"
  | WebXRRawCameraCaptureHelper => "webxr-raw-camera"
  | GetUserMediaCaptureHelper true => "ar-headset-gum"
  | GetUserMediaCaptureHelper false => "webar-gum"
  end.

(** A processor object: its identity, and whether its [processImage]
    member is a function. *)
Record Processor := {
  processorId : nat;
  hasProcessImage : bool }.

#[global] Instance Processor_eq_dec : EqDecision Processor.
Proof. solve_decision. Defined.

#[global] Instance CaptureHelper_eq_dec : EqDecision CaptureHelper.
Proof. solve_decision. Defined.

Inductive Effect :=
| ConsoleError (msg : string)
| ConsoleWarn (msg : string)
| ConsoleInfo (msg : string)
| StartStreaming (h : CaptureHelper)
| StopStreaming (h : CaptureHelper)
| DestroyHelper (h : CaptureHelper)
| RequestXRAnimationFrame
    (* xrSession.requestAnimationFrame(this._onXRFrame) *)
| ProcessImage (p : Processor) (img : CaptureImageData) (meta : CaptureMetadata)
    (* processor.processImage(imageData, metadata) *)
| PromiseAllFinally (ps : list Processor)
    (* Promise.all(processingPromises).finally(...) over the promises of ps *).

(** The fields of a provider object; objects it only holds are kept as
    present/absent. *)
Record Provider := mkProvider {
  xrSession : bool;
  gl : bool;
  xrRefSpace : bool;
  activeApiName : option string;
  captureHelper : option CaptureHelper;
  processors : list Processor;       (* a Set, in insertion order *)
  isCapturing : bool;
  isPipelineBusy : bool }.

Definition set_activeApiName (v : option string) (s : Provider) : Provider :=
  mkProvider (xrSession s) (gl s) (xrRefSpace s) v (captureHelper s)
             (processors s) (isCapturing s) (isPipelineBusy s).
Definition set_captureHelper (v : option CaptureHelper) (s : Provider) : Provider :=
  mkProvider (xrSession s) (gl s) (xrRefSpace s) (activeApiName s) v
             (processors s) (isCapturing s) (isPipelineBusy s).
Definition set_processors (v : list Processor) (s : Provider) : Provider :=
  mkProvider (xrSession s) (gl s) (xrRefSpace s) (activeApiName s)
             (captureHelper s) v (isCapturing s) (isPipelineBusy s).
Definition set_isCapturing (v : bool) (s : Provider) : Provider :=
  mkProvider (xrSession s) (gl s) (xrRefSpace s) (activeApiName s)
             (captureHelper s) (processors s) v (isPipelineBusy s).
Definition set_isPipelineBusy (v : bool) (s : Provider) : Provider :=
  mkProvider (xrSession s) (gl s) (xrRefSpace s) (activeApiName s)
             (captureHelper s) (processors s) (isCapturing s) v.

(** A method: new object state and the effects it caused, in order. *)
Definition Action := Provider -> Provider * list Effect.

Definition andThen (f g : Action) : Action :=
  fun s => let '(s1, e1) := f s in
           let '(s2, e2) := g s1 in (s2, e1 ++ e2).

(** [Set.prototype.add] and [Set.prototype.delete]. *)
Definition set_add (p : Processor) (l : list Processor) : list Processor :=
  if bool_decide (p ∈ l) then l else l ++ [p].
Definition set_delete (p : Processor) (l : list Processor) : list Processor :=
  filter (fun q => q <> p) l.

Definition _handleApiInitializationError (message : string) : Action :=
  fun s => (set_captureHelper None (set_activeApiName None s),
            [ConsoleError message]).

Definition _startCaptureLoop : Action := fun s =>
  match isCapturing s, captureHelper s with
  | false, Some h =>
      let s1 := set_isCapturing true s in
      if usesXRFrame h then
        if xrSession s1 then (s1, [RequestXRAnimationFrame])
        else (set_isCapturing false s1,
              [ConsoleError "XR session not available. Cannot start XR frame loop."])
      else
        if hasStartStreaming h then (s1, [StartStreaming h])
        else (set_isCapturing false s1,
              [ConsoleWarn "Active helper is non-XRFrame but has no startStreaming method."])
  | _, _ => (s, [])
  end.

Definition _stopCaptureLoop : Action := fun s =>
  if negb (isCapturing s) then (s, [])
  else
    let s1 := set_isCapturing false s in
    match captureHelper s1 with
    | Some h => if hasStopStreaming h then (s1, [StopStreaming h]) else (s1, [])
    | None => (s1, [])
    end.

Definition registerProcessor (p : Processor) : Action := fun s =>
  if negb (hasProcessImage p) then
    (s, [ConsoleError "Processor must implement processImage(imageData, metadata) that returns a Promise."])
  else
    let s1 := set_processors (set_add p (processors s)) s in
    match captureHelper s1 with
    | Some _ =>
        if negb (isCapturing s1) && (0 <? length (processors s1))%nat
        then _startCaptureLoop s1
        else (s1, [])
    | None => (s1, [])
    end.

Definition unregisterProcessor (p : Processor) : Action := fun s =>
  let s1 := set_processors (set_delete p (processors s)) s in
  if isCapturing s1 && (length (processors s1) =? 0)%nat
  then _stopCaptureLoop s1
  else (s1, []).

Definition _distributeFrameToProcessors
    (img : option CaptureImageData) (meta : option CaptureMetadata) : Action :=
  fun s =>
    match img, meta with
    | Some i, Some m =>
        (s, map (fun p => ProcessImage p i m) (processors s)
              ++ [PromiseAllFinally (processors s)])
    | _, _ => (set_isPipelineBusy false s, [])
    end.

Definition distributeFrameData (frameData : option FrameData) : Action := fun s =>
  if negb (isCapturing s) then (s, [])
  else if (length (processors s) =? 0)%nat then (s, [])
  else if isPipelineBusy s then (s, [])
  else
    match frameData with
    | Some {| imageData := Some i; metadata := Some m |} =>
        _distributeFrameToProcessors (Some i) (Some m) (set_isPipelineBusy true s)
    | _ => (s, [])
    end.

(** [_onXRFrame] up to its [await this.captureHelper.getFrameData(...)];
    the boolean tells whether the await was reached. *)
Definition _onXRFrame_begin (s : Provider) : Provider * list Effect * bool :=
  match isCapturing s, xrSession s, captureHelper s with
  | true, true, Some h =>
      if usesXRFrame h then
        if (length (processors s) =? 0)%nat || isPipelineBusy s
        then (s, [RequestXRAnimationFrame], false)
        else (s, [RequestXRAnimationFrame], true)
      else (set_isCapturing false s, [], false)
  | _, _, _ => (set_isCapturing false s, [], false)
  end.

(** What the awaited [getFrameData] gave. *)
Inductive FrameDataResult :=
| GetFrameDataThrows
| GetFrameDataReturns (acquiredFrameData : option FrameData).

(** [_onXRFrame] after the await. *)
Definition _onXRFrame_resume (r : FrameDataResult) : Action := fun s =>
  match r with
  | GetFrameDataThrows => (s, [ConsoleError "Error in getFrameData"])
  | GetFrameDataReturns None => (s, [])
  | GetFrameDataReturns (Some fd) =>
      _distributeFrameToProcessors (imageData fd) (metadata fd)
                                   (set_isPipelineBusy true s)
  end.

Definition destroy : Action := fun s =>
  let '(s1, e1) := _stopCaptureLoop s in
  let e2 := match captureHelper s1 with
            | Some h => if hasDestroy h then [DestroyHelper h] else []
            | None => []
            end in
  (mkProvider false (gl s1) false None None [] (isCapturing s1) false, e1 ++ e2).

(** *** Capability detection: [_detectAndInitializeApi], cut at each
    [await helper.init()] *)

Record DetectEnv := {
  webARViewerSupported : bool;    (* WebARViewerCaptureHelper.isSupported(xrSession) *)
  webXRRawSupported : bool;       (* WebXRRawCameraCaptureHelper.isSupported(xrSession, gl) *)
  headsetDetected : bool;         (* ARENAUtils.detectARHeadset() !== 'unknown' *)
  getUserMediaSupported : bool    (* GetUserMediaCaptureHelper.isSupported() *) }.

Inductive InitResult := InitTrue | InitFalse | InitThrows.

(** Where the detection is suspended. *)
Inductive DetectPC :=
| AwaitWebARViewerInit
| AwaitWebXRRawInit
| AwaitHeadsetGumInit
| AwaitFallbackGumInit
| DetectDone.

Definition Detect := Provider -> Provider * list Effect * DetectPC.

(** The block run after a winning [init]. *)
Definition activate (h : CaptureHelper) : Action := fun s =>
  let s1 := set_captureHelper (Some h) (set_activeApiName (Some (apiName h)) s) in
  let '(s2, e) :=
    if (0 <? length (processors s1))%nat && negb (isCapturing s1)
    then _startCaptureLoop s1 else (s1, []) in
  (s2, ConsoleInfo "Initialized" :: e).

(** The final check after all attempts. *)
Definition detect_final : Detect := fun s =>
  match captureHelper s with
  | None =>
      let '(s1, e) := _handleApiInitializationError
                        "No suitable camera API could be initialized after all checks." s in
      (s1, e, DetectDone)
  | Some _ => (s, [], DetectDone)
  end.

Definition after (a : Action) (d : Detect) : Detect := fun s =>
  let '(s1, e1) := a s in
  let '(s2, e2, pc) := d s1 in (s2, e1 ++ e2, pc).

(** Step 4, with [_tryFallbackGum] up to its await. *)
Definition detect_fallback (env : DetectEnv) : Detect := fun s =>
  match captureHelper s with
  | None =>
      if getUserMediaSupported env then (s, [], AwaitFallbackGumInit)
      else after (_handleApiInitializationError
                    "No suitable camera API could be initialized (GUM not supported).")
                 detect_final s
  | Some _ => detect_final s
  end.

(** Step 3. *)
Definition detect_headset (env : DetectEnv) : Detect := fun s =>
  if headsetDetected env && negb (bool_decide (is_Some (captureHelper s))) then
    if getUserMediaSupported env then (s, [], AwaitHeadsetGumInit)
    else detect_fallback env s
  else detect_fallback env s.

(** Step 2. *)
Definition detect_webxr (env : DetectEnv) : Detect := fun s =>
  if xrSession s && gl s && negb (bool_decide (is_Some (captureHelper s))) then
    if webXRRawSupported env then
      if negb (xrRefSpace s) then
        after (fun s => (s, [ConsoleWarn "xrRefSpace not available, cannot initialize WebXRRawCameraCaptureHelper."]))
              (detect_headset env) s
      else (s, [], AwaitWebXRRawInit)
    else detect_headset env s
  else detect_headset env s.

(** Entry of [_detectAndInitializeApi], step 1. *)
Definition _detectAndInitializeApi (env : DetectEnv) : Detect := fun s =>
  let s0 := set_captureHelper None (set_activeApiName None s) in
  if xrSession s0 && webARViewerSupported env then (s0, [], AwaitWebARViewerInit)
  else detect_webxr env s0.

(** Continuation after the awaited [init] settled. *)
Definition detect_resume (env : DetectEnv) (pc : DetectPC) (r : InitResult) : Detect :=
  fun s =>
  match pc, r with
  | DetectDone, _ => (s, [], DetectDone)
  | AwaitWebARViewerInit, InitTrue =>
      let '(s1, e) := activate WebARViewerCaptureHelper s in (s1, e, DetectDone)
  | AwaitWebARViewerInit, InitFalse => detect_webxr env s
  | AwaitWebARViewerInit, InitThrows => (s, [], DetectDone)
  | AwaitWebXRRawInit, InitTrue =>
      let '(s1, e) := activate WebXRRawCameraCaptureHelper s in (s1, e, DetectDone)
  | AwaitWebXRRawInit, InitFalse => detect_headset env s
  | AwaitWebXRRawInit, InitThrows => (s, [], DetectDone)
  | AwaitHeadsetGumInit, InitTrue =>
      match captureHelper s with
      | None =>
          let '(s1, e) := activate (GetUserMediaCaptureHelper true) s in
          (s1, e, DetectDone)
      | Some _ => detect_fallback env s
      end
  | AwaitHeadsetGumInit, InitFalse => detect_fallback env s
  | AwaitHeadsetGumInit, InitThrows =>
      after (fun s => (s, [ConsoleError "Error initializing AR Headset GUM helper"]))
            (detect_fallback env) s
  | AwaitFallbackGumInit, InitTrue =>
      match captureHelper s with
      | None => after (activate (GetUserMediaCaptureHelper false)) detect_final s
      | Some _ => detect_final s
      end
  | AwaitFallbackGumInit, InitFalse =>
      after (_handleApiInitializationError "Fallback GUM helper failed to init.")
            detect_final s
  | AwaitFallbackGumInit, InitThrows =>
      after (andThen (fun s => (s, [ConsoleError "Error initializing Fallback GUM helper"]))
                     (_handleApiInitializationError "Fallback GUM helper failed with error."))
            detect_final s
  end.

(** *** The provider inside the event loop *)

(** The provider object together with what the event loop holds for it:
    the suspended detection, the animation-frame callbacks requested and
    not yet fired, the [_onXRFrame] activations suspended at their await,
    and for every distribution round the processors whose [processImage]
    promise has not settled yet. *)
Record System := mkSystem {
  provider : Provider;
  detectEnv : DetectEnv;
  detectPC : DetectPC;
  pendingXRCallbacks : nat;
  awaitingFrameData : nat;
  rounds : list (list Processor) }.

Definition set_provider (p : Provider) (y : System) : System :=
  mkSystem p (detectEnv y) (detectPC y) (pendingXRCallbacks y)
           (awaitingFrameData y) (rounds y).

(** What an effect leaves behind in the event loop.  The promise made by
    [Promise.all([])] is already fulfilled, so its [finally] callback runs
    before any other event. *)
Definition absorb (y : System) (e : Effect) : System :=
  match e with
  | RequestXRAnimationFrame =>
      mkSystem (provider y) (detectEnv y) (detectPC y)
               (S (pendingXRCallbacks y)) (awaitingFrameData y) (rounds y)
  | PromiseAllFinally ps =>
      mkSystem (match ps with
                | [] => set_isPipelineBusy false (provider y)
                | _ => provider y
                end)
               (detectEnv y) (detectPC y) (pendingXRCallbacks y)
               (awaitingFrameData y) (rounds y ++ [ps])
  | _ => y
  end.

Definition perform (a : Action) (y : System) : System * list Effect :=
  let '(p, es) := a (provider y) in
  (fold_left absorb es (set_provider p y), es).

Inductive Outcome := Fulfilled | Rejected.

Inductive Event :=
| RegisterProcessor (p : Processor)
| UnregisterProcessor (p : Processor)
| InitSettled (r : InitResult)         (* the awaited helper.init() settles *)
| PushFrame (fd : option FrameData)    (* a helper calls distributeFrameData *)
| XRFrameTick                          (* the host runs a requested _onXRFrame *)
| FrameDataSettled (r : FrameDataResult)
| PromiseSettled (round : nat) (p : Processor) (o : Outcome)
    (* the processImage promise of p in that round settles *)
| Destroy.

(** A settled [processImage] promise: a rejection runs the [catch]
    callback; when it was the round's last one, [Promise.all] is fulfilled
    and the [finally] callback clears the flag. *)
Definition settle (i : nat) (p : Processor) (o : Outcome) (y : System)
  : System * list Effect :=
  match rounds y !! i with
  | Some pending =>
      if bool_decide (p ∈ pending) then
        let pending' := set_delete p pending in
        let prov := match pending' with
                    | [] => set_isPipelineBusy false (provider y)
                    | _ => provider y
                    end in
        (mkSystem prov (detectEnv y) (detectPC y) (pendingXRCallbacks y)
                  (awaitingFrameData y) (<[i := pending']> (rounds y)),
         match o with
         | Rejected => [ConsoleError "Error in a processor"]
         | Fulfilled => []
         end)
      else (y, [])
  | None => (y, [])
  end.

Definition step (ev : Event) (y : System) : System * list Effect :=
  match ev with
  | RegisterProcessor p => perform (registerProcessor p) y
  | UnregisterProcessor p => perform (unregisterProcessor p) y
  | InitSettled r =>
      let '(p, es, pc) := detect_resume (detectEnv y) (detectPC y) r (provider y) in
      (fold_left absorb es
         (mkSystem p (detectEnv y) pc (pendingXRCallbacks y)
                   (awaitingFrameData y) (rounds y)), es)
  | PushFrame fd => perform (distributeFrameData fd) y
  | XRFrameTick =>
      match pendingXRCallbacks y with
      | O => (y, [])
      | S n =>
          let '(p, es, awaits) := _onXRFrame_begin (provider y) in
          (fold_left absorb es
             (mkSystem p (detectEnv y) (detectPC y) n
                       (if awaits then S (awaitingFrameData y) else awaitingFrameData y)
                       (rounds y)), es)
      end
  | FrameDataSettled r =>
      match awaitingFrameData y with
      | O => (y, [])
      | S n =>
          perform (_onXRFrame_resume r)
                  (mkSystem (provider y) (detectEnv y) (detectPC y)
                            (pendingXRCallbacks y) n (rounds y))
      end
  | PromiseSettled i p o => settle i p o y
  | Destroy => perform destroy y
  end.

Fixpoint run (evs : list Event) (y : System) : System * list Effect :=
  match evs with
  | [] => (y, [])
  | ev :: evs' =>
      let '(y1, e1) := step ev y in
      let '(y2, e2) := run evs' y1 in (y2, e1 ++ e2)
  end.

(** The constructor: fresh fields, then [_detectAndInitializeApi()] runs
    up to its first await. *)
Definition construct (xr glc ref : bool) (env : DetectEnv) : System :=
  let '(p, es, pc) :=
    _detectAndInitializeApi env (mkProvider xr glc ref None None [] false false) in
  fold_left absorb es (mkSystem p env pc 0 0 []).

(** Number of [processImage] calls made on [p] among some effects. *)
Definition invokes (p : Processor) (e : Effect) : bool :=
  match e with
  | ProcessImage q _ _ => bool_decide (q = p)
  | _ => false
  end.
Definition invocations (p : Processor) (es : list Effect) : nat :=
  length (List.filter (invokes p) es).

Definition isProcessImage (e : Effect) : bool :=
  match e with ProcessImage _ _ _ => true | _ => false end.

(** [!frameData || !frameData.imageData || !frameData.metadata] *)
Definition lacksData (fd : option FrameData) : bool :=
  match fd with
  | Some {| imageData := Some _; metadata := Some _ |} => false
  | _ => true
  end.

(** Events that neither settle a [processImage] promise nor resume a
    suspended [_onXRFrame] nor destroy the provider. *)
Definition arrival (ev : Event) : bool :=
  match ev with
  | RegisterProcessor _ | UnregisterProcessor _ | InitSettled _
  | PushFrame _ | XRFrameTick => true
  | FrameDataSettled _ | PromiseSettled _ _ _ | Destroy => false
  end.

Definition isDestroy (ev : Event) : bool :=
  match ev with Destroy => true | _ => false end.

(** The promises of round [r] settle in the given order with the given
    outcomes. *)
Definition settleEvents (r : nat) (order : list (Processor * Outcome)) : list Event :=
  map (fun po => PromiseSettled r (fst po) (snd po)) order.

Definition isRejected (po : Processor * Outcome) : bool :=
  match snd po with Rejected => true | Fulfilled => false end.

Definition isConsoleError (e : Effect) : bool :=
  match e with ConsoleError _ => true | _ => false end.

(** What the capturing flag stands for, with what the detection and the
    frame loop rely on: a helper driven by the XR frame tick is only taken
    with a session, the helper is chosen when the detection ends, and
    animation-frame callbacks are only requested for such a helper. *)
Definition consistent (y : System) : Prop :=
  (isCapturing (provider y) = true <->
     processors (provider y) <> [] /\ captureHelper (provider y) <> None)
  /\ (forall h, captureHelper (provider y) = Some h -> usesXRFrame h = true ->
        xrSession (provider y) = true)
  /\ (detectPC y <> DetectDone -> captureHelper (provider y) = None)
  /\ (0 < pendingXRCallbacks y ->
        exists h, captureHelper (provider y) = Some h /\ usesXRFrame h = true)
  /\ (detectPC y = AwaitWebXRRawInit -> xrSession (provider y) = true).

(** [consistent] only reads these fields. *)
Definition same_shape (y y' : System) : Prop :=
  isCapturing (provider y') = isCapturing (provider y)
  /\ processors (provider y') = processors (provider y)
  /\ captureHelper (provider y') = captureHelper (provider y)
  /\ xrSession (provider y') = xrSession (provider y)
  /\ detectPC y' = detectPC y
  /\ pendingXRCallbacks y' = pendingXRCallbacks y.

(** *** The detection run to its end *)

(** The helper whose [init] a suspended detection is waiting for. *)
Definition candidate (pc : DetectPC) : option CaptureHelper :=
  match pc with
  | AwaitWebARViewerInit => Some WebARViewerCaptureHelper
  | AwaitWebXRRawInit => Some WebXRRawCameraCaptureHelper
  | AwaitHeadsetGumInit => Some (GetUserMediaCaptureHelper true)
  | AwaitFallbackGumInit => Some (GetUserMediaCaptureHelper false)
  | DetectDone => None
  end.

(** The helpers in the order [_detectAndInitializeApi] tries them. *)
Definition candidates : list CaptureHelper :=
  [WebARViewerCaptureHelper; WebXRRawCameraCaptureHelper;
   GetUserMediaCaptureHelper true; GetUserMediaCaptureHelper false].

(** The tests a helper has to pass before it is constructed and
    initialised. *)
Definition eligible (xr glc ref : bool) (env : DetectEnv) (h : CaptureHelper) : bool :=
  match h with
  | WebARViewerCaptureHelper => xr && webARViewerSupported env
  | WebXRRawCameraCaptureHelper => xr && glc && webXRRawSupported env && ref
  | GetUserMediaCaptureHelper true => headsetDetected env && getUserMediaSupported env
  | GetUserMediaCaptureHelper false => getUserMediaSupported env
  end.

(** The detection run to its end, [init] of helper [h] resolving to
    [inits h]; [fuel] bounds the number of awaits. *)
Fixpoint settleInits (fuel : nat) (inits : CaptureHelper -> bool) (y : System)
  : System * list Effect :=
  match fuel with
  | O => (y, [])
  | S fuel' =>
      match candidate (detectPC y) with
      | None => (y, [])
      | Some h =>
          let '(y1, e1) :=
            step (InitSettled (if inits h then InitTrue else InitFalse)) y in
          let '(y2, e2) := settleInits fuel' inits y1 in (y2, e1 ++ e2)
      end
  end.

(** The results of the four [init] calls as a function of the helper. *)
Definition tabulate (r1 r2 r3 r4 : bool) (h : CaptureHelper) : bool :=
  match h with
  | WebARViewerCaptureHelper => r1
  | WebXRRawCameraCaptureHelper => r2
  | GetUserMediaCaptureHelper true => r3
  | GetUserMediaCaptureHelper false => r4
  end.

Definition isInitSettled (ev : Event) : bool :=
  match ev with InitSettled _ => true | _ => false end.

(** Number of awaits the detection can still go through. *)
Definition awaitsLeft (pc : DetectPC) : nat :=
  match pc with
  | AwaitWebARViewerInit => 4
  | AwaitWebXRRawInit => 3
  | AwaitHeadsetGumInit => 2
  | AwaitFallbackGumInit => 1
  | DetectDone => 0
  end.

(** *** The helper as the provider drives it ([base-capture-helper.js]) *)

(** [isStreaming] of the helper object [h] after the provider made the
    call [e] on a helper: [startStreaming] sets it, [stopStreaming] and
    [destroy] clear it (the override of every helper calls the base
    method). *)
Definition helperCall (h : CaptureHelper) (isStreaming : bool) (e : Effect) : bool :=
  match e with
  | StartStreaming h' => if bool_decide (h' = h) then true else isStreaming
  | StopStreaming h' | DestroyHelper h' =>
      if bool_decide (h' = h) then false else isStreaming
  | _ => isStreaming
  end.

(** The flag after some effects; it is not set when the helper is
    constructed. *)
Definition isStreaming (h : CaptureHelper) (es : list Effect) : bool :=
  fold_left (helperCall h) es false.

(** Effects by which the provider acts on a helper, the session or a
    processor, as opposed to console output. *)
Definition isAction (e : Effect) : bool :=
  match e with
  | ConsoleError _ | ConsoleWarn _ | ConsoleInfo _ => false
  | _ => true
  end.

(** [activeApiName] names the active helper. *)
Definition named (y : System) : Prop :=
  activeApiName (provider y) = apiName <$> captureHelper (provider y).

(** A destroyed provider whose detection is over and which waits for no
    frame data. *)
Definition destroyed (y : System) : Prop :=
  captureHelper (provider y) = None
  /\ isCapturing (provider y) = false
  /\ detectPC y = DetectDone
  /\ awaitingFrameData y = 0.

(** A round one of whose [processImage] promises has not settled. *)
Definition isUnsettled (pending : list Processor) : bool :=
  negb (length pending =? 0)%nat.

Definition unsettled (y : System) : list (list Processor) :=
  List.filter isUnsettled (rounds y).

Definition isFrameDataSettled (ev : Event) : bool :=
  match ev with FrameDataSettled _ => true | _ => false end.

(** At most one round is unsettled, and the flag is set exactly then. *)
Definition one_round (y : System) : Prop :=
  length (unsettled y) <= 1
  /\ (isPipelineBusy (provider y) = true <-> unsettled y <> []).

End CameraImageProvider.

(** ** AprilTagProcessor ([apriltag-processor.js]) *)

Module AprilTagProcessor.

(** A value passed as [sizeInMillimeters]: a number (a numeric string
    stands for the number it denotes) or something [parseFloat] finds no
    number in. *)
Inductive JsValue :=
| JsNumber (f : float)
| JsNotNumeric.

(** [parseFloat(v)]: the argument is turned into a string and read back,
    which gives the number itself, [-0] read back as [0]. *)
Definition parseFloat (v : JsValue) : float :=
  match v with
  | JsNumber f => if (f =? 0)%float then 0%float else f
  | JsNotNumeric => nan
  end.

(** The number a byte of a typed array stands for. *)
Definition byteToNumber (z : Z) : float := PrimFloat.of_uint63 (Uint63.of_Z z).

(** [buffer[i]] used as a factor: [undefined] out of range makes the
    product [NaN]. *)
Definition readNumber (buffer : list Z) (i : nat) : float :=
  match buffer !! i with
  | Some z => byteToNumber z
  | None => nan
  end.

(** Storing a number into a [Uint8Array] (ToUint8): [NaN] and the
    infinities become 0, other numbers are truncated toward zero and taken
    modulo 256. *)
Definition ToUint8 (f : float) : Z :=
  match Prim2SF f with
  | S754_finite s m e =>
      let t := if (0 <=? e)%Z then Z.shiftl (Z.pos m) e
               else Z.shiftr (Z.pos m) (- e) in
      ((if s then - t else t) mod 256)%Z
  | _ => 0%Z
  end.

(** Messages posted to the worker ([CVWorkerMsgs.type]). *)
Inductive WorkerMessage :=
| INIT
| PROCESS_GSFRAME (grayscalePixels : list Z) (w h : nat)
                  (intrinsics : CameraIntrinsics) (frameTimestamp : float)
| KNOWN_MARKER_ADD (markerid : string) (size : float)
| KNOWN_MARKER_DEL (markerid : string).

(** Messages received from the worker. *)
Inductive MessageType := FRAME_RESULTS | INIT_DONE | ERROR | OtherType.

Record MessageData := {
  type : MessageType;
  detections : option (list nat);      (* opaque detection payloads *)
  ts : float;
  grayscalePixels_back : option (list Z) }.

Inductive Effect :=
| PostMessage (m : WorkerMessage)
| DispatchDetection (detections : list nat) (ts : float)
| ConsoleError (msg : string)
| TypeError                         (* a method called on [null] *)
| Terminate.

Record Processor := mkProcessor {
  cvWorker : bool;                     (* this.cvWorker is not null *)
  cvWorkerReady : bool;
  grayscaleBuffer : option (list Z);   (* Uint8Array *)
  knownMarkers : list (string * float) (* Map id -> size in meters, insertion order *) }.

Definition Action := Processor -> Processor * list Effect.

(** The constructor: the worker is spawned and sent [INIT]. *)
Definition construct : Processor * list Effect :=
  (mkProcessor true false None [], [PostMessage INIT]).

(** [Map.prototype.set] and [Map.prototype.delete]. *)
Fixpoint map_set (k : string) (v : float) (m : list (string * float))
  : list (string * float) :=
  match m with
  | [] => [(k, v)]
  | (k', v') :: m' =>
      if String.eqb k' k then (k', v) :: m' else (k', v') :: map_set k v m'
  end.

Definition map_delete (k : string) (m : list (string * float))
  : list (string * float) :=
  List.filter (fun kv => negb (String.eqb (fst kv) k)) m.

Definition map_get (k : string) (m : list (string * float)) : option float :=
  match List.find (fun kv => String.eqb (fst kv) k) m with
  | Some kv => Some (snd kv)
  | None => None
  end.

Definition _sendMarkerToWorker (markerId : string) (sizeInMeters : float) : Action :=
  fun s =>
    if negb (cvWorker s) || negb (cvWorkerReady s) then (s, [])
    else (s, [PostMessage (KNOWN_MARKER_ADD markerId sizeInMeters)]).

Definition addKnownMarker (markerId : string) (sizeInMillimeters : JsValue) : Action :=
  fun s =>
    let sizeInMeters := (parseFloat sizeInMillimeters / 1000)%float in
    if is_nan sizeInMeters || (sizeInMeters <=? 0)%float then
      (s, [ConsoleError "Invalid size for marker. Must be positive."])
    else
      let s1 := mkProcessor (cvWorker s) (cvWorkerReady s) (grayscaleBuffer s)
                            (map_set markerId sizeInMeters (knownMarkers s)) in
      if cvWorkerReady s1 then _sendMarkerToWorker markerId sizeInMeters s1
      else (s1, []).

Definition removeKnownMarker (markerId : string) : Action := fun s =>
  let s1 := mkProcessor (cvWorker s) (cvWorkerReady s) (grayscaleBuffer s)
                        (map_delete markerId (knownMarkers s)) in
  if cvWorkerReady s1 then
    if cvWorker s1 then (s1, [PostMessage (KNOWN_MARKER_DEL markerId)])
    else (s1, [TypeError])
  else (s1, []).

(** [this.knownMarkers.forEach((size, id) => this._sendMarkerToWorker(id, size))] *)
Fixpoint replayMarkers (m : list (string * float)) : Action := fun s =>
  match m with
  | [] => (s, [])
  | (id, size) :: m' =>
      let '(s1, e1) := _sendMarkerToWorker id size s in
      let '(s2, e2) := replayMarkers m' s1 in (s2, e1 ++ e2)
  end.

Definition _handleCvWorkerMessage (data : MessageData) : Action := fun s =>
  let s1 := match grayscalePixels_back data with
            | Some px => mkProcessor (cvWorker s) (cvWorkerReady s) (Some px)
                                     (knownMarkers s)
            | None => s
            end in
  match type data with
  | FRAME_RESULTS =>
      (s1, [DispatchDetection (default [] (detections data)) (ts data)])
  | INIT_DONE =>
      let s2 := mkProcessor (cvWorker s1) true (grayscaleBuffer s1) (knownMarkers s1) in
      replayMarkers (knownMarkers s2) s2
  | ERROR => (s1, [ConsoleError "Error from CV Worker"])
  | OtherType => (s1, [])
  end.

(** The loop of [_softwareGrayscale]:
    [for (let i = 0, j = 0; i < buffer.length; i += 4, j++)], with the
    number of remaining iterations as fuel.  A write past the end of the
    [Uint8Array] is dropped. *)
Fixpoint softwareGrayscaleLoop (fuel : nat) (buffer : list Z) (i j : nat)
    (gray : list Z) : list Z :=
  match fuel with
  | O => gray
  | S fuel' =>
      if (i <? length buffer)%nat then
        softwareGrayscaleLoop fuel' buffer (i + 4) (j + 1)
          (<[j := ToUint8 (0.299 * readNumber buffer i
                           + 0.587 * readNumber buffer (i + 1)
                           + 0.114 * readNumber buffer (i + 2))]> gray)
      else gray
  end.

Definition _softwareGrayscale (buffer : list Z) (gray : list Z) : list Z :=
  softwareGrayscaleLoop (length buffer) buffer 0 0 gray.

(** The copy loop of the canvas path:
    [grayscaleBuffer[j] = filteredImageData[i]] for [i = 0, 4, 8, ...]. *)
Fixpoint canvasCopyLoop (fuel : nat) (data : list Z) (i j : nat)
    (gray : list Z) : list Z :=
  match fuel with
  | O => gray
  | S fuel' =>
      if (i <? length data)%nat then
        canvasCopyLoop fuel' data (i + 4) (j + 1)
          (<[j := ToUint8 (readNumber data i)]> gray)
      else gray
  end.

Definition processImage (img : option CaptureImageData) (meta : CaptureMetadata)
  : Action := fun s =>
  if negb (cvWorkerReady s) then (s, [])
  else
    match img with
    | None => (s, [])
    | Some imageData =>
        match buffer imageData, canvas imageData with
        | None, None => (s, [])
        | _, _ =>
            match cameraIntrinsics meta with
            | None => (s, [])
            | Some intrinsics =>
                let w := width imageData in
                let h := height imageData in
                let gray0 :=
                  match grayscaleBuffer s with
                  | Some g => if (length g =? w * h)%nat then g
                              else replicate (w * h) 0%Z
                  | None => replicate (w * h) 0%Z
                  end in
                let isRGBA := String.eqb (format imageData) "RGBA" in
                let filled : option (list Z) :=
                  match canvas imageData, buffer imageData with
                  | Some c, b =>
                      if isRGBA then
                        match c, b with
                        | CanvasReadback data, _ =>
                            Some (canvasCopyLoop (length data) data 0 0 gray0)
                        | CanvasThrows, Some buf => Some (_softwareGrayscale buf gray0)
                        | CanvasThrows, None => None
                        end
                      else
                        match b with
                        | Some buf => if isRGBA then Some (_softwareGrayscale buf gray0)
                                      else None
                        | None => None
                        end
                  | None, Some buf =>
                      if isRGBA then Some (_softwareGrayscale buf gray0) else None
                  | None, None => None
                  end in
                match filled with
                | None =>
                    (mkProcessor (cvWorker s) (cvWorkerReady s) (Some gray0)
                                 (knownMarkers s), [])
                | Some gray =>
                    if cvWorker s then
                      (mkProcessor (cvWorker s) (cvWorkerReady s) None (knownMarkers s),
                       [PostMessage (PROCESS_GSFRAME gray w h intrinsics (timestamp meta))])
                    else
                      (mkProcessor (cvWorker s) (cvWorkerReady s) (Some gray)
                                   (knownMarkers s), [TypeError])
                end
            end
        end
    end.

Definition destroy : Action := fun s =>
  (mkProcessor false (if cvWorker s then false else cvWorkerReady s) None [],
   if cvWorker s then [Terminate] else []).

(** The [KNOWN_MARKER_ADD] messages for one marker among some effects. *)
Definition isMarkerAdd (id : string) (e : Effect) : bool :=
  match e with
  | PostMessage (KNOWN_MARKER_ADD k _) => String.eqb k id
  | _ => false
  end.

Definition isPostMessage (e : Effect) : bool :=
  match e with PostMessage _ => true | _ => false end.

(** The message that replays one entry of the map. *)
Definition markerMessage (kv : string * float) : Effect :=
  PostMessage (KNOWN_MARKER_ADD (fst kv) (snd kv)).

(** The weighted sum written for the pixel that starts at byte [i]. *)
Definition weightedSum (buffer : list Z) (i : nat) : float :=
  (0.299 * readNumber buffer i + 0.587 * readNumber buffer (i + 1)
   + 0.114 * readNumber buffer (i + 2))%float.

(** *** The processor and its callers *)

Inductive Event :=
| AddKnownMarker (markerId : string) (sizeInMillimeters : JsValue)
| RemoveKnownMarker (markerId : string)
| Message (data : MessageData)        (* the worker posts a message *)
| CallProcessImage (img : option CaptureImageData) (meta : CaptureMetadata)
| Destroy.

Definition step (ev : Event) : Action :=
  match ev with
  | AddKnownMarker id v => addKnownMarker id v
  | RemoveKnownMarker id => removeKnownMarker id
  | Message data => _handleCvWorkerMessage data
  | CallProcessImage img meta => processImage img meta
  | Destroy => destroy
  end.

Fixpoint run (evs : list Event) (s : Processor) : Processor * list Effect :=
  match evs with
  | [] => (s, [])
  | ev :: evs' =>
      let '(s1, e1) := step ev s in
      let '(s2, e2) := run evs' s1 in (s2, e1 ++ e2)
  end.

Definition isDestroy (ev : Event) : bool :=
  match ev with Destroy => true | _ => false end.

(** The marker table of a receiver that applies the marker messages in
    the order they were posted. *)
Definition receive (table : list (string * float)) (e : Effect)
  : list (string * float) :=
  match e with
  | PostMessage (KNOWN_MARKER_ADD k v) => map_set k v table
  | PostMessage (KNOWN_MARKER_DEL k) => map_delete k table
  | _ => table
  end.

Definition workerTable (es : list Effect) : list (string * float) :=
  fold_left receive es [].

Definition isTerminate (e : Effect) : bool :=
  match e with Terminate => true | _ => false end.

(** What the mirror relies on: the worker is there, the map has one entry
    per id, and the table is the map once the worker is ready. *)
Definition mirrored (s : Processor) (table : list (string * float)) : Prop :=
  cvWorker s = true
  /\ NoDup (map fst (knownMarkers s))
  /\ table = if cvWorkerReady s then knownMarkers s else [].

End AprilTagProcessor.

(** ** OpenVPSProcessor ([openvps-processor.js]) *)

Module OpenVPSProcessor.

#[local] Open Scope Z_scope.

(** What calling [options.onPoseUpdate] does. *)
Inductive Callback := CallbackReturns | CallbackThrows.

Record Options := {
  imageUrl : string;
  interval : Z;                      (* milliseconds *)
  maxRetries : Z;
  retryDelay : Z;
  onPoseUpdate : option Callback     (* [None]: not a function *) }.

Definition DEFAULT_OPTIONS : Options :=
  {| imageUrl := ""; interval := 5000; maxRetries := 3; retryDelay := 1000;
     onPoseUpdate := None |}.

(** [response.pose]: an array of arrays, a flat array, or a truthy value
    that is no array. *)
Inductive Pose :=
| Pose2D (rows : list (list float))
| PoseFlat (elems : list float)
| PoseNotArray.

Record Response := {
  pose : option Pose;                (* [None]: missing or falsy *)
  serverConfidence : option float    (* [None]: missing *) }.

(** What [await this.mapServer.localize(blob, 'image')] gives. *)
Inductive LocalizeResult :=
| LocalizeThrows
| LocalizeReturns (response : option Response).

Inductive Effect :=
| ConsoleError (msg : string)
| ConsoleWarn (msg : string)
| Localize
    (* this.mapServer.localize(blob, 'image'): the network request *)
| OnPoseUpdate (serverPose : Pose) (cameraViewMatrix : Matrix4) (confidence : float)
    (* options.onPoseUpdate(localizationPose x cameraViewMatrix, confidence) *).

Record Processor := mkProcessor {
  options : Options;
  isEnabled : bool;
  mapServer : bool;                  (* this.mapServer is not null *)
  isBusy : bool;
  lastSendTime : Z;
  tempCanvas : option (nat * nat);   (* width and height of the offscreen canvas *)
  retryCount : Z }.

Definition Action := Processor -> Processor * list Effect.

(** The constructor; [mapServerThrows] tells whether [new MapServer(...)]
    throws. *)
Definition construct (opts : Options) (mapServerThrows : bool)
  : Processor * list Effect :=
  if String.eqb (imageUrl opts) "" then
    (mkProcessor opts false false false 0 None 0,
     [ConsoleWarn "imageUrl is not provided. Processor will be disabled."])
  else if mapServerThrows then
    (mkProcessor opts false false false 0 None 0,
     [ConsoleError "Failed to initialize MapServer. Processor will be disabled."])
  else (mkProcessor opts true true false 0 None 0, []).

(** [now - this.lastSendTime < this.options.interval] *)
Definition tooSoon (s : Processor) (now : Z) : bool :=
  now - lastSendTime s <? interval (options s).

(** The [catch] block followed by the [finally] block; [now] is what
    [Date.now()] returns in the [catch] block. *)
Definition catch_finally (now : Z) : Action := fun s =>
  let count := retryCount s + 1 in
  let last := if count <=? maxRetries (options s)
              then now - interval (options s) + retryDelay (options s)
              else now in
  (mkProcessor (options s) (isEnabled s) (mapServer s) false last
               (tempCanvas s) count,
   [ConsoleError "Error during image processing or localization"]).

(** The end of the [try] block followed by the [finally] block. *)
Definition succeed_finally : Action := fun s =>
  (mkProcessor (options s) (isEnabled s) (mapServer s) false (lastSendTime s)
               (tempCanvas s) 0, []).

(** [processImage] up to [await new Promise(resolve => canvas.toBlob(...))].
    [now] is [Date.now()] at the gate, [prepared] tells whether drawing the
    buffer to the canvas went through without an exception, [tcatch] is
    [Date.now()] in the [catch] block.  The boolean of the result tells
    whether the call is suspended at the await. *)
Definition processImage_begin (now : Z) (prepared : bool) (tcatch : Z)
    (img : option CaptureImageData) (s : Processor)
  : Processor * list Effect * bool :=
  match img with
  | None => (s, [], false)
  | Some imageData =>
      if negb (isEnabled s) || negb (mapServer s)
         || negb (bool_decide (is_Some (buffer imageData)))
      then (s, [], false)
      else if negb (String.eqb (format imageData) "RGBA") then (s, [], false)
      else if tooSoon s now || isBusy s then (s, [], false)
      else
        let canvasSize :=
          match tempCanvas s with
          | Some (w, h) =>
              if (w =? width imageData)%nat && (h =? height imageData)%nat
              then Some (w, h) else Some (width imageData, height imageData)
          | None => Some (width imageData, height imageData)
          end in
        let s1 := mkProcessor (options s) (isEnabled s) (mapServer s) true now
                              canvasSize (retryCount s) in
        if prepared then (s1, [], true)
        else let '(s2, e) := catch_finally tcatch s1 in (s2, e, false)
  end.

(** After the blob: the checks before the request, and the request.  The
    boolean tells whether the call is suspended at [await localize]. *)
Definition processImage_afterBlob (blob : bool) (tcatch : Z)
    (meta : CaptureMetadata) (s : Processor)
  : Processor * list Effect * bool :=
  if negb blob then let '(s1, e) := catch_finally tcatch s in (s1, e, false)
  else
    match viewTransformMatrix meta with
    | None => let '(s1, e) := catch_finally tcatch s in (s1, e, false)
    | Some _ =>
        if mapServer s then (s, [Localize], true)
        else let '(s1, e) := catch_finally tcatch s in (s1, e, false)
    end.

(** [response && response.pose && response.serverConfidence > 0] *)
Definition hasFix (response : option Response) : option (Pose * float) :=
  match response with
  | Some {| pose := Some p; serverConfidence := Some c |} =>
      if (0 <? c)%float then Some (p, c) else None
  | _ => None
  end.

(** After the response. *)
Definition processImage_afterLocalize (r : LocalizeResult) (tcatch : Z)
    (meta : CaptureMetadata) : Action := fun s =>
  match r with
  | LocalizeThrows => catch_finally tcatch s
  | LocalizeReturns response =>
      match hasFix response with
      | Some (p, c) =>
          let wellFormed :=
            match p with
            | Pose2D _ => true
            | PoseFlat elems => (length elems =? 16)%nat
            | PoseNotArray => false
            end in
          if wellFormed then
            match onPoseUpdate (options s) with
            | Some CallbackReturns =>
                let '(s1, e) := succeed_finally s in
                (s1, OnPoseUpdate p (default [] (viewTransformMatrix meta)) c :: e)
            | Some CallbackThrows =>
                let '(s1, e) := catch_finally tcatch s in
                (s1, OnPoseUpdate p (default [] (viewTransformMatrix meta)) c :: e)
            | None => succeed_finally s
            end
          else
            let '(s1, e) := catch_finally tcatch s in
            (s1, ConsoleError "Invalid pose format from server response." :: e)
      | None => succeed_finally s
      end
  end.

Definition setEnabled (enabled : bool) : Action := fun s =>
  (mkProcessor (options s) enabled (mapServer s) (isBusy s) (lastSendTime s)
               (tempCanvas s) (retryCount s), []).

Definition destroy : Action := fun s =>
  (mkProcessor (options s) false false (isBusy s) (lastSendTime s) None
               (retryCount s), []).

(** *** The processor inside the event loop *)

(** A [processImage] call suspended at one of its awaits. *)
Inductive Suspended :=
| AtBlob (meta : CaptureMetadata)
| AtLocalize (meta : CaptureMetadata).

Record System := mkSystem {
  processor : Processor;
  suspended : list Suspended }.

Inductive Event :=
| CallProcessImage (now : Z) (prepared : bool) (tcatch : Z)
                   (img : option CaptureImageData) (meta : CaptureMetadata)
| BlobSettled (k : nat) (blob : bool) (tcatch : Z)
| LocalizeSettled (k : nat) (r : LocalizeResult) (tcatch : Z)
| SetEnabled (enabled : bool)
| Destroy.

Definition step (ev : Event) (y : System) : System * list Effect :=
  match ev with
  | CallProcessImage now prepared tcatch img meta =>
      let '(s, es, awaits) :=
        processImage_begin now prepared tcatch img (processor y) in
      (mkSystem s (if awaits then suspended y ++ [AtBlob meta] else suspended y), es)
  | BlobSettled k blob tcatch =>
      match suspended y !! k with
      | Some (AtBlob meta) =>
          let '(s, es, awaits) :=
            processImage_afterBlob blob tcatch meta (processor y) in
          (mkSystem s (if awaits then <[k := AtLocalize meta]> (suspended y)
                       else delete k (suspended y)), es)
      | _ => (y, [])
      end
  | LocalizeSettled k r tcatch =>
      match suspended y !! k with
      | Some (AtLocalize meta) =>
          let '(s, es) := processImage_afterLocalize r tcatch meta (processor y) in
          (mkSystem s (delete k (suspended y)), es)
      | _ => (y, [])
      end
  | SetEnabled enabled =>
      let '(s, es) := setEnabled enabled (processor y) in (mkSystem s (suspended y), es)
  | Destroy =>
      let '(s, es) := destroy (processor y) in (mkSystem s (suspended y), es)
  end.

Fixpoint run (evs : list Event) (y : System) : System * list Effect :=
  match evs with
  | [] => (y, [])
  | ev :: evs' =>
      let '(y1, e1) := step ev y in
      let '(y2, e2) := run evs' y1 in (y2, e1 ++ e2)
  end.

Definition start (opts : Options) (mapServerThrows : bool) : System :=
  mkSystem (fst (construct opts mapServerThrows)) [].

Definition isLocalize (e : Effect) : bool :=
  match e with Localize => true | _ => false end.
Definition isConsoleError (e : Effect) : bool :=
  match e with ConsoleError _ => true | _ => false end.
Definition isOnPoseUpdate (e : Effect) : bool :=
  match e with OnPoseUpdate _ _ _ => true | _ => false end.

(** Network requests made among some effects. *)
Definition networkCalls (es : list Effect) : nat :=
  length (List.filter isLocalize es).

Definition isAtLocalize (c : Suspended) : bool :=
  match c with AtLocalize _ => true | AtBlob _ => false end.
Definition isAtBlob (c : Suspended) : bool :=
  match c with AtBlob _ => true | AtLocalize _ => false end.

(** Requests sent and not yet answered. *)
Definition outstanding (y : System) : nat :=
  length (List.filter isAtLocalize (suspended y)).

Definition isCall (ev : Event) : bool :=
  match ev with CallProcessImage _ _ _ _ _ => true | _ => false end.

(** Suspended calls that have not sent their request yet. *)
Definition beforeRequest (y : System) : nat :=
  length (List.filter isAtBlob (suspended y)).




(** [isBusy] is set exactly while one call is suspended. *)
Definition single_flight (y : System) : Prop :=
  (length (suspended y) <= 1)%nat
  /\ (isBusy (processor y) = true <-> suspended y <> []).

(** *** [transpose] and the array read from a pose *)

Section Transpose.
Context {A : Type} (undef : A).
#[local] Open Scope nat_scope.

(** [matrix[i][j]]: reading past the end of a row gives [undefined]. *)
Definition at2 (matrix : list (list A)) (i j : nat) : A :=
  default undef (default [] (matrix !! i) !! j).

(** The inner loop: [transposed[j][i] = matrix[i][j]] for [j] below
    [cols]. *)
Definition transposeRow (matrix : list (list A)) (cols : nat)
    (transposed : list (list A)) (i : nat) : list (list A) :=
  fold_left (fun t j => <[j := <[i := at2 matrix i j]> (default [] (t !! j))]> t)
            (seq 0 cols) transposed.

(** [transpose(matrix)] for an array of arrays: [transposed[j]] starts as
    [Array(rows)], then the two loops fill it.  An empty array is returned
    as it is, with an error logged. *)
Definition transpose (matrix : list (list A)) : list (list A) * list Effect :=
  match matrix with
  | [] => (matrix, [ConsoleError "Invalid matrix for transpose"])
  | row0 :: _ =>
      let rows := length matrix in
      let cols := length row0 in
      let transposed := replicate cols (replicate rows undef) in
      (fold_left (transposeRow matrix cols) (seq 0 rows) transposed, [])
  end.

(** [matrix.flat()] *)
Definition flat (matrix : list (list A)) : list A := concat matrix.

(** [rows] rows of [cols] elements each. *)
Definition rectangular (rows cols : nat) (matrix : list (list A)) : bool :=
  (length matrix =? rows) && forallb (fun row => length row =? cols) matrix.

End Transpose.

(** A pose handed to [onPoseUpdate] that passed the checks of
    [processImage]: positive confidence, and an array of arrays or a flat
    array of 16 elements. *)
Definition checkedUpdate (e : Effect) : bool :=
  match e with
  | OnPoseUpdate p _ c =>
      (0 <? c)%float
      && match p with
         | Pose2D _ => true
         | PoseFlat elems => (length elems =? 16)%nat
         | PoseNotArray => false
         end
  | _ => true
  end.

(** [setEnabled(true)] *)
Definition isEnable (ev : Event) : bool :=
  match ev with SetEnabled true => true | _ => false end.

End OpenVPSProcessor.

(** ** The ARMarker system ([armarker.js]): origin anchor and marker registry *)

Module ARMarkerSystem.

Definition MAX_PERSISTENT_ANCHORS : nat := 7.

(** An [XRAnchor]; [canPersist]: it has [requestPersistentHandle]. *)
Record Anchor := {
  anchorId : nat;
  canPersist : bool }.

Inductive Effect :=
| ConsoleError (msg : string)
| ConsoleWarn (msg : string)
| AnchorDelete (a : Anchor).

(** The fields [setOriginAnchor] reads and writes, with the two stores
    behind the platform calls: [persistentAnchors] is
    [webXRSession.persistentAnchors] ([None] when the session has none),
    the handles in the order the platform lists them, oldest first;
    [storedOriginAnchor] is [localStorage.getItem('originAnchor')]. *)
Record System := mkSystem {
  webXRSession : bool;
  xrRefSpace : bool;
  persistentAnchors : option (list string);
  storedOriginAnchor : option string;
  originAnchor : option Anchor;
  pendingOriginAnchor : option bool }.

(** [webXRSession.deletePersistentAnchor(h)] as the platform does it: the
    handle is removed, and the promise is rejected for a handle the store
    does not hold. *)
Definition deletePersistentAnchor (h : string) (store : list string)
  : option (list string) :=
  if bool_decide (h ∈ store) then Some (filter (fun x => x <> h) store) else None.

(** [try { await deletePersistentAnchor(h) } catch (e) { console.warn(...) }] *)
Definition tryDelete (h : string) (msg : string) (store : list string)
  : list string * list Effect :=
  match deletePersistentAnchor h store with
  | Some store' => (store', [])
  | None => (store, [ConsoleWarn msg])
  end.

(** A string used as a condition. *)
Definition truthy (h : string) : bool := negb (String.eqb h "").

(** [setOriginAnchor(pose, xrFrame)] with the [then] callback of
    [createAnchor] run to its end.  [created] is what [createAnchor]
    resolves to ([None]: it rejects), [newHandle] what
    [anchor.requestPersistentHandle()] resolves to ([None]: it rejects);
    the platform adds a handle it hands out at the end of the store. *)
Definition setOriginAnchor (xrFrame : bool) (created : option Anchor)
    (newHandle : option string) (s : System) : System * list Effect :=
  if negb (webXRSession s) || negb (xrRefSpace s) then (s, [])
  else if negb xrFrame then
    (s, [ConsoleError "No XRFrame available, can't set origin anchor"])
  else
    match created with
    | None => (s, [ConsoleError "Error creating anchor in setOriginAnchor"])
    | Some anchor =>
        match canPersist anchor, persistentAnchors s with
        | true, Some store =>
            let '(store1, e1) :=
              match storedOriginAnchor s with
              | Some old =>
                  if truthy old
                  then tryDelete old "Could not delete old persistent anchor" store
                  else (store, [])
              | None => (store, [])
              end in
            let '(store2, e2) :=
              if (MAX_PERSISTENT_ANCHORS <=? length store1)%nat then
                match store1 with
                | oldestAnchor :: _ =>
                    if truthy oldestAnchor
                    then tryDelete oldestAnchor
                           "Could not delete oldest persistent anchor" store1
                    else (store1, [])
                | [] => (store1, [])
                end
              else (store1, []) in
            match newHandle with
            | Some handle =>
                (mkSystem (webXRSession s) (xrRefSpace s)
                          (Some (store2 ++ [handle])) (Some handle)
                          (Some anchor) (Some false),
                 e1 ++ e2)
            | None =>
                (mkSystem (webXRSession s) (xrRefSpace s) (Some store2)
                          (storedOriginAnchor s) (Some anchor) (Some false),
                 e1 ++ e2 ++ [ConsoleError "Could not persist anchor"])
            end
        | _, _ =>
            (mkSystem (webXRSession s) (xrRefSpace s) (persistentAnchors s)
                      (storedOriginAnchor s) (Some anchor) (Some false),
             match originAnchor s with
             | Some a => [AnchorDelete a]
             | None => []
             end)
        end
    end.

(** The store after the stored origin anchor, if it is in the store, was
    deleted. *)
Definition withoutStoredOrigin (s : System) (store : list string) : list string :=
  match storedOriginAnchor s with
  | Some old =>
      if truthy old then fst (tryDelete old "" store) else store
  | None => store
  end.

(** [persistentAnchors.forEach(async (anchorUUID) => { try { await
    xrSession.deletePersistentAnchor(anchorUUID) } catch (err) {
    console.warn(...) } })], the deletions run to their end. *)
Definition deleteEach (uuids store : list string) : list string * list Effect :=
  fold_left (fun '(store, es) anchorUUID =>
               let '(store1, e1) :=
                 tryDelete anchorUUID "Could not delete persisted anchor by UUID" store in
               (store1, es ++ e1))
            uuids (store, []).

(** [webXRSessionStarted(xrSession)] with the promise of
    [restorePersistentAnchor] run to its end.  [xrSession] is [None] for
    [undefined], else it gives the session's [persistentAnchors]; [refSpace]
    tells whether [getReferenceSpace()] gives one; [restored] is what
    [restorePersistentAnchor] resolves to ([None]: it rejects).  Setting the
    camera rig from the restored anchor's pose is left out. *)
Definition webXRSessionStarted (xrSession : option (option (list string)))
    (refSpace : bool) (restored : option Anchor) (s : System)
  : System * list Effect :=
  match xrSession with
  | None => (s, [])
  | Some anchors =>
      let forget :=
        (mkSystem true refSpace anchors None (originAnchor s)
                  (pendingOriginAnchor s), []) in
      match anchors, storedOriginAnchor s with
      | Some store, Some persistedOriginAnchor =>
          if truthy persistedOriginAnchor && refSpace then
            match restored with
            | Some anchor =>
                (mkSystem true refSpace anchors (storedOriginAnchor s)
                          (Some anchor) (pendingOriginAnchor s), [])
            | None =>
                let '(store1, es) := deleteEach store store in
                (mkSystem true refSpace (Some store1) None (originAnchor s)
                          (pendingOriginAnchor s),
                 ConsoleWarn "Could not restore persisted origin anchor" :: es)
            end
          else forget
      | _, _ => forget
      end
  end.

(** *** The marker registry ([registerComponent], [unregisterComponent],
    [getMarker], the ATLAS tags, the hand-over in [_initializeProcessors]) *)

(** [marker.data] of an [armarker] component, the fields the system
    reads. *)
Record MarkerData := {
  markerid : string;
  markertype : string;
  size : AprilTagProcessor.JsValue }.

(** An [armarker] component: its data, [el.id] and
    [el.object3D.matrixWorld]. *)
Record MarkerComponent := {
  data : MarkerData;
  elId : string;
  matrixWorld : Matrix4 }.

(** An entry of [ATLASMarkers]; [pose] is kept as the array
    [tag.pose.flat()] the matrix is read from. *)
Record ATLASMarker := {
  id : string;
  uuid : string;
  pose : list float }.



(** The two marker objects, used as maps from marker id (marker ids are
    taken not to be names of members of [Object.prototype]), and the marker
    processor once the pipeline is up. *)
Record Registry := mkRegistry {
  markers : gmap string MarkerComponent;
  ATLASMarkers : gmap string ATLASMarker;
  aprilTagProcessor : option AprilTagProcessor.Processor }.

Definition isAprilTag (marker : MarkerComponent) : bool :=
  String.eqb (markertype (data marker)) "apriltag_36h11".

Definition registerComponent (marker : MarkerComponent) (r : Registry)
  : Registry * list AprilTagProcessor.Effect :=
  let markers1 := <[markerid (data marker) := marker]> (markers r) in
  match aprilTagProcessor r with
  | Some p =>
      if isAprilTag marker then
        let '(p1, es) :=
          AprilTagProcessor.addKnownMarker (markerid (data marker))
                                           (size (data marker)) p in
        (mkRegistry markers1 (ATLASMarkers r) (Some p1), es)
      else (mkRegistry markers1 (ATLASMarkers r) (Some p), [])
  | None => (mkRegistry markers1 (ATLASMarkers r) None, [])
  end.





(** The loop of [_initializeProcessors] that hands the registered markers
    to the new processor; [values] is [Object.values(this.markers)]. *)
Definition addSceneMarkers (values : list MarkerComponent)
  : AprilTagProcessor.Action :=
  fun p =>
    fold_left (fun '(p, es) marker =>
                 if isAprilTag marker then
                   let '(p1, e1) :=
                     AprilTagProcessor.addKnownMarker (markerid (data marker))
                                                      (size (data marker)) p in
                   (p1, es ++ e1)
                 else (p, es))
              values (p, []).

(** Every component is registered under its own id. *)
Definition keyed (m : gmap string MarkerComponent) : Prop :=
  forall k marker, m !! k = Some marker -> markerid (data marker) = k.



(** The size in meters [addKnownMarker] accepts for a component. *)
Definition validSize (marker : MarkerComponent) : option float :=
  let m := (AprilTagProcessor.parseFloat (size (data marker)) / 1000)%float in
  if is_nan m || (m <=? 0)%float then None else Some m.

(** The size the processor has on record for a marker id. *)
Definition sizeOf (p : AprilTagProcessor.Processor) (k : string) : option float :=
  AprilTagProcessor.map_get k (AprilTagProcessor.knownMarkers p).

End ARMarkerSystem.

(** ** GetUserMediaCaptureHelper ([getusermedia-helper.js], the revision
    that pushes its frames through a [providerInterface]) *)

Module UserMediaHelper.

(** The members of [BaseCaptureHelper.prototype] ([base-capture-helper.js]):
    the methods of the class body and [usesXRFrame], with what each gives
    when it is used as a condition.  Fields such as [isCapturing] and
    [isStreaming] are created on the instance by the assignments in the
    methods and are no members of the prototype. *)
Definition basePrototype : list (string * bool) :=
  [("constructor", true); ("init", true); ("getFrameData", true);
   ("startStreaming", true); ("stopStreaming", true); ("destroy", true);
   ("usesXRFrame", false)].

(** [super.key] used as a condition in a method of a class that extends
    [BaseCaptureHelper]: the property is looked up on
    [BaseCaptureHelper.prototype], with the instance as receiver only; a
    property that is not found there is [undefined]. *)
Definition superTruthy (key : string) : bool :=
  match List.find (fun member => String.eqb (fst member) key) basePrototype with
  | Some member => snd member
  | None => false
  end.

(** The video element, as far as the helper looks at it. *)
Record Video := {
  readyState : nat;
  paused : bool;
  ended : bool;
  hasRequestVideoFrameCallback : bool }.

Definition HAVE_METADATA : nat := 1.

Inductive Effect :=
| ConsoleError (msg : string)
| RequestVideoFrameCallback
    (* this.videoElement.requestVideoFrameCallback(this._onVideoFrame) *)
| DistributeFrameData (frameData : FrameData)
    (* this.providerInterface.distributeFrameData(frameData) *).

Record Helper := mkHelper {
  isCapturing : bool;
  isStreaming : bool;              (* the field of the instance *)
  videoElement : option Video;
  canvasElement : Canvas;
  framePixels : option (list Z);
  frameWidth : nat;
  frameHeight : nat;
  hasProviderInterface : bool
    (* providerInterface is set and its distributeFrameData is a function *) }.

(** [if (this.isCapturing && super.isStreaming && this.videoElement &&
    typeof this.videoElement.requestVideoFrameCallback === 'function')]
    followed by the guarded request; [throws] tells whether the request
    throws, [msg] is what the [catch] block logs ([None]: it ignores the
    error). *)
Definition requestNext (superIsStreaming throws : bool) (msg : option string)
    (s : Helper) : list Effect :=
  match videoElement s with
  | Some v =>
      if isCapturing s && superIsStreaming && hasRequestVideoFrameCallback v then
        if throws then match msg with Some m => [ConsoleError m] | None => [] end
        else [RequestVideoFrameCallback]
      else []
  | None => []
  end.

(** [_onVideoFrame(now, videoFrameMetadata)].  [superIsStreaming] is what
    [super.isStreaming] gives as a condition, [readback] what drawing the
    video and reading the canvas gives ([None]: it throws), [timestamp]
    the value of [captureTime || presentedFrames || now], [viewTransform]
    the view matrix computed from the camera element, [throws] whether
    [requestVideoFrameCallback] throws. *)
Definition _onVideoFrame (superIsStreaming : bool) (readback : option (list Z))
    (timestamp : float) (viewTransform : Matrix4) (throws : bool) (s : Helper)
  : Helper * list Effect :=
  let blocked :=
    match videoElement s with
    | Some v =>
        negb (isCapturing s) || negb superIsStreaming
        || (readyState v <? HAVE_METADATA)%nat || paused v || ended v
    | None => true
    end in
  if blocked then
    (s, requestNext superIsStreaming throws
          (Some "Error requesting video frame callback in _onVideoFrame check") s)
  else
    match readback with
    | None =>
        (s, ConsoleError "Error drawing or getting image data"
            :: requestNext superIsStreaming throws None s)
    | Some data =>
        let s1 := mkHelper (isCapturing s) (isStreaming s) (videoElement s)
                           (canvasElement s) (Some data) (frameWidth s)
                           (frameHeight s) (hasProviderInterface s) in
        let frameData :=
          {| imageData :=
               Some {| buffer := framePixels s1; width := frameWidth s1;
                       height := frameHeight s1; format := "RGBA";
                       canvas := Some (canvasElement s1) |};
             metadata :=
               Some {| timestamp := timestamp; cameraIntrinsics := None;
                       viewTransformMatrix := Some viewTransform |} |} in
        (s1, (if hasProviderInterface s1 then [DistributeFrameData frameData] else [])
             ++ requestNext superIsStreaming throws
                  (Some "Error requesting video frame callback at end of _onVideoFrame")
                  s1)
    end.

(** [BaseCaptureHelper.startStreaming] and [stopStreaming], which the
    overrides call first. *)
Definition base_startStreaming (s : Helper) : Helper :=
  mkHelper (isCapturing s) true (videoElement s) (canvasElement s)
           (framePixels s) (frameWidth s) (frameHeight s) (hasProviderInterface s).
Definition base_stopStreaming (s : Helper) : Helper :=
  mkHelper (isCapturing s) false (videoElement s) (canvasElement s)
           (framePixels s) (frameWidth s) (frameHeight s) (hasProviderInterface s).

Definition isDistribute (e : Effect) : bool :=
  match e with DistributeFrameData _ => true | _ => false end.

End UserMediaHelper.

(** ** Concrete inputs used to instantiate the properties *)

Module Samples.
Import CameraImageProvider.

Definition userMediaOnly : DetectEnv :=
  {| webARViewerSupported := false; webXRRawSupported := false;
     headsetDetected := false; getUserMediaSupported := true |}.

Definition detector : Processor := {| processorId := 1; hasProcessImage := true |}.
Definition locator : Processor := {| processorId := 2; hasProcessImage := true |}.
Definition notAProcessor : Processor := {| processorId := 3; hasProcessImage := false |}.

Definition intrinsics0 : CameraIntrinsics :=
  {| fx := 500; fy := 500; cx := 1; cy := 1; gamma := 0 |}.

(** A 2 x 1 RGBA frame. *)
Definition image0 : CaptureImageData :=
  {| buffer := Some [1; 0; 0; 255; 200; 100; 50; 255]%Z;
     width := 2; height := 1; format := "RGBA"; canvas := None |}.
Definition metadata0 : CaptureMetadata :=
  {| timestamp := 16; cameraIntrinsics := Some intrinsics0;
     viewTransformMatrix :=
       Some [1; 0; 0; 0; 0; 1; 0; 0; 0; 0; 1; 0; 0; 0; 0; 1]%float |}.
Definition frame0 : FrameData :=
  {| imageData := Some image0; metadata := Some metadata0 |}.

(** A provider without XR session, just constructed. *)
Definition anchor0 : ARMarkerSystem.Anchor :=
  {| ARMarkerSystem.anchorId := 8; ARMarkerSystem.canPersist := true |}.

(** Seven persisted anchors, oldest first; the last one is the origin
    anchor persisted before. *)
Definition sevenAnchors : list string := ["a1"; "a2"; "a3"; "a4"; "a5"; "a6"; "a7"].
Definition fullStore : ARMarkerSystem.System :=
  ARMarkerSystem.mkSystem true true (Some sevenAnchors) (Some "a7") None None.
(** The same store with no origin anchor on record. *)
Definition fullStoreNoOrigin : ARMarkerSystem.System :=
  ARMarkerSystem.mkSystem true true (Some sevenAnchors) None None None.

Definition fresh : System := construct false false false userMediaOnly.

(** The user-media helper is up and two processors are registered. *)
Definition streaming : System :=
  fst (run [InitSettled InitTrue; RegisterProcessor detector;
            RegisterProcessor locator] fresh).

(** The reply that makes the worker ready. *)
Definition initDone : AprilTagProcessor.MessageData :=
  {| AprilTagProcessor.type := AprilTagProcessor.INIT_DONE;
     AprilTagProcessor.detections := None;
     AprilTagProcessor.ts := 0;
     AprilTagProcessor.grayscalePixels_back := None |}.

(** A marker processor whose worker has answered. *)
Definition readyDetector : AprilTagProcessor.Processor :=
  AprilTagProcessor.mkProcessor true true None [].

Definition vpsOptions : OpenVPSProcessor.Options :=
  {| OpenVPSProcessor.imageUrl := "https://vps.example/localize";
     OpenVPSProcessor.interval := 5000;
     OpenVPSProcessor.maxRetries := 2;
     OpenVPSProcessor.retryDelay := 1000;
     OpenVPSProcessor.onPoseUpdate := Some OpenVPSProcessor.CallbackReturns |}.

Definition goodResponse : OpenVPSProcessor.Response :=
  {| OpenVPSProcessor.pose := Some (OpenVPSProcessor.PoseFlat (replicate 16 1%float));
     OpenVPSProcessor.serverConfidence := Some 0.9%float |}.

Definition noPoseResponse : OpenVPSProcessor.Response :=
  {| OpenVPSProcessor.pose := None;
     OpenVPSProcessor.serverConfidence := Some 0.9%float |}.

(** An AprilTag component of 150 mm. *)
Definition marker7 : ARMarkerSystem.MarkerComponent :=
  {| ARMarkerSystem.data :=
       {| ARMarkerSystem.markerid := "7";
          ARMarkerSystem.markertype := "apriltag_36h11";
          ARMarkerSystem.size := AprilTagProcessor.JsNumber 150 |};
     ARMarkerSystem.elId := "marker-7";
     ARMarkerSystem.matrixWorld := [] |}.


(** A registry with nothing in it and no pipeline yet. *)
Definition emptyRegistry : ARMarkerSystem.Registry :=
  ARMarkerSystem.mkRegistry ∅ ∅ None.

(** A device with a WebXR session that gives raw camera access only. *)
Definition rawCameraOnly : DetectEnv :=
  {| webARViewerSupported := false; webXRRawSupported := true;
     headsetDetected := false; getUserMediaSupported := false |}.

(** A device on which every helper is supported. *)
Definition everything : DetectEnv :=
  {| webARViewerSupported := true; webXRRawSupported := true;
     headsetDetected := true; getUserMediaSupported := true |}.

(** A 2 x 3 matrix. *)
Definition matrix23 : list (list nat) := [[1; 2; 3]; [4; 5; 6]].



End Samples.

(** ** Properties of the provider *)

Module ProviderProofs.
Import CameraImageProvider.

Ltac break_match :=
  match goal with
  | |- context [match ?x with _ => _ end] => destruct x eqn:?
  | H : context [match ?x with _ => _ end] |- _ => destruct x eqn:?
  end.

Lemma System_eta (y : System) :
  mkSystem (provider y) (detectEnv y) (detectPC y) (pendingXRCallbacks y)
           (awaitingFrameData y) (rounds y) = y.
Proof. destruct y; reflexivity. Qed.

(** C10: a processor whose [processImage] is not a function is refused
    with one logged error; the provider, and with it the processor set,
    the capturing flag and the capture helper, stays as it was and nothing
    is started. *)
Theorem registerProcessor_rejects_non_function (p : Processor) (y : System) :
  hasProcessImage p = false ->
  registerProcessor p (provider y)
    = (provider y,
       [ConsoleError "Processor must implement processImage(imageData, metadata) that returns a Promise."])
  /\ step (RegisterProcessor p) y
    = (y, [ConsoleError "Processor must implement processImage(imageData, metadata) that returns a Promise."]).
Proof.
  intros Hp. unfold step, perform, registerProcessor. rewrite Hp. simpl.
  split; [reflexivity|]. unfold set_provider. now rewrite System_eta.
Qed.

Lemma registerProcessor_rejects_non_function_witness :
  hasProcessImage Samples.notAProcessor = false
  /\ step (RegisterProcessor Samples.notAProcessor) Samples.streaming
     = (Samples.streaming,
        [ConsoleError "Processor must implement processImage(imageData, metadata) that returns a Promise."]).
Proof.
  split; [reflexivity|].
  exact (proj2 (registerProcessor_rejects_non_function
                  Samples.notAProcessor Samples.streaming eq_refl)).
Defined.

(** *** Single-flight distribution *)

Lemma distributeFrameData_gate (y : System) (fd : option FrameData) :
  isCapturing (provider y) = false \/ processors (provider y) = []
  \/ isPipelineBusy (provider y) = true \/ lacksData fd = true ->
  step (PushFrame fd) y = (y, []).
Proof.
  intros H. unfold step, perform, distributeFrameData.
  destruct y as [s env pc n a r]; simpl in *.
  destruct (isCapturing s) eqn:Hc; simpl; [|reflexivity].
  destruct (processors s) as [|p ps] eqn:Hp; simpl; [reflexivity|].
  destruct (isPipelineBusy s) eqn:Hb; simpl; [reflexivity|].
  destruct H as [H|[H|[H|H]]]; try discriminate.
  destruct fd as [[[i|] [m|]]|]; simpl in H; try discriminate; reflexivity.
Qed.

(** While the flag is set, an arriving event starts no round, suspends no
    [_onXRFrame], calls no processor and leaves the flag set. *)
Ltac unfold_provider :=
  unfold step, perform, settle, registerProcessor, unregisterProcessor,
    distributeFrameData, _distributeFrameToProcessors, _onXRFrame_begin,
    _onXRFrame_resume, destroy, detect_resume, _detectAndInitializeApi,
    detect_webxr, detect_headset, detect_fallback, detect_final, after,
    andThen, activate, _startCaptureLoop, _stopCaptureLoop,
    _handleApiInitializationError, hasStartStreaming, hasStopStreaming,
    hasDestroy, set_provider, set_processors, set_isCapturing,
    set_isPipelineBusy, set_captureHelper, set_activeApiName in *.

(** Case analysis on the innermost scrutinee of the goal. *)
Ltac split_cases :=
  repeat (first
    [ progress cbn in *
    | match goal with
      | |- context [match ?x with _ => _ end] =>
          lazymatch x with
          | context [match _ with _ => _ end] => fail
          | _ => destruct x eqn:?
          end
      end ]).

Lemma arrival_while_busy (ev : Event) (y : System) :
  arrival ev = true ->
  isPipelineBusy (provider y) = true ->
  let '(y1, es) := step ev y in
  isPipelineBusy (provider y1) = true
  /\ rounds y1 = rounds y
  /\ awaitingFrameData y1 = awaitingFrameData y
  /\ List.filter isProcessImage es = [].
Proof.
  intros Ha Hb. destruct y as [s env pc n a r].
  destruct s as [xr g ref api h ps cap busy]. simpl in Hb. subst busy.
  destruct ev; try discriminate Ha; clear Ha;
    unfold_provider; split_cases; auto.
  rewrite orb_true_r in *. discriminate.
Qed.

Lemma arrivals_while_busy (evs : list Event) (y : System) :
  forallb arrival evs = true ->
  isPipelineBusy (provider y) = true ->
  isPipelineBusy (provider (fst (run evs y))) = true
  /\ rounds (fst (run evs y)) = rounds y
  /\ List.filter isProcessImage (snd (run evs y)) = [].
Proof.
  revert y. induction evs as [|ev evs IH]; intros y Ha Hb; simpl.
  - tauto.
  - simpl in Ha. apply andb_true_iff in Ha as [Hev Hevs].
    pose proof (arrival_while_busy ev y Hev Hb) as H1.
    destruct (step ev y) as [y1 e1]. destruct H1 as (Hb1 & Hr1 & _ & Hf1).
    specialize (IH y1 Hevs Hb1). destruct (run evs y1) as [y2 e2]. simpl in *.
    destruct IH as (Hb2 & Hr2 & Hf2).
    rewrite List.filter_app, Hf1, Hf2. repeat split; congruence.
Qed.

(** A pushed frame that makes a call to some processor leaves the flag set. *)
Lemma round_started_busy (y : System) (fd : option FrameData) :
  List.filter isProcessImage (snd (step (PushFrame fd) y)) <> [] ->
  isPipelineBusy (provider (fst (step (PushFrame fd) y))) = true.
Proof.
  unfold step, perform, distributeFrameData.
  destruct y as [s env pc n a r]. destruct s as [xr g ref api h ps cap busy].
  cbn. destruct cap; cbn; [|congruence].
  destruct ps as [|p ps]; cbn; [congruence|].
  destruct busy; cbn; [congruence|].
  destruct fd as [[[i|] [m|]]|]; cbn; try congruence.
  intros _. unfold set_provider. cbn.
  rewrite fold_left_app. cbn.
  set (f := fun q : Processor => ProcessImage q i m).
  assert (G : forall (l : list Processor) (z : System),
             isPipelineBusy (provider z) = true ->
             isPipelineBusy (provider (fold_left absorb (map f l) z)) = true).
  { induction l as [|q l IHl]; intros z Hz; cbn; [exact Hz|].
    apply IHl. exact Hz. }
  apply G. reflexivity.
Qed.

(** C1: a frame pushed through [distributeFrameData] while the provider is
    not capturing, or has no processor, or has [isPipelineBusy] set, or
    that lacks [imageData] or [metadata], calls no processor and changes
    nothing (there is no queue to put it in); in particular this is so for
    a frame that arrives after a pushed frame started a round whose
    promises have not settled, whatever registrations, detection steps,
    frames and ticks came in between. *)
Theorem distributeFrameData_drops_frame (y : System) (fd : option FrameData) :
  isCapturing (provider y) = false
  \/ processors (provider y) = []
  \/ isPipelineBusy (provider y) = true
  \/ lacksData fd = true
  \/ (exists (y0 : System) (fd1 : option FrameData) (evs : list Event),
        List.filter isProcessImage (snd (step (PushFrame fd1) y0)) <> []
        /\ forallb arrival evs = true
        /\ y = fst (run evs (fst (step (PushFrame fd1) y0)))) ->
  step (PushFrame fd) y = (y, [])
  /\ distributeFrameData fd (provider y) = (provider y, []).
Proof.
  intros H.
  assert (G : isCapturing (provider y) = false \/ processors (provider y) = []
              \/ isPipelineBusy (provider y) = true \/ lacksData fd = true).
  { destruct H as [H|[H|[H|[H|H]]]]; try tauto.
    destruct H as (y0 & fd1 & evs & Hstart & Hevs & ->).
    right; right; left.
    apply arrivals_while_busy; [exact Hevs|].
    apply round_started_busy, Hstart. }
  split; [apply distributeFrameData_gate, G|].
  pose proof (distributeFrameData_gate y fd G) as E.
  unfold step, perform in E.
  destruct (distributeFrameData fd (provider y)) as [s es].
  injection E as E1 E2. subst es. f_equal.
  apply (f_equal provider) in E1. simpl in E1. exact E1.
Qed.

Lemma distributeFrameData_drops_frame_witness :
  let y0 := Samples.streaming in
  let first := Some Samples.frame0 in
  let between := [PushFrame (Some Samples.frame0); RegisterProcessor Samples.detector] in
  let y := fst (run between (fst (step (PushFrame first) y0))) in
  List.filter isProcessImage (snd (step (PushFrame first) y0)) <> []
  /\ step (PushFrame (Some Samples.frame0)) y = (y, []).
Proof.
  intros y0 first between y. split; [vm_compute; discriminate|].
  refine (proj1 (distributeFrameData_drops_frame y (Some Samples.frame0) _)).
  right; right; right; right. exists y0, first, between.
  split; [vm_compute; discriminate|]. split; reflexivity.
Defined.

(** The same holds for the tick-pulled entry: a tick that finds the flag
    set requests the next tick and returns before [getFrameData]. *)
Lemma _onXRFrame_drops_while_busy (s : Provider) :
  isPipelineBusy s = true ->
  let '(s1, es, awaits) := _onXRFrame_begin s in
  awaits = false /\ List.filter isProcessImage es = []
  /\ isPipelineBusy s1 = true.
Proof.
  intros Hb. unfold _onXRFrame_begin.
  destruct (isCapturing s), (xrSession s), (captureHelper s) as [h|]; cbn; auto.
  destruct (usesXRFrame h); cbn; auto.
  rewrite Hb, orb_true_r. auto.
Qed.

(** *** Distribution rounds *)

Lemma set_delete_not_in (p : Processor) (l : list Processor) :
  p ∉ l -> set_delete p l = l.
Proof.
  intros Hp. unfold set_delete. induction l as [|q l IH]; [reflexivity|].
  rewrite not_elem_of_cons in Hp. destruct Hp as [Hq Hl].
  rewrite filter_cons_True by congruence. f_equal. apply IH, Hl.
Qed.

Lemma set_delete_head (p : Processor) (l : list Processor) :
  p ∉ l -> set_delete p (p :: l) = l.
Proof.
  intros Hp. unfold set_delete. rewrite filter_cons_False by tauto.
  apply set_delete_not_in, Hp.
Qed.

Lemma set_delete_perm (p : Processor) (l l' : list Processor) :
  NoDup l -> l ≡ₚ p :: l' -> set_delete p l ≡ₚ l' /\ NoDup (set_delete p l).
Proof.
  intros Hnd Hperm. split.
  - unfold set_delete. rewrite Hperm. fold (set_delete p (p :: l')).
    rewrite set_delete_head; [reflexivity|].
    rewrite Hperm in Hnd. apply NoDup_cons in Hnd. tauto.
  - apply NoDup_filter, Hnd.
Qed.

Lemma absorb_ProcessImage (i : CaptureImageData) (m : CaptureMetadata)
    (l : list Processor) (z : System) :
  fold_left absorb (map (fun p => ProcessImage p i m) l) z = z.
Proof. revert z. induction l as [|q l IH]; intros z; cbn; auto. Qed.

Lemma invocations_map (i : CaptureImageData) (m : CaptureMetadata)
    (p : Processor) (l : list Processor) :
  NoDup l ->
  invocations p (map (fun q => ProcessImage q i m) l)
    = if bool_decide (p ∈ l) then 1 else 0.
Proof.
  unfold invocations. induction l as [|q l IH]; intros Hnd; [reflexivity|].
  apply NoDup_cons in Hnd as [Hq Hl]. specialize (IH Hl). cbn.
  destruct (bool_decide_reflect (q = p)) as [->|Hne]; cbn.
  - rewrite IH. rewrite (bool_decide_eq_false_2 _ Hq).
    rewrite bool_decide_eq_true_2 by (apply elem_of_cons; auto). reflexivity.
  - rewrite IH. rewrite (bool_decide_ext (p ∈ q :: l) (p ∈ l)); [reflexivity|].
    rewrite elem_of_cons. split; [intros [E|E]; [congruence|exact E]|auto].
Qed.

(** Settling the promises of one round, in any order. *)
Lemma settle_round (r : nat) (order : list (Processor * Outcome)) :
  forall (y : System) (pending : list Processor),
  rounds y !! r = Some pending ->
  NoDup pending ->
  map fst order ≡ₚ pending ->
  rounds (fst (run (settleEvents r order) y)) !! r = Some []
  /\ (order <> [] -> isPipelineBusy (provider (fst (run (settleEvents r order) y))) = false)
  /\ (order = [] -> fst (run (settleEvents r order) y) = y)
  /\ length (List.filter isConsoleError (snd (run (settleEvents r order) y)))
      = length (List.filter isRejected order)
  /\ (forall pre post, order = pre ++ post -> post <> [] ->
        isPipelineBusy (provider (fst (run (settleEvents r pre) y)))
        = isPipelineBusy (provider y)).
Proof.
  induction order as [|[p o] rest IH]; intros y pending Hr Hnd Hperm.
  - cbn in Hperm. apply Permutation_nil in Hperm. subst pending. cbn.
    repeat split; auto; try congruence.
    intros pre post E Hpost. destruct pre; [reflexivity|discriminate].
  - cbn in Hperm. symmetry in Hperm.
    destruct (set_delete_perm p pending (map fst rest) Hnd Hperm) as [Hperm' Hnd'].
    assert (Hin : p ∈ pending) by (rewrite Hperm; left).
    assert (Hlt : r < length (rounds y)) by (eapply lookup_lt_Some; eauto).
    cbn [settleEvents map run fst snd step]. unfold settle. rewrite Hr.
    rewrite (bool_decide_eq_true_2 _ Hin).
    set (y1 := mkSystem _ _ _ _ _ _).
    assert (Hr1 : rounds y1 !! r = Some (set_delete p pending)).
    { subst y1. cbn. apply list_lookup_insert_eq, Hlt. }
    symmetry in Hperm'.
    specialize (IH y1 (set_delete p pending) Hr1 Hnd' Hperm').
    fold (settleEvents r rest).
    destruct (run (settleEvents r rest) y1) as [y2 e2] eqn:Hrun.
    cbn [fst snd] in *. destruct IH as (IH1 & IH2 & IH3 & IH4 & IH5).
    split; [exact IH1|]. split; [|split; [discriminate|split]].
    + intros _. destruct rest as [|po rest'].
      * rewrite IH3 by reflexivity. cbn in Hperm'.
        apply Permutation_nil in Hperm'. subst y1. rewrite Hperm'. reflexivity.
      * apply IH2. discriminate.
    + rewrite List.filter_app, length_app, IH4.
      destruct o; reflexivity.
    + intros pre post E Hpost. destruct pre as [|po pre']; [reflexivity|].
      cbn in E. injection E as <- E.
      cbn [settleEvents map run fst snd step]. unfold settle. rewrite Hr.
      rewrite (bool_decide_eq_true_2 _ Hin). fold y1. fold (settleEvents r pre').
      destruct (run (settleEvents r pre') y1) as [y3 e3] eqn:Hrun3.
      cbn [fst]. specialize (IH5 pre' post E Hpost). rewrite Hrun3 in IH5.
      cbn [fst] in IH5. rewrite IH5. subst y1. cbn.
      destruct (set_delete p pending) eqn:Hd; [|reflexivity].
      apply Permutation_nil_r in Hperm'. rewrite E in Hperm'.
      rewrite map_app in Hperm'. destruct post; [congruence|].
      destruct (map fst pre'); discriminate.
Qed.

(** C2: for any set of registered processors (none included) and any
    frame with image data and metadata, a distribution round calls
    [processImage] exactly once on each registered processor and on no
    other; whatever the order in which the promises settle and however
    many of them reject, [isPipelineBusy] is left untouched until the last
    one settles and is cleared then, and every rejection is logged once. *)
Theorem distribution_round_completes
    (y : System) (i : CaptureImageData) (m : CaptureMetadata)
    (order : list (Processor * Outcome)) :
  NoDup (processors (provider y)) ->
  map fst order ≡ₚ processors (provider y) ->
  let r := length (rounds y) in
  let '(y1, es) := perform (_distributeFrameToProcessors (Some i) (Some m)) y in
  let '(y2, es2) := run (settleEvents r order) y1 in
  (forall p, invocations p es
             = if bool_decide (p ∈ processors (provider y)) then 1 else 0)
  /\ length (List.filter isProcessImage es) = length (processors (provider y))
  /\ rounds y1 !! r = Some (processors (provider y))
  /\ isPipelineBusy (provider y2) = false
  /\ rounds y2 !! r = Some []
  /\ length (List.filter isConsoleError es2) = length (List.filter isRejected order)
  /\ (forall pre post, order = pre ++ post -> post <> [] ->
        isPipelineBusy (provider (fst (run (settleEvents r pre) y1)))
        = isPipelineBusy (provider y)).
Proof.
  intros Hnd Hperm r. unfold perform, _distributeFrameToProcessors.
  rewrite fold_left_app, absorb_ProcessImage. cbn [fold_left absorb].
  set (ps := processors (provider y)) in *.
  set (y1 := mkSystem _ _ _ _ _ _).
  assert (Hr1 : rounds y1 !! r = Some ps).
  { subst y1 r. cbn. unfold set_provider. cbn.
    rewrite lookup_app_r by lia. now rewrite Nat.sub_diag. }
  pose proof (settle_round r order y1 ps Hr1 Hnd Hperm) as H.
  destruct (run (settleEvents r order) y1) as [y2 es2] eqn:Hrun.
  cbn [fst snd] in H. destruct H as (H1 & H2 & H3 & H4 & H5).
  split; [|split; [|split; [exact Hr1|split; [|split; [exact H1|split; [exact H4|]]]]]].
  - intros p. unfold invocations. rewrite List.filter_app, length_app. cbn.
    rewrite Nat.add_0_r. apply invocations_map, Hnd.
  - rewrite List.filter_app, length_app. cbn. rewrite Nat.add_0_r.
    clear. induction ps; cbn; auto.
  - destruct order as [|po order'].
    + rewrite H3 by reflexivity. cbn in Hperm.
      apply Permutation_nil in Hperm. subst y1. rewrite Hperm. reflexivity.
    + apply H2. discriminate.
  - intros pre post E Hpost. rewrite (H5 pre post E Hpost).
    subst y1. cbn. destruct ps eqn:Hps; [|unfold set_provider; reflexivity].
    apply Permutation_nil_r in Hperm. rewrite E, map_app in Hperm.
    destruct post; [congruence|]. destruct (map fst pre); discriminate.
Qed.

Lemma distribution_round_completes_witness :
  let y := Samples.streaming in
  let order := [(Samples.locator, Rejected); (Samples.detector, Fulfilled)] in
  NoDup (processors (provider y))
  /\ map fst order ≡ₚ processors (provider y)
  /\ exists y1 es y2 es2,
      perform (_distributeFrameToProcessors (Some Samples.image0)
                 (Some Samples.metadata0)) y = (y1, es)
      /\ run (settleEvents (length (rounds y)) order) y1 = (y2, es2)
      /\ invocations Samples.detector es = 1
      /\ invocations Samples.locator es = 1
      /\ isPipelineBusy (provider y2) = false
      /\ length (List.filter isConsoleError es2) = 1.
Proof.
  intros y order.
  assert (H1 : NoDup (processors (provider y))) by (vm_compute; compute_done).
  assert (H2 : map fst order ≡ₚ processors (provider y)) by (vm_compute; constructor).
  split; [exact H1|]. split; [exact H2|].
  pose proof (distribution_round_completes y Samples.image0 Samples.metadata0
                order H1 H2) as H.
  cbv zeta in H.
  destruct (perform _ y) as [y1 es] eqn:E1.
  destruct (run _ y1) as [y2 es2] eqn:E2.
  destruct H as (Hinv & _ & _ & Hbusy & _ & Herr & _).
  exists y1, es, y2, es2.
  split; [reflexivity|]. split; [exact E2|].
  split; [exact (Hinv Samples.detector)|].
  split; [exact (Hinv Samples.locator)|].
  split; [exact Hbusy|exact Herr].
Defined.

(** *** The capturing flag *)

Lemma set_add_nonempty (p : Processor) (l : list Processor) : set_add p l <> [].
Proof.
  unfold set_add. destruct (bool_decide_reflect (p ∈ l)) as [H|H].
  - intros ->. inversion H.
  - destruct l; discriminate.
Qed.

Lemma set_add_NoDup (p : Processor) (l : list Processor) :
  NoDup l -> NoDup (set_add p l).
Proof.
  intros H. unfold set_add. destruct (bool_decide_reflect (p ∈ l)) as [Hin|Hin]; auto.
  apply NoDup_app. repeat split; auto.
  - intros x Hx Hx'. apply list_elem_of_singleton in Hx'. congruence.
  - apply NoDup_singleton.
Qed.

Lemma set_add_idem (p : Processor) (l : list Processor) :
  set_add p (set_add p l) = set_add p l.
Proof.
  assert (Hin : p ∈ set_add p l).
  { unfold set_add. destruct (bool_decide_reflect (p ∈ l)) as [Hin|Hin]; [exact Hin|].
    apply elem_of_app. right. left. }
  unfold set_add at 1. now rewrite bool_decide_eq_true_2.
Qed.

Lemma set_delete_idem (p : Processor) (l : list Processor) :
  set_delete p (set_delete p l) = set_delete p l.
Proof.
  unfold set_delete. induction l as [|q l IH]; [reflexivity|].
  destruct (decide (q = p)) as [->|Hne].
  - rewrite filter_cons_False by tauto. exact IH.
  - rewrite filter_cons_True by exact Hne.
    rewrite filter_cons_True by exact Hne. now rewrite IH.
Qed.

Ltac norm_hyps :=
  repeat match goal with
  | H : (_ && _) = true |- _ => apply andb_true_iff in H; destruct H
  | H : (_ && _) = false |- _ => apply andb_false_iff in H
  | H : (_ || _) = true |- _ => apply orb_true_iff in H
  | H : (_ || _) = false |- _ => apply orb_false_iff in H; destruct H
  | H : negb _ = true |- _ => apply negb_true_iff in H
  | H : negb _ = false |- _ => apply negb_false_iff in H
  | H : _ = _ \/ _ = _ |- _ => destruct H
  | H : bool_decide _ = true |- _ => apply bool_decide_eq_true_1 in H
  | H : bool_decide _ = false |- _ => apply bool_decide_eq_false_1 in H
  | H : (length _ =? 0)%nat = true |- _ => apply Nat.eqb_eq in H
  | H : (length _ =? 0)%nat = false |- _ => apply Nat.eqb_neq in H
  | H : length ?l <> 0 |- _ =>
      assert (l <> []) by (intros E; rewrite E in H; apply H; reflexivity); clear H
  | H : filter _ ?l <> [] |- _ =>
      lazymatch goal with
      | _ : l <> [] |- _ => fail
      | _ => assert (l <> []) by (intros E; rewrite E in H; apply H; reflexivity)
      end
  | H : length _ = 0 |- _ => apply length_zero_iff_nil in H
  | H : length ?l = S _ |- _ =>
      assert (l <> []) by (intros E; rewrite E in H; discriminate H); clear H
  | H : set_add _ _ = [] |- _ => exfalso; exact (set_add_nonempty _ _ H)
  | H : is_Some (Some _) -> False |- _ => exfalso; apply H; eexists; reflexivity
  | H : ~ is_Some (Some _) |- _ => exfalso; apply H; eexists; reflexivity
  end.

Ltac finish_consistent :=
  unfold consistent in *; cbn in *; norm_hyps;
  repeat match goal with
         | H : _ /\ _ |- _ => destruct H
         end;
  repeat split; intros;
  repeat match goal with
         | H : _ /\ _ |- _ => destruct H
         | H : (_, _) = (_, _) |- _ => injection H as ? ?
         end;
  norm_hyps;
  repeat match goal with
         | H : ?a <> ?b -> _ |- _ => specialize (H ltac:(discriminate))
         | H : ?a = ?a -> _ |- _ => specialize (H eq_refl)
         | H : (0 < ?n) -> _, H' : 0 < ?n |- _ => specialize (H H')
         | H : (0 < S ?n) -> _ |- _ => specialize (H (Nat.lt_0_succ n))
         | H : exists _, _ |- _ => destruct H as (? & ? & ?)
         end;
  try (simplify_eq/=); try congruence; try lia;
  try solve [ eauto | intuition (eauto; congruence)
            | exfalso; intuition (eauto; congruence) ].

Lemma construct_consistent (xr glc ref : bool) (env : DetectEnv) :
  consistent (construct xr glc ref env).
Proof.
  unfold construct. unfold_provider. split_cases; finish_consistent.
Qed.

Lemma consistent_same_shape (y y' : System) :
  same_shape y y' -> consistent y -> consistent y'.
Proof.
  unfold same_shape, consistent.
  intros (-> & -> & -> & -> & -> & ->). auto.
Qed.

Lemma distribute_same_shape (y : System)
    (i : option CaptureImageData) (m : option CaptureMetadata) (b : bool) :
  same_shape y
    (fst (perform (_distributeFrameToProcessors i m)
                  (set_provider (set_isPipelineBusy b (provider y)) y))).
Proof.
  unfold perform, _distributeFrameToProcessors.
  destruct i as [i|], m as [m|]; cbn; try (repeat split; reflexivity).
  rewrite fold_left_app, absorb_ProcessImage. cbn.
  destruct (processors (provider y)); repeat split; reflexivity.
Qed.

Lemma step_consistent (ev : Event) (y : System) :
  isDestroy ev = false -> consistent y -> consistent (fst (step ev y)).
Proof.
  intros Hd Hy. destruct ev; try discriminate Hd; clear Hd.
  - destruct y as [[xr g ref api h ps cap busy] env pc n a rs].
    unfold_provider; split_cases; finish_consistent.
  - destruct y as [[xr g ref api h ps cap busy] env pc n a rs].
    unfold_provider; split_cases; finish_consistent.
  - destruct y as [[xr g ref api h ps cap busy] env pc n a rs].
    unfold_provider; split_cases; finish_consistent.
  - (* distributeFrameData *)
    cbn [step]. unfold perform at 1, distributeFrameData.
    destruct (negb (isCapturing (provider y)));
      [unfold set_provider; cbn; now rewrite System_eta|].
    destruct (length (processors (provider y)) =? 0)%nat;
      [unfold set_provider; cbn; now rewrite System_eta|].
    destruct (isPipelineBusy (provider y));
      [unfold set_provider; cbn; now rewrite System_eta|].
    destruct fd as [[[i|] [m|]]|];
      try (unfold set_provider; cbn; now rewrite System_eta).
    eapply consistent_same_shape; [|exact Hy].
    apply (distribute_same_shape y (Some i) (Some m) true).
  - (* _onXRFrame *)
    destruct y as [[xr g ref api h ps cap busy] env pc n a rs].
    unfold_provider; split_cases; finish_consistent.
  - (* _onXRFrame after its await *)
    cbn [step]. destruct (awaitingFrameData y) as [|k] eqn:Hk; [exact Hy|].
    unfold perform, _onXRFrame_resume.
    destruct r as [|[fd|]]; cbn -[_distributeFrameToProcessors];
      try (eapply consistent_same_shape; [|exact Hy]; repeat split; reflexivity).
    set (y' := mkSystem (provider y) (detectEnv y) (detectPC y)
                        (pendingXRCallbacks y) k (rounds y)).
    assert (Hy' : consistent y') by exact Hy.
    eapply consistent_same_shape; [|exact Hy'].
    apply (distribute_same_shape y' (imageData fd) (metadata fd) true).
  - (* a processImage promise settles *)
    cbn [step]. unfold settle.
    destruct (rounds y !! round) as [pending|]; [|exact Hy].
    destruct (bool_decide (p ∈ pending)); [|exact Hy]. cbn [fst].
    eapply consistent_same_shape; [|exact Hy].
    destruct (set_delete p pending); repeat split; reflexivity.
Qed.

Lemma run_consistent (evs : list Event) (y : System) :
  forallb (fun ev => negb (isDestroy ev)) evs = true ->
  consistent y -> consistent (fst (run evs y)).
Proof.
  revert y. induction evs as [|ev evs IH]; intros y Hevs Hy; [exact Hy|].
  cbn in Hevs. apply andb_true_iff in Hevs as [Hev Hevs].
  apply negb_true_iff in Hev. pose proof (step_consistent ev y Hev Hy) as H1.
  cbn [run]. destruct (step ev y) as [y1 e1]. specialize (IH y1 Hevs H1).
  destruct (run evs y1) as [y2 e2]. exact IH.
Qed.

(** The processor list of a constructed provider never holds an entry
    twice. *)
Lemma absorb_processors (es : list Effect) (z : System) :
  processors (provider (fold_left absorb es z)) = processors (provider z).
Proof.
  revert z. induction es as [|e es IH]; intros z; [reflexivity|].
  cbn [fold_left]. rewrite IH. destruct e; try reflexivity.
  cbn. destruct ps; reflexivity.
Qed.

Lemma step_processors (ev : Event) (y : System) :
  let ps := processors (provider y) in
  let ps' := processors (provider (fst (step ev y))) in
  ps' = ps \/ (exists p, ps' = set_add p ps) \/ (exists p, ps' = set_delete p ps)
  \/ ps' = [].
Proof.
  cbv zeta. destruct y as [[xr g ref api h ps cap busy] env pc n a rs].
  destruct ev; cbn [step provider processors].
  - unfold perform. destruct (registerProcessor p _) as [s es] eqn:E.
    cbn [fst]. rewrite absorb_processors. cbn.
    revert E. unfold_provider. split_cases; intros E; simplify_eq; cbn; eauto.
  - unfold perform. destruct (unregisterProcessor p _) as [s es] eqn:E.
    cbn [fst]. rewrite absorb_processors. cbn.
    revert E. unfold unregisterProcessor, _stopCaptureLoop, hasStopStreaming,
      set_processors, set_isCapturing.
    cbn -[set_delete]. split_cases; intros E; simplify_eq; cbn -[set_delete]; eauto.
  - destruct (detect_resume _ _ _ _) as [[s es] pc'] eqn:E.
    cbn [fst]. rewrite absorb_processors. cbn.
    revert E. unfold_provider. split_cases; intros E; simplify_eq; cbn; eauto.
  - unfold perform. destruct (distributeFrameData fd _) as [s es] eqn:E.
    cbn [fst]. rewrite absorb_processors. cbn.
    revert E. unfold_provider. split_cases; intros E; simplify_eq; cbn; eauto.
  - destruct n as [|n]; cbn [pendingXRCallbacks provider]; [cbn; auto|].
    destruct (_onXRFrame_begin _) as [[s es] aw] eqn:E.
    cbn [fst]. rewrite absorb_processors. cbn.
    revert E. unfold_provider. split_cases; intros E; simplify_eq; cbn; eauto.
  - destruct a as [|a]; cbn [awaitingFrameData provider]; [cbn; auto|].
    unfold perform. destruct (_onXRFrame_resume r _) as [s es] eqn:E.
    cbn [fst]. rewrite absorb_processors. cbn.
    revert E. unfold_provider. unfold _distributeFrameToProcessors.
    split_cases; intros E; simplify_eq; cbn; eauto.
  - unfold settle. cbn. destruct (rs !! round) as [pending|]; [|cbn; auto].
    destruct (bool_decide (p ∈ pending)); [|cbn; auto].
    cbn. destruct (set_delete p pending); cbn; auto.
  - unfold perform. destruct (destroy _) as [s es] eqn:E.
    cbn [fst]. rewrite absorb_processors. cbn.
    revert E. unfold_provider. split_cases; intros E; simplify_eq; cbn; eauto.
Qed.

Lemma processors_NoDup (xr glc ref : bool) (env : DetectEnv) (evs : list Event) :
  NoDup (processors (provider (fst (run evs (construct xr glc ref env))))).
Proof.
  assert (H0 : NoDup (processors (provider (construct xr glc ref env)))).
  { unfold construct. destruct (_detectAndInitializeApi _ _) as [[s es] pc] eqn:E.
    rewrite absorb_processors. cbn.
    revert E. unfold_provider. split_cases; intros E; simplify_eq; cbn;
      apply NoDup_nil_2. }
  revert H0. generalize (construct xr glc ref env).
  induction evs as [|ev evs IH]; intros y Hy; [exact Hy|].
  cbn [run]. pose proof (step_processors ev y) as Hs. cbv zeta in Hs.
  destruct (step ev y) as [y1 e1]. cbn [fst] in Hs.
  specialize (IH y1). destruct (run evs y1) as [y2 e2]. cbn [fst] in *.
  apply IH. destruct Hs as [E|[[p E]|[[p E]|E]]]; rewrite E.
  - exact Hy.
  - apply set_add_NoDup, Hy.
  - apply NoDup_filter, Hy.
  - apply NoDup_nil_2.
Qed.

Lemma registerProcessor_again (p : Processor) (y : System) :
  consistent y -> hasProcessImage p = true -> p ∈ processors (provider y) ->
  step (RegisterProcessor p) y = (y, []).
Proof.
  intros (Hc & _) Hp Hin. cbn [step]. unfold perform, registerProcessor.
  rewrite Hp. cbn [negb]. unfold set_add. rewrite (bool_decide_eq_true_2 _ Hin).
  assert (E : set_processors (processors (provider y)) (provider y) = provider y)
    by (destruct y as [[]]; reflexivity).
  rewrite E. destruct (captureHelper (provider y)) eqn:Hh.
  - assert (Hcap : isCapturing (provider y) = true).
    { apply Hc. split; [|congruence]. intros E'. rewrite E' in Hin. inversion Hin. }
    rewrite Hcap. cbn. unfold set_provider. now rewrite System_eta.
  - cbn. unfold set_provider. now rewrite System_eta.
Qed.

Lemma registerProcessor_member (p : Processor) (y : System) :
  hasProcessImage p = true ->
  p ∈ processors (provider (fst (step (RegisterProcessor p) y))).
Proof.
  intros Hp.
  assert (Hin : p ∈ set_add p (processors (provider y))).
  { unfold set_add. destruct (bool_decide_reflect (p ∈ processors (provider y)));
      [assumption|]. apply elem_of_app. right. left. }
  destruct y as [[xr g ref api h ps cap busy] env pc n a rs].
  cbn in Hin. unfold_provider. rewrite Hp. split_cases; exact Hin.
Qed.

Lemma registerProcessor_helper (p : Processor) (y : System) :
  captureHelper (provider (fst (step (RegisterProcessor p) y)))
  = captureHelper (provider y).
Proof.
  destruct y as [[xr g ref api h ps cap busy] env pc n a rs].
  unfold_provider. split_cases; reflexivity.
Qed.

Lemma unregisterProcessor_again (p : Processor) (y : System) :
  consistent y -> p ∉ processors (provider y) ->
  step (UnregisterProcessor p) y = (y, []).
Proof.
  intros (Hc & _) Hin. cbn [step]. unfold perform, unregisterProcessor.
  assert (E : set_delete p (processors (provider y)) = processors (provider y)).
    by (apply set_delete_not_in, Hin).
  rewrite E.
  assert (E' : set_processors (processors (provider y)) (provider y) = provider y)
    by (destruct y as [[]]; reflexivity).
  rewrite E'.
  destruct (isCapturing (provider y)) eqn:Hcap; cbn.
  - destruct (processors (provider y)) eqn:Hps; cbn.
    + exfalso. destruct (proj1 Hc eq_refl) as [Hne _]. now apply Hne.
    + unfold set_provider. now rewrite System_eta.
  - unfold set_provider. now rewrite System_eta.
Qed.

Lemma unregisterProcessor_not_member (p : Processor) (y : System) :
  p ∉ processors (provider (fst (step (UnregisterProcessor p) y))).
Proof.
  assert (Hin : p ∉ set_delete p (processors (provider y))).
  { unfold set_delete. rewrite list_elem_of_filter. tauto. }
  destruct y as [[xr g ref api h ps cap busy] env pc n a rs].
  cbn in Hin. unfold step, perform, unregisterProcessor, _stopCaptureLoop,
    hasStopStreaming, set_provider, set_processors, set_isCapturing.
  cbn -[set_delete]. split_cases; exact Hin.
Qed.

(** C3: in every state a constructed provider reaches through
    registrations, unregistrations, the steps of the capability detection,
    frames, ticks and settling promises (anything but [destroy]), the
    capturing flag is set exactly when a processor is registered and a
    capture helper is active; registering the first processor with a helper
    active sets the flag, unregistering the last one clears it and calls the
    helper's [stopStreaming] while the helper stays, and registering or
    unregistering the same processor again changes nothing. *)
Theorem capturing_iff_processor_and_source
    (xr glc ref : bool) (env : DetectEnv) (evs : list Event) :
  forallb (fun ev => negb (isDestroy ev)) evs = true ->
  let y := fst (run evs (construct xr glc ref env)) in
  (isCapturing (provider y) = true <->
     processors (provider y) <> [] /\ captureHelper (provider y) <> None)
  /\ (forall p, hasProcessImage p = true ->
        processors (provider y) = [] -> captureHelper (provider y) <> None ->
        isCapturing (provider y) = false
        /\ isCapturing (provider (fst (step (RegisterProcessor p) y))) = true)
  /\ (forall p h, processors (provider y) = [p] ->
        captureHelper (provider y) = Some h ->
        isCapturing (provider y) = true
        /\ isCapturing (provider (fst (step (UnregisterProcessor p) y))) = false
        /\ snd (step (UnregisterProcessor p) y) = [StopStreaming h]
        /\ captureHelper (provider (fst (step (UnregisterProcessor p) y))) = Some h)
  /\ (forall p, hasProcessImage p = true ->
        step (RegisterProcessor p) (fst (step (RegisterProcessor p) y))
        = (fst (step (RegisterProcessor p) y), []))
  /\ (forall p,
        step (UnregisterProcessor p) (fst (step (UnregisterProcessor p) y))
        = (fst (step (UnregisterProcessor p) y), [])).
Proof.
  intros Hevs y.
  assert (Hy : consistent y) by (apply run_consistent, construct_consistent; exact Hevs).
  clearbody y. split; [exact (proj1 Hy)|]. split; [|split; [|split]].
  - intros p Hp Hps Hh.
    assert (H1 : consistent (fst (step (RegisterProcessor p) y)))
      by (apply step_consistent; [reflexivity|exact Hy]).
    split.
    + destruct (isCapturing (provider y)) eqn:Hcap; [|reflexivity].
      apply (proj1 Hy) in Hcap. tauto.
    + apply (proj1 H1). split.
      * intros E. pose proof (registerProcessor_member p y Hp) as Hin.
        rewrite E in Hin. inversion Hin.
      * now rewrite registerProcessor_helper.
  - intros p h Hps Hh.
    assert (Hcap : isCapturing (provider y) = true).
    { apply (proj1 Hy). rewrite Hps, Hh. split; discriminate. }
    destruct y as [[xr' g ref' api h' ps cap busy] env' pc n a rs].
    cbn in Hps, Hh, Hcap. subst ps h' cap.
    assert (E : set_delete p [p] = []) by (apply set_delete_head; inversion 1).
    unfold step, perform, unregisterProcessor, _stopCaptureLoop,
      hasStopStreaming, set_provider, set_processors, set_isCapturing.
    cbn -[set_delete]. rewrite E. cbn. auto.
  - intros p Hp. apply registerProcessor_again; [|exact Hp|].
    + apply step_consistent; [reflexivity|exact Hy].
    + apply registerProcessor_member, Hp.
  - intros p. apply unregisterProcessor_again.
    + apply step_consistent; [reflexivity|exact Hy].
    + apply unregisterProcessor_not_member.
Qed.

Lemma capturing_iff_processor_and_source_witness :
  let evs := [InitSettled InitTrue; RegisterProcessor Samples.detector] in
  let y := fst (run evs Samples.fresh) in
  forallb (fun ev => negb (isDestroy ev)) evs = true
  /\ (isCapturing (provider y) = true <->
       processors (provider y) <> [] /\ captureHelper (provider y) <> None)
  /\ isCapturing (provider y) = true.
Proof.
  intros evs y. split; [reflexivity|]. split.
  - exact (proj1 (capturing_iff_processor_and_source
                    false false false Samples.userMediaOnly evs eq_refl)).
  - reflexivity.
Defined.

(** *** The capability detection *)

Lemma settleInits_ext (fuel : nat) (f g : CaptureHelper -> bool) (y : System) :
  (forall h, f h = g h) -> settleInits fuel f y = settleInits fuel g y.
Proof.
  intros H. revert y. induction fuel as [|fuel IH]; intros y; [reflexivity|].
  cbn [settleInits]. destruct (candidate (detectPC y)) as [h|]; [|reflexivity].
  rewrite H. destruct (step _ y) as [y1 e1]. now rewrite IH.
Qed.

Lemma detection_table (xr glc ref e1 e2 e3 e4 r1 r2 r3 r4 : bool) :
  let env := {| webARViewerSupported := e1; webXRRawSupported := e2;
                headsetDetected := e3; getUserMediaSupported := e4 |} in
  let y := fst (settleInits 4 (tabulate r1 r2 r3 r4) (construct xr glc ref env)) in
  detectPC y = DetectDone
  /\ captureHelper (provider y)
     = head (List.filter (fun h => eligible xr glc ref env h && tabulate r1 r2 r3 r4 h)
                         candidates)
  /\ activeApiName (provider y) = apiName <$> captureHelper (provider y).
Proof.
  destruct xr, glc, ref, e1, e2, e3, e4, r1, r2, r3, r4; vm_compute; auto.
Qed.

(** X1: The detection ends after at most four awaits, and the helper it ends
    with is the first one, in the order WebARViewer, WebXR raw camera,
    user media in headset mode, user media, that passes its support tests
    and whose [init] resolves to [true]; [activeApiName] is its name.  When
    there is none, no helper is active. *)
Theorem detection_picks_first_working_candidate
    (xr glc ref : bool) (env : DetectEnv) (inits : CaptureHelper -> bool) :
  let y := fst (settleInits 4 inits (construct xr glc ref env)) in
  detectPC y = DetectDone
  /\ captureHelper (provider y)
     = head (List.filter (fun h => eligible xr glc ref env h && inits h) candidates)
  /\ activeApiName (provider y) = apiName <$> captureHelper (provider y).
Proof.
  set (t := tabulate (inits WebARViewerCaptureHelper) (inits WebXRRawCameraCaptureHelper)
                     (inits (GetUserMediaCaptureHelper true))
                     (inits (GetUserMediaCaptureHelper false))).
  assert (Ht : forall h, inits h = t h) by (intros [| |[|]]; reflexivity).
  rewrite (settleInits_ext 4 inits t _ Ht).
  assert (Hf : List.filter (fun h => eligible xr glc ref env h && inits h) candidates
               = List.filter (fun h => eligible xr glc ref env h && t h) candidates).
  { apply List.filter_ext. intros h. now rewrite Ht. }
  rewrite Hf. destruct env as [e1 e2 e3 e4]. apply detection_table.
Qed.

Lemma absorb_detectPC (es : list Effect) (z : System) :
  detectPC (fold_left absorb es z) = detectPC z.
Proof.
  revert z. induction es as [|e es IH]; intros z; [reflexivity|].
  cbn [fold_left]. rewrite IH. destruct e; reflexivity.
Qed.

Lemma step_awaitsLeft (ev : Event) (y : System) :
  awaitsLeft (detectPC (fst (step ev y)))
  + (if isInitSettled ev then 1 else 0)
  <= Nat.max 1 (awaitsLeft (detectPC y))
  /\ awaitsLeft (detectPC (fst (step ev y))) <= awaitsLeft (detectPC y).
Proof.
  destruct ev; cbn [step isInitSettled].
  - unfold perform. destruct (registerProcessor p _) as [s es].
    cbn [fst]. rewrite absorb_detectPC. cbn. lia.
  - unfold perform. destruct (unregisterProcessor p _) as [s es].
    cbn [fst]. rewrite absorb_detectPC. cbn. lia.
  - destruct (detect_resume _ _ _ _) as [[s es] pc'] eqn:E.
    cbn [fst]. rewrite absorb_detectPC. cbn [detectPC].
    destruct y as [[xr g ref api h ps cap busy] [e1 e2 e3 e4] pc n a rs].
    revert E. unfold_provider. split_cases; intros E; simplify_eq; cbn; lia.
  - unfold perform. destruct (distributeFrameData fd _) as [s es].
    cbn [fst]. rewrite absorb_detectPC. cbn. lia.
  - destruct (pendingXRCallbacks y); [cbn; lia|].
    destruct (_onXRFrame_begin _) as [[s es] aw].
    cbn [fst]. rewrite absorb_detectPC. cbn. lia.
  - destruct (awaitingFrameData y); [cbn; lia|].
    unfold perform. destruct (_onXRFrame_resume r _) as [s es].
    cbn [fst]. rewrite absorb_detectPC. cbn. lia.
  - unfold settle. destruct (rounds y !! round) as [pending|]; [|cbn; lia].
    destruct (bool_decide (p ∈ pending)); cbn; lia.
  - unfold perform. destruct (destroy _) as [s es].
    cbn [fst]. rewrite absorb_detectPC. cbn. lia.
Qed.

Lemma run_awaitsLeft (evs : list Event) (y : System) :
  awaitsLeft (detectPC (fst (run evs y))) + length (List.filter isInitSettled evs)
  <= Nat.max (length (List.filter isInitSettled evs)) (awaitsLeft (detectPC y)).
Proof.
  revert y. induction evs as [|ev evs IH]; intros y; cbn [run]; [cbn; lia|].
  pose proof (step_awaitsLeft ev y) as [H1 H2].
  destruct (step ev y) as [y1 e1]. specialize (IH y1).
  destruct (run evs y1) as [y2 e2]. cbn [fst] in *.
  cbn [List.filter]. destruct (isInitSettled ev); cbn [length]; lia.
Qed.

Lemma construct_awaitsLeft (xr glc ref : bool) (env : DetectEnv) :
  awaitsLeft (detectPC (construct xr glc ref env)) <= 4.
Proof. destruct (detectPC _); cbn; lia. Qed.

(** X2: However the events interleave and whatever the awaited [init] calls
    give (throwing included), the detection is over once four of them have
    settled; by then every later settlement is ignored. *)
Theorem detection_ends_within_four_inits
    (xr glc ref : bool) (env : DetectEnv) (evs : list Event) :
  4 <= length (List.filter isInitSettled evs) ->
  detectPC (fst (run evs (construct xr glc ref env))) = DetectDone.
Proof.
  intros H. pose proof (run_awaitsLeft evs (construct xr glc ref env)) as H1.
  pose proof (construct_awaitsLeft xr glc ref env) as H2.
  destruct (detectPC (fst (run evs _))); cbn in H1; try lia. reflexivity.
Qed.

Lemma detection_ends_within_four_inits_witness :
  detectPC (fst (run [InitSettled InitFalse; RegisterProcessor Samples.detector;
                      InitSettled InitThrows; InitSettled InitFalse;
                      InitSettled InitFalse]
                     (construct true true true Samples.everything)))
  = DetectDone.
Proof. apply detection_ends_within_four_inits. cbn. lia. Defined.

(** *** The active helper *)

Lemma absorb_helper (es : list Effect) (z : System) :
  captureHelper (provider (fold_left absorb es z)) = captureHelper (provider z)
  /\ activeApiName (provider (fold_left absorb es z)) = activeApiName (provider z)
  /\ isCapturing (provider (fold_left absorb es z)) = isCapturing (provider z).
Proof.
  revert z. induction es as [|e es IH]; intros z; [auto|].
  cbn [fold_left]. destruct (IH (absorb z e)) as (-> & -> & ->).
  destruct e; auto. cbn. destruct ps; auto.
Qed.

Lemma helperCall_ProcessImage (h : CaptureHelper) (ps qs : list Processor)
    (i : CaptureImageData) (m : CaptureMetadata) (b : bool) :
  fold_left (helperCall h) (map (fun p => ProcessImage p i m) ps ++ [PromiseAllFinally qs]) b
  = b.
Proof.
  rewrite fold_left_app. cbn. induction ps as [|p ps IH]; [reflexivity|exact IH].
Qed.

Ltac fin_flags Hst :=
  let h := fresh "h" in
  intros h; rewrite Hst;
  repeat (case_bool_decide; simplify_eq/=; try reflexivity; try congruence);
  repeat match goal with
         | H : usesXRFrame _ = _ |- _ => rewrite H
         end;
  rewrite ?andb_false_r, ?andb_true_r; cbn; try reflexivity; try congruence.

(** What a step does to the helper, its name, and the streaming flags. *)
Lemma step_helper (ev : Event) (y : System) (st : CaptureHelper -> bool) :
  isDestroy ev = false -> consistent y -> named y ->
  (forall h, st h = if bool_decide (captureHelper (provider y) = Some h)
                    then isCapturing (provider y) && negb (usesXRFrame h)
                    else false) ->
  let y' := fst (step ev y) in
  let st' := fun h => fold_left (helperCall h) (snd (step ev y)) (st h) in
  named y'
  /\ (forall h, captureHelper (provider y) = Some h ->
                captureHelper (provider y') = Some h)
  /\ (forall h, st' h = if bool_decide (captureHelper (provider y') = Some h)
                        then isCapturing (provider y') && negb (usesXRFrame h)
                        else false).
Proof.
  intros Hd Hy Hn Hst. cbv zeta. unfold named in *.
  destruct ev; try discriminate Hd; clear Hd.
  - destruct y as [[xr g ref api h ps cap busy] env pc n a rs].
    cbn in Hn, Hst. subst api.
    unfold_provider; split_cases; split_and!; auto;
      fin_flags Hst; finish_consistent.
  - destruct y as [[xr g ref api h ps cap busy] env pc n a rs].
    cbn in Hn, Hst. subst api.
    unfold step, perform, unregisterProcessor, _stopCaptureLoop,
      hasStopStreaming, set_provider, set_processors, set_isCapturing.
    cbn -[set_delete]. split_cases; split_and!; auto;
      fin_flags Hst.
  - destruct y as [[xr g ref api h ps cap busy] env pc n a rs].
    cbn in Hn, Hst. subst api.
    destruct Hy as (Hc & Hx & Hpc & Hp & Hw). cbn in Hc, Hx, Hpc, Hp, Hw.
    destruct h as [h|].
    + assert (pc = DetectDone).
      { destruct pc; try reflexivity; exfalso;
          (assert (Some h = None) by (apply Hpc; discriminate)); discriminate. }
      subst pc. cbn. split_and!; auto.
    + assert (Hcap : cap = false).
      { destruct cap; [|reflexivity]. destruct (proj1 Hc eq_refl) as [_ F]. congruence. }
      subst cap.
      unfold_provider; split_cases; split_and!; auto; try discriminate;
        fin_flags Hst.
  - destruct (bool_dec (isCapturing (provider y)) false) as [Hcap|Hcap];
      [rewrite distributeFrameData_gate by auto; cbn [fst snd fold_left]; auto|].
    destruct (decide (processors (provider y) = [])) as [Hps|Hps];
      [rewrite distributeFrameData_gate by auto; cbn [fst snd fold_left]; auto|].
    destruct (bool_dec (isPipelineBusy (provider y)) true) as [Hb|Hb];
      [rewrite distributeFrameData_gate by auto; cbn [fst snd fold_left]; auto|].
    destruct (bool_dec (lacksData fd) true) as [Hl|Hl];
      [rewrite distributeFrameData_gate by auto; cbn [fst snd fold_left]; auto|].
    apply not_false_is_true in Hcap. apply not_true_is_false in Hb, Hl.
    destruct fd as [[[i|] [m|]]|]; try discriminate Hl.
    cbn [step]. unfold perform, distributeFrameData. rewrite Hcap, Hb.
    destruct (processors (provider y)) as [|p0 ps0] eqn:Eps; [congruence|].
    cbn [negb length Nat.eqb]. unfold _distributeFrameToProcessors.
    match goal with
    | |- context [fold_left absorb ?es ?z] =>
        destruct (absorb_helper es z) as (E1 & E2 & E3)
    end.
    cbn [fst snd]. rewrite E1, E2, E3. cbn. rewrite Hcap.
    split_and!; auto.
    intros h. rewrite helperCall_ProcessImage, Hst, Hcap. reflexivity.
  - destruct y as [[xr g ref api h ps cap busy] env pc n a rs].
    cbn in Hn, Hst. subst api.
    destruct Hy as (Hc & Hx & Hpc & Hp & Hw). cbn in Hc, Hx, Hpc, Hp, Hw.
    destruct n as [|n]; [cbn; auto|].
    destruct (Hp ltac:(lia)) as (h0 & -> & Hu). pose proof (Hx h0 eq_refl Hu) as ->.
    unfold_provider; cbn; rewrite Hu; split_cases; split_and!; auto;
      fin_flags Hst.
  - cbn [step]. destruct (awaitingFrameData y) as [|k] eqn:Hk; [cbn; auto|].
    unfold perform, _onXRFrame_resume.
    destruct r as [|[fd|]]; cbn -[_distributeFrameToProcessors]; auto.
    unfold _distributeFrameToProcessors.
    destruct (imageData fd) as [i|], (metadata fd) as [m|]; cbn [fst snd]; auto.
    match goal with
    | |- context [fold_left absorb ?es ?z] =>
        destruct (absorb_helper es z) as (-> & -> & ->)
    end.
    cbn. split_and!; auto. intros h. now rewrite helperCall_ProcessImage.
  - cbn [step]. unfold settle.
    destruct (rounds y !! round) as [pending|]; [|cbn; auto].
    destruct (bool_decide (p ∈ pending)); [|cbn; auto]. cbn [fst snd].
    assert (E : captureHelper (provider y) = captureHelper (provider y)
                /\ True) by auto.
    destruct (set_delete p pending); cbn; split_and!; auto;
      intros h; rewrite Hst; destruct o; reflexivity.
Qed.

Lemma run_helper (evs : list Event) (y : System) (st : CaptureHelper -> bool) :
  forallb (fun ev => negb (isDestroy ev)) evs = true ->
  consistent y -> named y ->
  (forall h, st h = if bool_decide (captureHelper (provider y) = Some h)
                    then isCapturing (provider y) && negb (usesXRFrame h)
                    else false) ->
  let y' := fst (run evs y) in
  named y'
  /\ (forall h, captureHelper (provider y) = Some h ->
                captureHelper (provider y') = Some h)
  /\ (forall h, fold_left (helperCall h) (snd (run evs y)) (st h)
                = if bool_decide (captureHelper (provider y') = Some h)
                  then isCapturing (provider y') && negb (usesXRFrame h)
                  else false).
Proof.
  revert y st. induction evs as [|ev evs IH]; intros y st Hevs Hy Hn Hst; cbv zeta.
  - cbn. auto.
  - cbn in Hevs. apply andb_true_iff in Hevs as [Hev Hevs].
    apply negb_true_iff in Hev.
    destruct (step_helper ev y st Hev Hy Hn Hst) as (H1 & H2 & H3).
    pose proof (step_consistent ev y Hev Hy) as Hy1.
    cbn [run]. destruct (step ev y) as [y1 e1]. cbn [fst snd] in *.
    specialize (IH y1 _ Hevs Hy1 H1 H3). cbv zeta in IH.
    destruct (run evs y1) as [y2 e2]. cbn [fst snd] in *.
    destruct IH as (I1 & I2 & I3). split_and!; auto.
    intros h. rewrite fold_left_app. apply I3.
Qed.

Lemma construct_named (xr glc ref : bool) (env : DetectEnv) :
  named (construct xr glc ref env)
  /\ captureHelper (provider (construct xr glc ref env)) = None.
Proof.
  unfold named, construct. destruct env as [e1 e2 e3 e4].
  destruct xr, glc, ref, e1, e2, e3, e4; vm_compute; auto.
Qed.

(** X3: Once the detection has made a helper the active one, it stays the
    active one, under the same name, through every event but [destroy]. *)
Theorem helper_is_kept_until_destroy
    (xr glc ref : bool) (env : DetectEnv) (evs evs' : list Event) (h : CaptureHelper) :
  forallb (fun ev => negb (isDestroy ev)) (evs ++ evs') = true ->
  let y := fst (run evs (construct xr glc ref env)) in
  let y' := fst (run evs' y) in
  captureHelper (provider y) = Some h ->
  captureHelper (provider y') = Some h
  /\ activeApiName (provider y') = Some (apiName h).
Proof.
  intros Hevs y y' Hh. rewrite forallb_app in Hevs.
  apply andb_true_iff in Hevs as [Hevs Hevs'].
  destruct (construct_named xr glc ref env) as [Hn0 Hh0].
  assert (Hst0 : forall h : CaptureHelper,
             false = if bool_decide (captureHelper (provider (construct xr glc ref env)) = Some h)
                     then isCapturing (provider (construct xr glc ref env))
                          && negb (usesXRFrame h)
                     else false).
  { intros h0. rewrite Hh0. reflexivity. }
  destruct (run_helper evs _ (fun _ => false) Hevs (construct_consistent _ _ _ _)
              Hn0 Hst0) as (Hn & _ & Hst).
  pose proof (run_consistent evs _ Hevs (construct_consistent xr glc ref env)) as Hy.
  fold y in Hn, Hst, Hy.
  destruct (run_helper evs' y _ Hevs' Hy Hn Hst) as (Hn' & Hk & _).
  fold y' in Hn', Hk. split; [apply Hk, Hh|].
  unfold named in Hn'. rewrite Hn', (Hk h Hh). reflexivity.
Qed.

Lemma helper_is_kept_until_destroy_witness :
  let y := fst (run [InitSettled InitTrue] Samples.fresh) in
  let y' := fst (run [RegisterProcessor Samples.detector; PushFrame (Some Samples.frame0);
                      UnregisterProcessor Samples.detector; InitSettled InitFalse] y) in
  captureHelper (provider y') = Some (GetUserMediaCaptureHelper false)
  /\ activeApiName (provider y') = Some "webar-gum".
Proof.
  apply (helper_is_kept_until_destroy false false false Samples.userMediaOnly
           [InitSettled InitTrue]); reflexivity.
Defined.

(** X4: Through every event but [destroy], the active helper's [isStreaming]
    flag is set exactly while the provider is capturing when the helper
    pushes its frames; a helper driven by the XR frame loop is never told
    to start streaming, and a helper that is not the active one is not
    streaming. *)
Theorem helper_streams_iff_capturing
    (xr glc ref : bool) (env : DetectEnv) (evs : list Event) (h : CaptureHelper) :
  forallb (fun ev => negb (isDestroy ev)) evs = true ->
  let y := fst (run evs (construct xr glc ref env)) in
  isStreaming h (snd (run evs (construct xr glc ref env)))
  = if bool_decide (captureHelper (provider y) = Some h)
    then isCapturing (provider y) && negb (usesXRFrame h)
    else false.
Proof.
  intros Hevs y.
  destruct (construct_named xr glc ref env) as [Hn0 Hh0].
  assert (Hst0 : forall h : CaptureHelper,
             false = if bool_decide (captureHelper (provider (construct xr glc ref env)) = Some h)
                     then isCapturing (provider (construct xr glc ref env))
                          && negb (usesXRFrame h)
                     else false).
  { intros h0. rewrite Hh0. reflexivity. }
  destruct (run_helper evs _ (fun _ => false) Hevs (construct_consistent _ _ _ _)
              Hn0 Hst0) as (_ & _ & Hst).
  apply Hst.
Qed.

Lemma helper_streams_iff_capturing_witness :
  isStreaming (GetUserMediaCaptureHelper false)
    (snd (run [InitSettled InitTrue; RegisterProcessor Samples.detector;
               RegisterProcessor Samples.locator;
               UnregisterProcessor Samples.detector] Samples.fresh))
  = true.
Proof.
  apply (helper_streams_iff_capturing false false false Samples.userMediaOnly
           [InitSettled InitTrue; RegisterProcessor Samples.detector;
            RegisterProcessor Samples.locator;
            UnregisterProcessor Samples.detector]).
  reflexivity.
Defined.

(** *** After [destroy], and the XR frame loop *)

Lemma step_after_destroy (ev : Event) (y : System) :
  destroyed y ->
  destroyed (fst (step ev y))
  /\ List.filter isAction (snd (step ev y)) = [].
Proof.
  intros (Hh & Hc & Hpc & Ha).
  destruct y as [[xr g ref api h ps cap busy] env pc n a rs].
  cbn in Hh, Hc, Hpc, Ha. subst h cap pc a. unfold destroyed.
  destruct ev; unfold_provider; split_cases; split_and!; auto.
Qed.

(** X5: Once the detection is over and no [getFrameData] call is awaited,
    [destroy] is final: afterwards the provider never captures, has no
    helper, and does nothing but log - it starts no stream, requests no
    animation frame and calls no processor - whatever is registered,
    pushed or settled later. *)
Theorem destroy_is_final (y : System) (evs : list Event) :
  detectPC y = DetectDone -> awaitingFrameData y = 0 ->
  let y' := fst (run evs (fst (step Destroy y))) in
  isCapturing (provider y') = false
  /\ captureHelper (provider y') = None
  /\ List.filter isAction (snd (run evs (fst (step Destroy y)))) = [].
Proof.
  intros Hpc Ha.
  assert (H0 : destroyed (fst (step Destroy y))).
  { destruct y as [[xr g ref api h ps cap busy] env pc n a rs].
    cbn in Hpc, Ha. subst pc a. unfold destroyed.
    unfold_provider; split_cases; split_and!; auto; now destruct cap. }
  generalize dependent (fst (step Destroy y)). intros y0 H0. cbv zeta.
  revert y0 H0. induction evs as [|ev evs IH]; intros y0 H0; cbn [run].
  - destruct H0 as (? & ? & _). auto.
  - destruct (step_after_destroy ev y0 H0) as [H1 H2].
    destruct (step ev y0) as [y1 e1]. specialize (IH y1 H1).
    destruct (run evs y1) as [y2 e2]. cbn [fst snd] in *.
    rewrite List.filter_app, H2. exact IH.
Qed.

Lemma destroy_is_final_witness :
  let y' := fst (run [RegisterProcessor Samples.detector; PushFrame (Some Samples.frame0);
                      XRFrameTick; Destroy]
                     (fst (step Destroy Samples.streaming))) in
  isCapturing (provider y') = false /\ captureHelper (provider y') = None.
Proof.
  destruct (destroy_is_final Samples.streaming
              [RegisterProcessor Samples.detector; PushFrame (Some Samples.frame0);
               XRFrameTick; Destroy] eq_refl eq_refl) as (H1 & H2 & _).
  split; [exact H1|exact H2].
Defined.

(** X6: A requested [_onXRFrame] that runs while the provider is capturing
    requests exactly one further animation frame, so the loop goes on; one
    that runs after capturing stopped requests none, so the loop ends. *)
Theorem xr_loop_runs_while_capturing
    (xr glc ref : bool) (env : DetectEnv) (evs : list Event) :
  forallb (fun ev => negb (isDestroy ev)) evs = true ->
  let y := fst (run evs (construct xr glc ref env)) in
  0 < pendingXRCallbacks y ->
  let y' := fst (step XRFrameTick y) in
  let es := snd (step XRFrameTick y) in
  isCapturing (provider y') = isCapturing (provider y)
  /\ if isCapturing (provider y)
     then es = [RequestXRAnimationFrame]
          /\ pendingXRCallbacks y' = pendingXRCallbacks y
     else es = [] /\ S (pendingXRCallbacks y') = pendingXRCallbacks y.
Proof.
  intros Hevs y Hn.
  assert (Hy : consistent y) by (apply run_consistent, construct_consistent; exact Hevs).
  clearbody y. destruct y as [[xr' g ref' api h ps cap busy] env' pc n a rs].
  destruct Hy as (Hc & Hx & Hpc & Hp & Hw). cbn in Hc, Hx, Hpc, Hp, Hw, Hn.
  destruct n as [|n]; [lia|].
  destruct (Hp ltac:(lia)) as (h0 & -> & Hu). pose proof (Hx h0 eq_refl Hu) as ->.
  cbv zeta. unfold_provider. cbn. rewrite Hu. split_cases; auto.
Qed.

Lemma xr_loop_runs_while_capturing_witness :
  let y := fst (run [InitSettled InitTrue; RegisterProcessor Samples.detector]
                    (construct true true true Samples.rawCameraOnly)) in
  snd (step XRFrameTick y) = [RequestXRAnimationFrame]
  /\ pendingXRCallbacks (fst (step XRFrameTick y)) = 1.
Proof.
  intros y.
  destruct (xr_loop_runs_while_capturing true true true Samples.rawCameraOnly
              [InitSettled InitTrue; RegisterProcessor Samples.detector] eq_refl)
    as [_ H].
  - vm_compute. lia.
  - exact H.
Defined.

(** *** Rounds started by pushed frames *)

Lemma unsettled_insert (l : list (list Processor)) (i : nat)
    (r r' : list Processor) :
  l !! i = Some r -> r <> [] -> length (List.filter isUnsettled l) <= 1 ->
  List.filter isUnsettled l = [r]
  /\ List.filter isUnsettled (<[i := r']> l) = List.filter isUnsettled [r'].
Proof.
  intros Hi Hr. assert (Hu : isUnsettled r = true) by (destruct r; [congruence|reflexivity]).
  revert i Hi. induction l as [|a l IH]; intros i Hi Hlen; [discriminate|].
  destruct i as [|i]; cbn in Hi.
  - injection Hi as ->. cbn [List.filter] in *. rewrite Hu in *. cbn in Hlen.
    destruct (List.filter isUnsettled l) eqn:E; [|cbn in Hlen; lia].
    split; [reflexivity|]. cbn. rewrite E. now destruct (isUnsettled r').
  - cbn [List.filter] in *. destruct (isUnsettled a) eqn:Ea.
    + exfalso. cbn in Hlen.
      assert (Hin : In r (List.filter isUnsettled l)).
      { apply filter_In. split; [|exact Hu]. apply list_elem_of_In.
        eapply list_elem_of_lookup_2, Hi. }
      destruct (List.filter isUnsettled l); [exact Hin|cbn in Hlen; lia].
    + cbn. rewrite Ea. apply IH; assumption.
Qed.

Lemma step_one_round (ev : Event) (y : System) :
  isDestroy ev = false -> isFrameDataSettled ev = false ->
  one_round y -> one_round (fst (step ev y)).
Proof.
  intros Hd Hf [Hlen Hbusy]. unfold one_round, unsettled in *.
  destruct ev; try discriminate Hd; try discriminate Hf; clear Hd Hf.
  - destruct y as [[xr g ref api h ps cap busy] env pc n a rs].
    cbn in *. unfold_provider; split_cases; auto.
  - destruct y as [[xr g ref api h ps cap busy] env pc n a rs].
    cbn in *. unfold step, perform, unregisterProcessor, _stopCaptureLoop,
      hasStopStreaming, set_provider, set_processors, set_isCapturing.
    cbn -[set_delete]. split_cases; auto.
  - destruct y as [[xr g ref api h ps cap busy] env pc n a rs].
    cbn in *. unfold_provider; split_cases; auto.
  - destruct (bool_dec (isCapturing (provider y)) false) as [Hcap|Hcap];
      [rewrite distributeFrameData_gate by auto; cbn [fst]; auto|].
    destruct (decide (processors (provider y) = [])) as [Hp|Hp];
      [rewrite distributeFrameData_gate by auto; cbn [fst]; auto|].
    destruct (bool_dec (isPipelineBusy (provider y)) true) as [Hb|Hb];
      [rewrite distributeFrameData_gate by auto; cbn [fst]; auto|].
    destruct (bool_dec (lacksData fd) true) as [Hl|Hl];
      [rewrite distributeFrameData_gate by auto; cbn [fst]; auto|].
    apply not_false_is_true in Hcap. apply not_true_is_false in Hb, Hl.
    destruct fd as [[[i|] [m|]]|]; try discriminate Hl.
    cbn [step]. unfold perform, distributeFrameData. rewrite Hcap, Hb.
    assert (Hnone : List.filter isUnsettled (rounds y) = []).
    { destruct (List.filter isUnsettled (rounds y)) eqn:E; [reflexivity|].
      enough (false = true) by discriminate. rewrite <- Hb. apply Hbusy. discriminate. }
    destruct y as [[xr g ref api h ps cap busy] env pc n a rs]. cbn in *.
    destruct ps as [|p0 ps0]; [congruence|].
    cbn [negb length Nat.eqb]. unfold _distributeFrameToProcessors, set_isPipelineBusy.
    cbn [fst processors]. rewrite fold_left_app, absorb_ProcessImage. cbn.
    rewrite List.filter_app, Hnone. cbn. split; [lia|]. split; [discriminate|reflexivity].
  - destruct y as [[xr g ref api h ps cap busy] env pc n a rs].
    cbn in *. unfold_provider; split_cases; auto.
  - cbn [step]. unfold settle.
    destruct (rounds y !! round) as [pending|] eqn:Hr; [|cbn; auto].
    destruct (bool_decide_reflect (p ∈ pending)) as [Hin|Hin]; [|cbn; auto].
    assert (Hne : pending <> []) by (intros ->; inversion Hin).
    destruct (unsettled_insert (rounds y) round pending (set_delete p pending)
                Hr Hne Hlen) as [E1 E2].
    cbn [fst rounds provider]. rewrite E2.
    destruct (set_delete p pending) as [|q qs]; cbn.
    + split; [lia|]. split; [discriminate|congruence].
    + split; [lia|]. split; [discriminate|]. intros _. apply Hbusy.
      rewrite E1. discriminate.
Qed.

Lemma construct_one_round (xr glc ref : bool) (env : DetectEnv) :
  one_round (construct xr glc ref env).
Proof.
  unfold one_round, unsettled, construct. destruct env as [e1 e2 e3 e4].
  destruct xr, glc, ref, e1, e2, e3, e4; cbn; (split; [lia|split; [discriminate|congruence]]).
Qed.

(** X7: As long as no frame comes through the XR frame loop, at most one
    distribution round is unsettled at any time, and [isPipelineBusy] is
    set exactly while there is one: a pushed frame never starts a round
    while another one is going on. *)
Theorem pushed_rounds_never_overlap
    (xr glc ref : bool) (env : DetectEnv) (evs : list Event) :
  forallb (fun ev => negb (isDestroy ev) && negb (isFrameDataSettled ev)) evs = true ->
  let y := fst (run evs (construct xr glc ref env)) in
  length (unsettled y) <= 1
  /\ (isPipelineBusy (provider y) = true <-> unsettled y <> []).
Proof.
  intros Hevs. cbv zeta. fold (one_round (fst (run evs (construct xr glc ref env)))).
  pose proof (construct_one_round xr glc ref env) as H0.
  revert H0. generalize (construct xr glc ref env).
  induction evs as [|ev evs IH]; intros y Hy; [exact Hy|].
  cbn in Hevs. apply andb_true_iff in Hevs as [Hev Hevs].
  apply andb_true_iff in Hev as [Hd Hf]. apply negb_true_iff in Hd, Hf.
  cbn [run]. pose proof (step_one_round ev y Hd Hf Hy) as H1.
  destruct (step ev y) as [y1 e1]. specialize (IH Hevs y1 H1).
  destruct (run evs y1) as [y2 e2]. exact IH.
Qed.

Lemma pushed_rounds_never_overlap_witness :
  let y := fst (run [InitSettled InitTrue; RegisterProcessor Samples.detector;
                     RegisterProcessor Samples.locator;
                     PushFrame (Some Samples.frame0);
                     PromiseSettled 0 Samples.detector Fulfilled;
                     PushFrame (Some Samples.frame0)] Samples.fresh) in
  unsettled y = [[Samples.locator]] /\ isPipelineBusy (provider y) = true.
Proof.
  intros y. split; [reflexivity|].
  apply (pushed_rounds_never_overlap false false false Samples.userMediaOnly
           [InitSettled InitTrue; RegisterProcessor Samples.detector;
            RegisterProcessor Samples.locator;
            PushFrame (Some Samples.frame0);
            PromiseSettled 0 Samples.detector Fulfilled;
            PushFrame (Some Samples.frame0)] eq_refl).
  discriminate.
Defined.

End ProviderProofs.

(** ** Properties of the marker-detection processor *)

Module AprilTagProofs.
Import AprilTagProcessor.

(** *** Division by 1000 keeps the sign and NaN *)

Lemma shr_1_nonneg (mrs : shr_record) :
  (0 <= shr_m mrs)%Z -> (0 <= shr_m (shr_1 mrs))%Z.
Proof.
  destruct mrs as [m r s]. cbn. destruct m as [|[p|p|]|[p|p|]]; cbn; lia.
Qed.

Lemma iter_shr_1_nonneg (p : positive) (mrs : shr_record) :
  (0 <= shr_m mrs)%Z -> (0 <= shr_m (SpecFloat.iter_pos shr_1 p mrs))%Z.
Proof.
  revert mrs. induction p as [p IH|p IH|]; intros mrs H; cbn.
  - apply IH, IH, shr_1_nonneg, H.
  - apply IH, IH, H.
  - apply shr_1_nonneg, H.
Qed.

Lemma shr_fexp_nonneg (m e : Z) (l : location) :
  (0 <= m)%Z -> (0 <= shr_m (fst (shr_fexp prec emax m e l)))%Z.
Proof.
  intros H. unfold shr_fexp, shr.
  assert (H0 : (0 <= shr_m (shr_record_of_loc m l))%Z).
  { destruct l as [|[]]; cbn; exact H. }
  destruct (fexp prec emax (Zdigits2 m + e) - e)%Z; cbn [fst]; auto.
  apply iter_shr_1_nonneg, H0.
Qed.

Lemma round_nearest_even_nonneg (m : Z) (l : location) :
  (0 <= m)%Z -> (0 <= round_nearest_even m l)%Z.
Proof.
  intros H. unfold round_nearest_even. destruct l as [|[]]; try lia.
  destruct (IntDef.Z.even m); lia.
Qed.

Lemma binary_round_aux_sign (s : bool) (m e : Z) (l : location) :
  (0 <= m)%Z ->
  match binary_round_aux prec emax s m e l with
  | S754_zero s' | S754_infinity s' | S754_finite s' _ _ => s' = s
  | S754_nan => False
  end.
Proof.
  intros H. unfold binary_round_aux.
  pose proof (shr_fexp_nonneg m e l H) as H1.
  destruct (shr_fexp prec emax m e l) as [mrs' e']. cbn [fst] in H1.
  pose proof (shr_fexp_nonneg _ e' loc_Exact
                (round_nearest_even_nonneg _ (loc_of_shr_record mrs') H1)) as H2.
  destruct (shr_fexp prec emax _ e' loc_Exact) as [mrs'' e'']. cbn [fst] in H2.
  destruct (shr_m mrs''); try lia; auto.
  destruct (e'' <=? emax - prec)%Z; auto.
Qed.

Lemma div_core_nonneg (m1 m2 : positive) (e1 e2 : Z) :
  (0 <= fst (fst (SFdiv_core_binary prec emax (Z.pos m1) e1 (Z.pos m2) e2)))%Z.
Proof.
  unfold SFdiv_core_binary.
  set (sh := (e1 - e2 - _)%Z).
  set (m' := match sh with
             | 0%Z => Z.pos m1
             | Z.pos _ => Z.shiftl (Z.pos m1) sh
             | Z.neg _ => 0%Z
             end).
  assert (Hm : (0 <= m')%Z).
  { subst m'. destruct sh; try lia. apply Z.shiftl_nonneg. lia. }
  pose proof (Z_div_mod m' (Z.pos m2) ltac:(lia)) as Hd.
  change IntDef.Z.div_eucl with Z.div_eucl.
  destruct (Z.div_eucl m' (Z.pos m2)) as [q r]. cbn [fst].
  destruct Hd as [Hd Hr]. nia.
Qed.

Lemma div_1000_nonpos (f : float) :
  (f <=? 0)%float = true -> (f / 1000 <=? 0)%float = true.
Proof.
  rewrite !leb_spec, div_spec.
  change (Prim2SF 0) with (S754_zero false).
  change (Prim2SF 1000) with (S754_finite false 8796093022208000 (-43)).
  destruct (Prim2SF f) as [s|s| |s m e]; cbn; try discriminate.
  - reflexivity.
  - destruct s; [reflexivity|discriminate].
  - destruct s; [intros _|discriminate].
    unfold SF64div, SFdiv.
    pose proof (div_core_nonneg m 8796093022208000 e (-43)) as Hq.
    destruct (SFdiv_core_binary prec emax (Z.pos m) e (Z.pos 8796093022208000) (-43))
      as [[mz ez] lz]. cbn [fst] in Hq.
    pose proof (binary_round_aux_sign (xorb true false) mz ez lz Hq) as Hs.
    destruct (binary_round_aux prec emax (xorb true false) mz ez lz); cbn in *;
      subst; try reflexivity; contradiction.
Qed.

Lemma div_1000_nan (f : float) :
  is_nan f = true -> is_nan (f / 1000) = true.
Proof.
  unfold is_nan. rewrite !FloatAxioms.eqb_spec, div_spec.
  change (Prim2SF 1000) with (S754_finite false 8796093022208000 (-43)).
  destruct (Prim2SF f) as [s|s| |s m e]; cbn; try discriminate; auto.
  - destruct s; discriminate.
  - unfold SFeqb, SFcompare. rewrite Z.compare_refl.
    rewrite Pos.compare_cont_refl. destruct s; discriminate.
Qed.

Lemma nan_not_zero (f : float) : is_nan f = true -> (f =? 0)%float = false.
Proof.
  unfold is_nan. rewrite !FloatAxioms.eqb_spec.
  destruct (Prim2SF f) as [s|s| |s m e]; cbn; try discriminate; auto.
  - destruct s; discriminate.
  - unfold SFeqb, SFcompare. rewrite Z.compare_refl.
    rewrite Pos.compare_cont_refl. destruct s; discriminate.
Qed.

(** A size that is not a number, is NaN or is at most 0 gives a meter
    value the check rejects. *)
Lemma invalid_size_rejected (v : JsValue) :
  v = JsNotNumeric
  \/ (exists f, v = JsNumber f /\ (is_nan f = true \/ (f <=? 0)%float = true)) ->
  is_nan (parseFloat v / 1000) || (parseFloat v / 1000 <=? 0)%float = true.
Proof.
  intros [->|(f & -> & [Hn|Hle])].
  - reflexivity.
  - cbn. rewrite (nan_not_zero f Hn), (div_1000_nan f Hn). reflexivity.
  - cbn. destruct (f =? 0)%float.
    + reflexivity.
    + rewrite (div_1000_nonpos f Hle). apply orb_true_r.
Qed.

(** *** The known-marker map *)

Lemma replayMarkers_ready (m : list (string * float)) (s : Processor) :
  cvWorker s = true -> cvWorkerReady s = true ->
  replayMarkers m s = (s, map markerMessage m).
Proof.
  intros Hw Hr. induction m as [|[id size] m IH]; [reflexivity|].
  cbn [replayMarkers]. unfold _sendMarkerToWorker at 1. rewrite Hw, Hr. cbn.
  rewrite IH. reflexivity.
Qed.

Lemma filter_absent (id : string) (m : list (string * float)) :
  id ∉ map fst m -> List.filter (isMarkerAdd id) (map markerMessage m) = [].
Proof.
  induction m as [|[k v] m IH]; intros Hid; [reflexivity|].
  cbn in Hid. apply not_elem_of_cons in Hid as [Hk Hm]. cbn.
  destruct (String.eqb_spec k id) as [E|E]; [congruence|]. apply IH, Hm.
Qed.

Lemma map_set_keys (id : string) (v : float) (m : list (string * float)) :
  NoDup (map fst m) -> NoDup (map fst (map_set id v m)).
Proof.
  induction m as [|[k w] m IH]; intros Hnd; cbn.
  - apply NoDup_singleton.
  - destruct (String.eqb_spec k id) as [E|E]; [exact Hnd|].
    cbn in *. apply NoDup_cons in Hnd as [Hk Hm]. apply NoDup_cons. split; [|auto].
    intros Hin. apply Hk. clear -Hin E.
    induction m as [|[k' w'] m IHm]; cbn in *.
    + apply list_elem_of_singleton in Hin. congruence.
    + destruct (String.eqb_spec k' id); cbn in *; [exact Hin|].
      apply elem_of_cons in Hin as [->|Hin]; [left|right; auto].
Qed.

Lemma map_set_replayed_once (id : string) (v : float) (m : list (string * float)) :
  NoDup (map fst m) ->
  List.filter (isMarkerAdd id) (map markerMessage (map_set id v m))
  = [PostMessage (KNOWN_MARKER_ADD id v)].
Proof.
  induction m as [|[k w] m IH]; intros Hnd; cbn.
  - now rewrite String.eqb_refl.
  - cbn in Hnd. apply NoDup_cons in Hnd as [Hk Hm].
    destruct (String.eqb_spec k id) as [E|E]; cbn.
    + subst k. rewrite String.eqb_refl. unfold markerMessage at 1. cbn.
      now rewrite filter_absent.
    + destruct (String.eqb_spec k id); [congruence|]. apply IH, Hm.
Qed.

Lemma map_get_set (id : string) (v : float) (m : list (string * float)) :
  map_get id (map_set id v m) = Some v.
Proof.
  unfold map_get. induction m as [|[k w] m IH]; cbn.
  - now rewrite String.eqb_refl.
  - destruct (String.eqb_spec k id) as [E|E]; cbn.
    + subst k. now rewrite String.eqb_refl.
    + destruct (String.eqb_spec k id); [congruence|]. exact IH.
Qed.

(** C4: [addKnownMarker(id, sizeInMillimeters)] divides the size by 1000;
    a size that is no number, is NaN or is at most 0 is refused with an
    error, the map and the worker untouched; a size whose meter value is
    positive, added while the worker is not ready, is put in the map with
    no message sent, and when [INIT_DONE] arrives exactly one
    [KNOWN_MARKER_ADD] message carries that id, with the size in meters;
    added while the worker is ready, the same single message is sent at
    once. *)
Theorem addKnownMarker_checks_and_replays
    (s : Processor) (id : string) (v : JsValue) :
  let m := (parseFloat v / 1000)%float in
  (v = JsNotNumeric
   \/ (exists f, v = JsNumber f /\ (is_nan f = true \/ (f <=? 0)%float = true)) ->
   addKnownMarker id v s
   = (s, [ConsoleError "Invalid size for marker. Must be positive."]))
  /\ (is_nan m = false -> (m <=? 0)%float = false ->
      cvWorker s = true -> cvWorkerReady s = false ->
      NoDup (map fst (knownMarkers s)) ->
      forall data, type data = INIT_DONE ->
      let '(s1, e1) := addKnownMarker id v s in
      let '(s2, e2) := _handleCvWorkerMessage data s1 in
      e1 = []
      /\ map_get id (knownMarkers s1) = Some m
      /\ cvWorkerReady s2 = true
      /\ List.filter (isMarkerAdd id) e2 = [PostMessage (KNOWN_MARKER_ADD id m)])
  /\ (is_nan m = false -> (m <=? 0)%float = false ->
      cvWorker s = true -> cvWorkerReady s = true ->
      snd (addKnownMarker id v s) = [PostMessage (KNOWN_MARKER_ADD id m)]).
Proof.
  intros m. split; [|split].
  - intros Hv. unfold addKnownMarker. now rewrite (invalid_size_rejected v Hv).
  - intros Hn Hle Hw Hr Hnd data Ht. unfold addKnownMarker. fold m.
    rewrite Hn, Hle. cbn [orb cvWorkerReady]. rewrite Hr.
    unfold _handleCvWorkerMessage. rewrite Ht.
    set (s1 := mkProcessor _ _ _ (map_set id m (knownMarkers s))).
    set (s1' := match grayscalePixels_back data with
                | Some px => _
                | None => s1
                end).
    assert (Hk : knownMarkers s1' = map_set id m (knownMarkers s))
      by (subst s1'; destruct (grayscalePixels_back data); reflexivity).
    assert (Hw' : cvWorker s1' = true)
      by (subst s1'; destruct (grayscalePixels_back data); exact Hw).
    rewrite replayMarkers_ready; [|exact Hw'|reflexivity].
    cbn [cvWorkerReady knownMarkers]. rewrite Hk.
    repeat split.
    + subst s1. cbn. apply map_get_set.
    + apply map_set_replayed_once, Hnd.
  - intros Hn Hle Hw Hr. unfold addKnownMarker, _sendMarkerToWorker. fold m.
    rewrite Hn, Hle. cbn. now rewrite Hr, Hw.
Qed.

Lemma addKnownMarker_checks_and_replays_witness :
  let s := fst construct in
  cvWorker s = true /\ cvWorkerReady s = false
  /\ NoDup (map fst (knownMarkers s))
  /\ addKnownMarker "12" (JsNumber 100) s
     = (mkProcessor true false None [("12", 0.1%float)], [])
  /\ List.filter (isMarkerAdd "12")
       (snd (_handleCvWorkerMessage Samples.initDone
               (fst (addKnownMarker "12" (JsNumber 100) s))))
     = [PostMessage (KNOWN_MARKER_ADD "12" 0.1)]
  /\ addKnownMarker "12" (JsNumber (-5)) s
     = (s, [ConsoleError "Invalid size for marker. Must be positive."]).
Proof.
  intros s.
  assert (Hnd : NoDup (map fst (knownMarkers s))) by (vm_compute; compute_done).
  split; [reflexivity|]. split; [reflexivity|]. split; [exact Hnd|].
  split; [vm_compute; reflexivity|]. split.
  - pose proof (proj1 (proj2 (addKnownMarker_checks_and_replays s "12" (JsNumber 100)))
                  eq_refl eq_refl eq_refl eq_refl Hnd Samples.initDone eq_refl) as H.
    destruct (addKnownMarker "12" (JsNumber 100) s) as [s1 e1].
    cbn [fst]. destruct (_handleCvWorkerMessage Samples.initDone s1) as [s2 e2].
    exact (proj2 (proj2 (proj2 H))).
  - apply (proj1 (addKnownMarker_checks_and_replays s "12" (JsNumber (-5)))).
    right. exists (-5)%float. split; [reflexivity|]. right. reflexivity.
Defined.

(** *** Grayscale conversion *)

Lemma softwareGrayscaleLoop_length (fuel : nat) (buffer : list Z) :
  forall i j gray, length (softwareGrayscaleLoop fuel buffer i j gray) = length gray.
Proof.
  induction fuel as [|fuel IH]; intros i j gray; cbn [softwareGrayscaleLoop canvasCopyLoop]; [reflexivity|].
  destruct (i <? length buffer)%nat; [|reflexivity].
  rewrite IH. apply length_insert.
Qed.

Lemma softwareGrayscaleLoop_below (fuel : nat) (buffer : list Z) :
  forall i j gray k, k < j ->
  softwareGrayscaleLoop fuel buffer i j gray !! k = gray !! k.
Proof.
  induction fuel as [|fuel IH]; intros i j gray k Hk; cbn [softwareGrayscaleLoop canvasCopyLoop]; [reflexivity|].
  destruct (i <? length buffer)%nat; [|reflexivity].
  rewrite IH by lia. apply list_lookup_insert_ne. lia.
Qed.

Lemma softwareGrayscaleLoop_at (fuel : nat) (buffer : list Z) :
  forall i j gray t,
  t < fuel -> i + 4 * t < length buffer -> j + t < length gray ->
  softwareGrayscaleLoop fuel buffer i j gray !! (j + t)
  = Some (ToUint8 (weightedSum buffer (i + 4 * t))).
Proof.
  induction fuel as [|fuel IH]; intros i j gray t Ht Hi Hj; [lia|].
  cbn [softwareGrayscaleLoop].
  assert (Hlt : (i <? length buffer)%nat = true) by (apply Nat.ltb_lt; lia).
  rewrite Hlt. destruct t as [|t].
  - rewrite Nat.add_0_r, Nat.mul_0_r, Nat.add_0_r.
    rewrite softwareGrayscaleLoop_below by lia.
    apply list_lookup_insert_eq. lia.
  - replace (j + S t) with (j + 1 + t) by lia.
    replace (i + 4 * S t) with (i + 4 + 4 * t) by lia.
    apply IH; [lia|lia|]. rewrite length_insert. lia.
Qed.

Lemma _softwareGrayscale_pixel (buffer gray : list Z) (j : nat) :
  4 * j < length buffer -> j < length gray ->
  _softwareGrayscale buffer gray !! j = Some (ToUint8 (weightedSum buffer (4 * j))).
Proof.
  intros Hb Hg. unfold _softwareGrayscale.
  apply (softwareGrayscaleLoop_at (length buffer) buffer 0 0 gray j); lia.
Qed.

Lemma canvasCopyLoop_length (fuel : nat) (data : list Z) :
  forall i j gray, length (canvasCopyLoop fuel data i j gray) = length gray.
Proof.
  induction fuel as [|fuel IH]; intros i j gray; cbn [softwareGrayscaleLoop canvasCopyLoop]; [reflexivity|].
  destruct (i <? length data)%nat; [|reflexivity].
  rewrite IH. apply length_insert.
Qed.

Lemma canvasCopyLoop_below (fuel : nat) (data : list Z) :
  forall i j gray k, k < j ->
  canvasCopyLoop fuel data i j gray !! k = gray !! k.
Proof.
  induction fuel as [|fuel IH]; intros i j gray k Hk; cbn [softwareGrayscaleLoop canvasCopyLoop]; [reflexivity|].
  destruct (i <? length data)%nat; [|reflexivity].
  rewrite IH by lia. apply list_lookup_insert_ne. lia.
Qed.

Lemma canvasCopyLoop_at (fuel : nat) (data : list Z) :
  forall i j gray t,
  t < fuel -> i + 4 * t < length data -> j + t < length gray ->
  canvasCopyLoop fuel data i j gray !! (j + t)
  = Some (ToUint8 (readNumber data (i + 4 * t))).
Proof.
  induction fuel as [|fuel IH]; intros i j gray t Ht Hi Hj; [lia|].
  cbn [canvasCopyLoop].
  assert (Hlt : (i <? length data)%nat = true) by (apply Nat.ltb_lt; lia).
  rewrite Hlt. destruct t as [|t].
  - rewrite Nat.add_0_r, Nat.mul_0_r, Nat.add_0_r.
    rewrite canvasCopyLoop_below by lia.
    apply list_lookup_insert_eq. lia.
  - replace (j + S t) with (j + 1 + t) by lia.
    replace (i + 4 * S t) with (i + 4 + 4 * t) by lia.
    apply IH; [lia|lia|]. rewrite length_insert. lia.
Qed.

(** The buffer [processImage] writes into has one byte per pixel. *)
Lemma fresh_buffer_length (g : option (list Z)) (n : nat) :
  length (match g with
          | Some g => if (length g =? n)%nat then g else replicate n 0%Z
          | None => replicate n 0%Z
          end) = n.
Proof.
  destruct g as [g|]; [|apply length_replicate].
  destruct (Nat.eqb_spec (length g) n); [assumption|apply length_replicate].
Qed.

(** C8, as the code has it: for an RGBA frame the byte posted for pixel
    [j] is the weighted sum 0.299 R + 0.587 G + 0.114 B of that pixel
    converted to an unsigned 8-bit integer, the fraction dropped, when
    the software path runs; the canvas filter is used when the frame has a
    canvas, the software path when it has none or when the canvas calls
    throw and a buffer is there, and nothing is posted when they throw and
    there is no buffer. *)
Theorem processImage_grayscale
    (s : Processor) (img : CaptureImageData) (meta : CaptureMetadata)
    (intrinsics : CameraIntrinsics) :
  cvWorkerReady s = true -> cvWorker s = true ->
  cameraIntrinsics meta = Some intrinsics ->
  format img = "RGBA" ->
  match canvas img, buffer img with
  | Some (CanvasReadback data), _ =>
      exists gray,
        snd (processImage (Some img) meta s)
        = [PostMessage (PROCESS_GSFRAME gray (width img) (height img)
                                        intrinsics (timestamp meta))]
        /\ length gray = width img * height img
        /\ forall j, 4 * j < length data -> j < width img * height img ->
             gray !! j = Some (ToUint8 (readNumber data (4 * j)))
  | Some CanvasThrows, Some buf | None, Some buf =>
      exists gray,
        snd (processImage (Some img) meta s)
        = [PostMessage (PROCESS_GSFRAME gray (width img) (height img)
                                        intrinsics (timestamp meta))]
        /\ length gray = width img * height img
        /\ forall j, 4 * j < length buf -> j < width img * height img ->
             gray !! j = Some (ToUint8 (weightedSum buf (4 * j)))
             /\ (0 <= ToUint8 (weightedSum buf (4 * j)) < 256)%Z
  | Some CanvasThrows, None | None, None =>
      snd (processImage (Some img) meta s) = []
  end.
Proof.
  intros Hr Hw Hi Hf. unfold processImage. rewrite Hr, Hi, Hf, Hw. cbn [negb].
  pose proof (fresh_buffer_length (grayscaleBuffer s) (width img * height img)) as Hlen.
  set (gray0 := match grayscaleBuffer s with
                | Some g => _
                | None => _
                end) in *.
  destruct (canvas img) as [[|data]|], (buffer img) as [buf|]; cbn.
  - eexists. split; [reflexivity|]. split.
    + unfold _softwareGrayscale. now rewrite softwareGrayscaleLoop_length.
    + intros j H1 H2. split.
      * apply _softwareGrayscale_pixel; lia.
      * unfold ToUint8. destruct (Prim2SF _); try lia. apply Z.mod_pos_bound. lia.
  - reflexivity.
  - eexists. split; [reflexivity|]. split.
    + now rewrite canvasCopyLoop_length.
    + intros j H1 H2.
      apply (canvasCopyLoop_at (length data) data 0 0 gray0 j); lia.
  - eexists. split; [reflexivity|]. split.
    + now rewrite canvasCopyLoop_length.
    + intros j H1 H2.
      apply (canvasCopyLoop_at (length data) data 0 0 gray0 j); lia.
  - eexists. split; [reflexivity|]. split.
    + unfold _softwareGrayscale. now rewrite softwareGrayscaleLoop_length.
    + intros j H1 H2. split.
      * apply _softwareGrayscale_pixel; lia.
      * unfold ToUint8. destruct (Prim2SF _); try lia. apply Z.mod_pos_bound. lia.
  - reflexivity.
Qed.

(** C8 with plain equality does not hold, the stored byte is not the
    weighted sum itself: for the pixel
    (1, 0, 0) the sum is 0.299 and the byte stored is 0. *)
Lemma softwareGrayscale_stores_truncated :
  exists v : Z,
    _softwareGrayscale [1; 0; 0; 255]%Z [0%Z] !! 0 = Some v
    /\ byteToNumber v <> weightedSum [1; 0; 0; 255]%Z 0.
Proof.
  exists 0%Z. split; [vm_compute; reflexivity|].
  intros H. apply (f_equal Prim2SF) in H. vm_compute in H. discriminate H.
Qed.

Lemma processImage_grayscale_witness :
  cvWorkerReady Samples.readyDetector = true
  /\ cvWorker Samples.readyDetector = true
  /\ cameraIntrinsics Samples.metadata0 = Some Samples.intrinsics0
  /\ format Samples.image0 = "RGBA"
  /\ exists gray,
      snd (processImage (Some Samples.image0) Samples.metadata0 Samples.readyDetector)
      = [PostMessage (PROCESS_GSFRAME gray 2 1 Samples.intrinsics0 16)]
      /\ gray !! 0 = Some 0%Z /\ gray !! 1 = Some 124%Z.
Proof.
  repeat (split; [reflexivity|]).
  pose proof (processImage_grayscale Samples.readyDetector Samples.image0
                Samples.metadata0 Samples.intrinsics0
                eq_refl eq_refl eq_refl eq_refl) as H.
  cbn [canvas buffer Samples.image0] in H.
  destruct H as (gray & E & _ & Hpix). exists gray. split; [exact E|]. split.
  - exact (proj1 (Hpix 0 ltac:(cbn; lia) ltac:(cbn; lia))).
  - exact (proj1 (Hpix 1 ltac:(cbn; lia) ltac:(cbn; lia))).
Defined.

(** *** The marker table of the worker *)

Lemma map_set_fresh (k : string) (v : float) (m : list (string * float)) :
  k ∉ map fst m -> map_set k v m = m ++ [(k, v)].
Proof.
  induction m as [|[k' v'] m IH]; intros Hk; [reflexivity|].
  cbn in *. apply not_elem_of_cons in Hk as [Hne Hk].
  destruct (String.eqb_spec k' k) as [E|E]; [congruence|]. now rewrite IH.
Qed.

Lemma map_set_same (k : string) (v : float) (m : list (string * float)) :
  NoDup (map fst m) -> (k, v) ∈ m -> map_set k v m = m.
Proof.
  induction m as [|[k' v'] m IH]; intros Hnd Hin; [now apply elem_of_nil in Hin|].
  cbn in *. apply NoDup_cons in Hnd as [Hk' Hnd].
  destruct (String.eqb_spec k' k) as [E|E].
  - subst k'. apply elem_of_cons in Hin as [Hin|Hin]; [congruence|].
    exfalso. apply Hk'. change k with (fst (k, v)). now apply list_elem_of_fmap_2.
  - apply elem_of_cons in Hin as [Hin|Hin]; [congruence|]. now rewrite IH.
Qed.

Lemma map_delete_keys (k : string) (m : list (string * float)) :
  NoDup (map fst m) -> NoDup (map fst (map_delete k m)).
Proof.
  induction m as [|[k' v'] m IH]; intros Hnd; [exact Hnd|].
  cbn in *. apply NoDup_cons in Hnd as [Hk' Hnd].
  assert (Hsub : forall x, x ∈ map fst (map_delete k m) -> x ∈ map fst m).
  { clear. intros x. induction m as [|[k2 v2] m IHm]; cbn; [auto|].
    destruct (negb (String.eqb k2 k)); cbn; rewrite ?elem_of_cons; tauto. }
  destruct (negb (String.eqb k' k)); cbn; [|auto].
  apply NoDup_cons. split; [|auto]. intros H. apply Hk', Hsub, H.
Qed.

Lemma replay_onto_empty (m2 m1 : list (string * float)) :
  NoDup (map fst (m1 ++ m2)) ->
  fold_left receive (map markerMessage m2) m1 = m1 ++ m2.
Proof.
  revert m1. induction m2 as [|[k v] m2 IH]; intros m1 Hnd; cbn.
  - now rewrite app_nil_r.
  - rewrite map_set_fresh.
    + rewrite IH by now rewrite <- app_assoc. now rewrite <- app_assoc.
    + rewrite map_app in Hnd. apply NoDup_app in Hnd as (_ & Hd & _).
      intros Hk. apply (Hd k Hk). cbn. apply elem_of_cons. now left.
Qed.

Lemma replay_onto_same (l m : list (string * float)) :
  NoDup (map fst m) -> (forall kv, kv ∈ l -> kv ∈ m) ->
  fold_left receive (map markerMessage l) m = m.
Proof.
  intros Hnd. induction l as [|[k v] l IH]; intros Hl; [reflexivity|].
  cbn. rewrite map_set_same; [|exact Hnd|apply Hl, elem_of_cons; now left].
  apply IH. intros kv Hkv. apply Hl, elem_of_cons. now right.
Qed.

Lemma processImage_keeps (img : option CaptureImageData) (meta : CaptureMetadata)
    (s : Processor) (table : list (string * float)) :
  cvWorker (fst (processImage img meta s)) = cvWorker s
  /\ cvWorkerReady (fst (processImage img meta s)) = cvWorkerReady s
  /\ knownMarkers (fst (processImage img meta s)) = knownMarkers s
  /\ fold_left receive (snd (processImage img meta s)) table = table.
Proof.
  unfold processImage.
  repeat match goal with
         | |- context [match ?x with _ => _ end] =>
             lazymatch x with
             | context [match _ with _ => _ end] => fail
             | _ => destruct x eqn:?
             end
         | |- context [if ?x then _ else _] =>
             lazymatch x with
             | context [if _ then _ else _] => fail
             | context [match _ with _ => _ end] => fail
             | _ => destruct x eqn:?
             end
         end; cbn; auto.
Qed.

Lemma step_mirrored (ev : Event) (s : Processor) (table : list (string * float)) :
  isDestroy ev = false -> mirrored s table ->
  mirrored (fst (step ev s)) (fold_left receive (snd (step ev s)) table).
Proof.
  intros Hev (Hw & Hnd & Ht).
  destruct ev as [id v|id|data|img meta|]; try discriminate Hev; cbn [step].
  - unfold addKnownMarker.
    destruct (is_nan _ || _); [now split_and!|].
    cbn [cvWorkerReady]. unfold _sendMarkerToWorker. cbn [cvWorker cvWorkerReady].
    rewrite Hw. destruct (cvWorkerReady s) eqn:Hr; cbn; subst table;
      (split_and!; [reflexivity|now apply map_set_keys|reflexivity]).
  - unfold removeKnownMarker. cbn [cvWorker cvWorkerReady]. rewrite Hw.
    destruct (cvWorkerReady s) eqn:Hr; cbn; subst table;
      (split_and!; [reflexivity|now apply map_delete_keys|reflexivity]).
  - unfold _handleCvWorkerMessage.
    set (s1 := match grayscalePixels_back data with
               | Some px => _
               | None => s
               end).
    assert (H1 : cvWorker s1 = cvWorker s /\ cvWorkerReady s1 = cvWorkerReady s
                 /\ knownMarkers s1 = knownMarkers s)
      by (subst s1; destruct (grayscalePixels_back data); auto).
    destruct H1 as (E1 & E2 & E3).
    destruct (type data); cbn [fst snd fold_left receive];
      try (split_and!; [congruence|congruence|rewrite E2, E3; exact Ht]).
    rewrite replayMarkers_ready; [|cbn; congruence|reflexivity].
    cbn [fst snd knownMarkers cvWorker cvWorkerReady]. rewrite E3.
    unfold mirrored. cbn [fst snd knownMarkers cvWorker cvWorkerReady].
    split_and!; [congruence|exact Hnd|].
    destruct (cvWorkerReady s); subst table.
    + apply replay_onto_same; auto.
    + now apply (replay_onto_empty (knownMarkers s) []).
  - destruct (processImage_keeps img meta s table) as (E1 & E2 & E3 & E4).
    split_and!; [congruence|congruence|now rewrite E4, E2, E3].
Qed.

Lemma run_mirrored (evs : list Event) (s : Processor) (table : list (string * float)) :
  forallb (fun ev => negb (isDestroy ev)) evs = true -> mirrored s table ->
  mirrored (fst (run evs s)) (fold_left receive (snd (run evs s)) table).
Proof.
  revert s table. induction evs as [|ev evs IH]; intros s table Hevs Hm; [exact Hm|].
  cbn in Hevs. apply andb_true_iff in Hevs as [Hev Hevs]. apply negb_true_iff in Hev.
  cbn [run]. pose proof (step_mirrored ev s table Hev Hm) as H1.
  destruct (step ev s) as [s1 e1]. cbn [fst snd] in H1.
  specialize (IH s1 _ Hevs H1). destruct (run evs s1) as [s2 e2].
  cbn [fst snd] in *. now rewrite fold_left_app.
Qed.

(** X8: From construction until [destroy], whatever markers were added and
    removed and whenever the worker answered: as long as the worker has
    not answered [INIT_DONE] it has been sent no marker, and once it has,
    a worker that applies the marker messages in order holds exactly the
    entries of [knownMarkers], in the same order. *)
Theorem worker_table_mirrors_knownMarkers (evs : list Event) :
  forallb (fun ev => negb (isDestroy ev)) evs = true ->
  let s := fst (run evs (fst construct)) in
  workerTable (snd (run evs (fst construct)))
  = if cvWorkerReady s then knownMarkers s else [].
Proof.
  intros Hevs s.
  assert (H0 : mirrored (fst construct) []).
  { split_and!; [reflexivity|apply NoDup_nil_2|reflexivity]. }
  destruct (run_mirrored evs (fst construct) [] Hevs H0) as (_ & _ & H).
  exact H.
Qed.

Lemma worker_table_mirrors_knownMarkers_witness :
  workerTable
    (snd (run [AddKnownMarker "7" (JsNumber 150); AddKnownMarker "9" (JsNumber 80);
               RemoveKnownMarker "7"; Message Samples.initDone;
               AddKnownMarker "9" (JsNumber 100)]
              (fst construct)))
  = [("9", 0.1%float)].
Proof.
  apply (worker_table_mirrors_knownMarkers
           [AddKnownMarker "7" (JsNumber 150); AddKnownMarker "9" (JsNumber 80);
            RemoveKnownMarker "7"; Message Samples.initDone;
            AddKnownMarker "9" (JsNumber 100)]).
  reflexivity.
Defined.

(** *** Lookups, frames and [destroy] *)

Lemma map_get_set_ne (k k' : string) (v : float) (m : list (string * float)) :
  k' <> k -> map_get k' (map_set k v m) = map_get k' m.
Proof.
  intros Hne. unfold map_get. induction m as [|[k2 v2] m IH]; cbn.
  - destruct (String.eqb_spec k k'); [congruence|reflexivity].
  - destruct (String.eqb_spec k2 k) as [E|E]; cbn.
    + subst k2. destruct (String.eqb_spec k k'); [congruence|reflexivity].
    + destruct (String.eqb_spec k2 k'); [reflexivity|exact IH].
Qed.

Lemma map_get_delete (k : string) (m : list (string * float)) :
  map_get k (map_delete k m) = None.
Proof.
  unfold map_get, map_delete. induction m as [|[k2 v2] m IH]; cbn; [reflexivity|].
  destruct (String.eqb_spec k2 k) as [E|E]; cbn; [exact IH|].
  destruct (String.eqb_spec k2 k); [congruence|exact IH].
Qed.

Lemma map_get_delete_ne (k k' : string) (m : list (string * float)) :
  k' <> k -> map_get k' (map_delete k m) = map_get k' m.
Proof.
  intros Hne. unfold map_get, map_delete. induction m as [|[k2 v2] m IH]; cbn; [reflexivity|].
  destruct (String.eqb_spec k2 k) as [E|E]; cbn.
  - subst k2. destruct (String.eqb_spec k k'); [congruence|exact IH].
  - destruct (String.eqb_spec k2 k'); [reflexivity|exact IH].
Qed.

(** X9: The size recorded for a marker: [addKnownMarker] with a size whose
    meter value is positive records that value for its id and leaves the
    other ids alone; with any other size it leaves every id alone, so a
    size recorded before stays; [removeKnownMarker] forgets its id and
    leaves the other ids alone. *)
Theorem knownMarkers_lookup_after_add_remove
    (s : Processor) (id id' : string) (v : JsValue) :
  let m := (parseFloat v / 1000)%float in
  let added := knownMarkers (fst (addKnownMarker id v s)) in
  let removed := knownMarkers (fst (removeKnownMarker id s)) in
  (is_nan m || (m <=? 0)%float = false ->
     map_get id added = Some m
     /\ map_get id (knownMarkers (fst (removeKnownMarker id (fst (addKnownMarker id v s)))))
        = None)
  /\ (is_nan m || (m <=? 0)%float = true -> added = knownMarkers s)
  /\ (id' <> id -> map_get id' added = map_get id' (knownMarkers s))
  /\ map_get id removed = None
  /\ (id' <> id -> map_get id' removed = map_get id' (knownMarkers s)).
Proof.
  intros m added removed. subst added removed. unfold addKnownMarker, removeKnownMarker.
  fold m. cbn [cvWorkerReady knownMarkers]. unfold _sendMarkerToWorker.
  split_and!.
  - intros ->. split.
    + destruct (cvWorkerReady s); cbn; [destruct (negb _ || _); cbn|]; apply map_get_set.
    + destruct (cvWorkerReady s); cbn; [destruct (negb _ || _); cbn|];
        destruct (cvWorker s); cbn; apply map_get_delete.
  - now intros ->.
  - intros Hne. destruct (is_nan m || (m <=? 0)%float); [reflexivity|].
    destruct (cvWorkerReady s); cbn; [destruct (negb _ || _); cbn|];
      now apply map_get_set_ne.
  - destruct (cvWorkerReady s); [destruct (cvWorker s)|]; cbn; apply map_get_delete.
  - intros Hne. destruct (cvWorkerReady s); [destruct (cvWorker s)|]; cbn;
      now apply map_get_delete_ne.
Qed.

Lemma knownMarkers_lookup_after_add_remove_witness :
  map_get "7" (knownMarkers (fst (addKnownMarker "7" (JsNumber 150) Samples.readyDetector)))
  = Some 0.15%float
  /\ map_get "7" (knownMarkers (fst (addKnownMarker "7" JsNotNumeric
                    (fst (addKnownMarker "7" (JsNumber 150) Samples.readyDetector)))))
     = Some 0.15%float
  /\ map_get "9" (knownMarkers (fst (addKnownMarker "7" (JsNumber 150) Samples.readyDetector)))
     = None.
Proof.
  split; [|split].
  - apply (knownMarkers_lookup_after_add_remove Samples.readyDetector "7" "7" (JsNumber 150)).
    reflexivity.
  - rewrite (proj1 (proj2 (knownMarkers_lookup_after_add_remove
               (fst (addKnownMarker "7" (JsNumber 150) Samples.readyDetector))
               "7" "7" JsNotNumeric)) eq_refl).
    reflexivity.
  - rewrite (proj1 (proj2 (proj2 (knownMarkers_lookup_after_add_remove
               Samples.readyDetector "7" "9" (JsNumber 150))))); [reflexivity|discriminate].
Defined.

(** X10: [processImage] posts a message only when the worker is ready and the
    frame is RGBA and comes with camera intrinsics; the message is then
    the only effect, it is a [PROCESS_GSFRAME] with the frame's width,
    height, intrinsics and timestamp and one byte per pixel, and the
    processor has handed its buffer over.  Markers and readiness are never
    touched. *)
Theorem processImage_posts_only_usable_frames
    (s : Processor) (img : option CaptureImageData) (meta : CaptureMetadata)
    (msg : WorkerMessage) :
  PostMessage msg ∈ snd (processImage img meta s) ->
  cvWorkerReady s = true
  /\ snd (processImage img meta s) = [PostMessage msg]
  /\ grayscaleBuffer (fst (processImage img meta s)) = None
  /\ knownMarkers (fst (processImage img meta s)) = knownMarkers s
  /\ exists i intrinsics gray,
       img = Some i /\ format i = "RGBA"
       /\ cameraIntrinsics meta = Some intrinsics
       /\ msg = PROCESS_GSFRAME gray (width i) (height i) intrinsics (timestamp meta)
       /\ length gray = width i * height i.
Proof.
  unfold processImage.
  destruct (cvWorkerReady s) eqn:Hr; cbn [negb]; [|intros H; now apply elem_of_nil in H].
  destruct img as [i|]; [|intros H; now apply elem_of_nil in H].
  pose proof (fresh_buffer_length (grayscaleBuffer s) (width i * height i)) as Hlen.
  set (gray0 := match grayscaleBuffer s with
                | Some g => _
                | None => _
                end) in *.
  assert (Hsoft : forall buf, length (_softwareGrayscale buf gray0) = width i * height i).
  { intros buf. unfold _softwareGrayscale. now rewrite softwareGrayscaleLoop_length. }
  assert (Hcanvas : forall data,
             length (canvasCopyLoop (length data) data 0 0 gray0) = width i * height i).
  { intros data. now rewrite canvasCopyLoop_length. }
  destruct (String.eqb_spec (format i) "RGBA") as [Hf|Hf];
    destruct (canvas i) as [[|data]|], (buffer i) as [buf|],
      (cameraIntrinsics meta) as [intr|], (cvWorker s); cbn;
    intros H;
    try (now apply elem_of_nil in H);
    apply list_elem_of_singleton in H; try discriminate H;
    injection H as ->;
    (split_and!; try reflexivity; eexists _, _, _; split_and!; try reflexivity; auto).
Qed.

Lemma processImage_posts_only_usable_frames_witness :
  snd (processImage (Some Samples.image0) Samples.metadata0 Samples.readyDetector)
  = [PostMessage (PROCESS_GSFRAME [0; 124]%Z 2 1 Samples.intrinsics0 16)]
  /\ grayscaleBuffer (fst (processImage (Some Samples.image0) Samples.metadata0
                                        Samples.readyDetector)) = None.
Proof.
  destruct (processImage_posts_only_usable_frames Samples.readyDetector
              (Some Samples.image0) Samples.metadata0
              (PROCESS_GSFRAME [0; 124]%Z 2 1 Samples.intrinsics0 16))
    as (_ & H1 & H2 & _).
  - vm_compute. apply list_elem_of_here.
  - split; [exact H1|exact H2].
Defined.

Lemma step_without_worker (ev : Event) (s : Processor) :
  cvWorker s = false ->
  cvWorker (fst (step ev s)) = false
  /\ List.filter isPostMessage (snd (step ev s)) = []
  /\ List.filter isTerminate (snd (step ev s)) = [].
Proof.
  intros Hw. destruct ev as [id v|id|data|img meta|]; cbn [step].
  - unfold addKnownMarker, _sendMarkerToWorker. cbn [cvWorker cvWorkerReady].
    rewrite Hw. destruct (is_nan _ || _); [auto|].
    destruct (cvWorkerReady s); cbn; auto.
  - unfold removeKnownMarker. cbn [cvWorker cvWorkerReady]. rewrite Hw.
    destruct (cvWorkerReady s); cbn; auto.
  - unfold _handleCvWorkerMessage.
    set (s1 := match grayscalePixels_back data with
               | Some px => _
               | None => s
               end).
    assert (E1 : cvWorker s1 = false)
      by (subst s1; destruct (grayscalePixels_back data); auto).
    destruct (type data); cbn [fst snd]; auto.
    set (s2 := mkProcessor _ _ _ _).
    assert (E2 : cvWorker s2 = false) by exact E1.
    generalize (knownMarkers s2). intros m. clearbody s2.
    induction m as [|[k v] m IH]; cbn [replayMarkers]; [auto|].
    unfold _sendMarkerToWorker at 1 2 3. rewrite E2. cbn [negb orb].
    destruct (replayMarkers m s2) as [s3 e3]. exact IH.
  - unfold processImage.
    repeat match goal with
           | |- context [match ?x with _ => _ end] =>
               lazymatch x with
               | context [match _ with _ => _ end] => fail
               | _ => destruct x eqn:?
               end
           | |- context [if ?x then _ else _] =>
               lazymatch x with
               | context [if _ then _ else _] => fail
               | context [match _ with _ => _ end] => fail
               | _ => destruct x eqn:?
               end
           end; cbn; auto; congruence.
  - unfold destroy. rewrite Hw. cbn. auto.
Qed.

(** X11: [destroy] terminates the worker at most once, and after it nothing is
    posted to the worker any more, whatever is called and whatever
    messages still arrive. *)
Theorem destroy_silences_worker (s : Processor) (evs : list Event) :
  let es := snd (run evs (fst (destroy s))) in
  List.filter isPostMessage es = [] /\ List.filter isTerminate es = [].
Proof.
  cbn zeta. assert (Hw : cvWorker (fst (destroy s)) = false) by reflexivity.
  generalize dependent (fst (destroy s)). intros s0 Hw. revert s0 Hw.
  induction evs as [|ev evs IH]; intros s0 Hw; cbn [run]; [auto|].
  destruct (step_without_worker ev s0 Hw) as (H1 & H2 & H3).
  destruct (step ev s0) as [s1 e1]. specialize (IH s1 H1).
  destruct (run evs s1) as [s2 e2]. cbn [fst snd] in *.
  rewrite !List.filter_app, H2, H3. exact IH.
Qed.

End AprilTagProofs.

(** ** Properties of the visual-positioning processor *)

Module OpenVPSProofs.
Import OpenVPSProcessor.

#[local] Open Scope Z_scope.

Lemma vps_System_eta (y : System) : mkSystem (processor y) (suspended y) = y.
Proof. destruct y; reflexivity. Qed.

(** *** The gate *)

Lemma processImage_gate (now : Z) (prepared : bool) (tcatch : Z)
    (img : option CaptureImageData) (s : Processor) :
  isEnabled s = false
  \/ (forall i, img = Some i -> format i <> "RGBA")
  \/ now - lastSendTime s < interval (options s)
  \/ isBusy s = true ->
  processImage_begin now prepared tcatch img s = (s, [], false).
Proof.
  intros H. unfold processImage_begin. destruct img as [i|]; [|reflexivity].
  destruct (negb (isEnabled s) || negb (mapServer s)
            || negb (bool_decide (is_Some (buffer i)))) eqn:E1; [reflexivity|].
  destruct (String.eqb_spec (format i) "RGBA") as [Hf|Hf]; [|reflexivity].
  cbn [negb]. destruct (tooSoon s now || isBusy s) eqn:E2; [reflexivity|].
  exfalso. apply orb_false_iff in E2 as [Et Eb].
  apply orb_false_iff in E1 as [E1 _]. apply orb_false_iff in E1 as [Ee _].
  apply negb_false_iff in Ee. unfold tooSoon in Et. apply Z.ltb_ge in Et.
  destruct H as [H|[H|[H|H]]]; try congruence; try lia.
  exact (H i eq_refl Hf).
Qed.

(** *** One call in flight *)

Ltac unfold_vps :=
  unfold step, processImage_begin, processImage_afterBlob,
    processImage_afterLocalize, catch_finally, succeed_finally, setEnabled,
    destroy, hasFix in *.

Ltac split_cases :=
  repeat (first
    [ progress cbn in *
    | match goal with
      | |- context [match ?x with _ => _ end] =>
          lazymatch x with
          | context [match _ with _ => _ end] => fail
          | _ => destruct x eqn:?
          end
      end ]).

Ltac fin_flight :=
  split; cbn; [lia|split; intros ?; try discriminate; try congruence].

Lemma start_single_flight (opts : Options) (mapServerThrows : bool) :
  single_flight (start opts mapServerThrows).
Proof.
  unfold start, construct, single_flight.
  destruct (String.eqb (imageUrl opts) ""), mapServerThrows; cbn;
    (split; [lia|split; [discriminate|congruence]]).
Qed.

Lemma single_entry (l : list Suspended) (k : nat) (c : Suspended) :
  (length l <= 1)%nat -> l !! k = Some c -> l = [c] /\ k = 0%nat.
Proof.
  destruct l as [|c' [|c'' l]]; cbn; intros Hl Hk; try lia.
  - discriminate.
  - destruct k; cbn in Hk; [injection Hk as ->; auto|discriminate].
Qed.

Lemma step_single_flight (ev : Event) (y : System) :
  single_flight y -> single_flight (fst (step ev y)).
Proof.
  intros [Hlen Hbusy]. destruct y as [s susp]. cbn in Hlen, Hbusy.
  destruct ev as [now prepared tcatch img meta|k blob tcatch|k r tcatch|en|].
  - (* processImage *)
    cbn [step processor suspended].
    destruct (isBusy s) eqn:Hb.
    + rewrite processImage_gate by tauto.
      split; cbn; [exact Hlen|rewrite Hb; exact Hbusy].
    + assert (Hs : susp = []).
      { destruct susp; [reflexivity|]. destruct Hbusy as [_ Hbusy].
        discriminate Hbusy. discriminate. }
      subst susp. unfold processImage_begin, catch_finally. rewrite Hb.
      split_cases; fin_flight.
  - (* the blob *)
    cbn [step processor suspended].
    destruct (susp !! k) as [[meta|meta]|] eqn:Hk; cbn [fst];
      [|split; assumption|split; assumption].
    destruct (single_entry susp k _ Hlen Hk) as [-> ->].
    assert (Hb : isBusy s = true) by (apply Hbusy; discriminate).
    unfold processImage_afterBlob, catch_finally.
    split_cases; fin_flight.
  - (* the response *)
    cbn [step processor suspended].
    destruct (susp !! k) as [[meta|meta]|] eqn:Hk; cbn [fst];
      [split; assumption| |split; assumption].
    destruct (single_entry susp k _ Hlen Hk) as [-> ->].
    unfold processImage_afterLocalize, catch_finally, succeed_finally, hasFix.
    split_cases; fin_flight.
  - cbn. split; assumption.
  - cbn. split; assumption.
Qed.

Lemma run_single_flight (evs : list Event) (y : System) :
  single_flight y -> single_flight (fst (run evs y)).
Proof.
  revert y. induction evs as [|ev evs IH]; intros y Hy; [exact Hy|].
  cbn [run]. pose proof (step_single_flight ev y Hy) as H1.
  destruct (step ev y) as [y1 e1]. specialize (IH y1 H1).
  destruct (run evs y1) as [y2 e2]. exact IH.
Qed.

(** *** Counting requests *)

Lemma count_insert_AtLocalize (l : list Suspended) (k : nat) (meta : CaptureMetadata) :
  l !! k = Some (AtBlob meta) ->
  (S (length (List.filter isAtBlob (<[k := AtLocalize meta]> l)))
   = length (List.filter isAtBlob l))%nat.
Proof.
  revert k. induction l as [|c l IH]; intros k Hk; [discriminate|].
  destruct k as [|k]; simpl in *.
  - injection Hk as ->. reflexivity.
  - specialize (IH k Hk). destruct (isAtBlob c); simpl; lia.
Qed.

Lemma count_delete (l : list Suspended) (k : nat) (c : Suspended) :
  l !! k = Some c ->
  (length (List.filter isAtBlob (delete k l)) <= length (List.filter isAtBlob l))%nat.
Proof.
  revert k. induction l as [|c' l IH]; intros k Hk; [discriminate|].
  destruct k as [|k]; simpl in *.
  - destruct (isAtBlob c'); simpl; lia.
  - specialize (IH k Hk). destruct (isAtBlob c'); simpl; lia.
Qed.

Lemma count_delete_AtBlob (l : list Suspended) (k : nat) (meta : CaptureMetadata) :
  l !! k = Some (AtBlob meta) ->
  (S (length (List.filter isAtBlob (delete k l))) = length (List.filter isAtBlob l))%nat.
Proof.
  revert k. induction l as [|c' l IH]; intros k Hk; [discriminate|].
  destruct k as [|k]; simpl in *.
  - injection Hk as ->. reflexivity.
  - specialize (IH k Hk). destruct (isAtBlob c'); simpl; lia.
Qed.

(** An event other than a call sends a request only for a call that was
    waiting for its blob. *)
Lemma step_requests (ev : Event) (y : System) :
  isCall ev = false ->
  (networkCalls (snd (step ev y)) + beforeRequest (fst (step ev y))
   <= beforeRequest y)%nat.
Proof.
  intros Hev. destruct y as [s susp]. unfold beforeRequest, networkCalls.
  destruct ev as [now prepared tcatch img meta|k blob tcatch|k r tcatch|en|];
    try discriminate Hev; cbn [step processor suspended].
  - destruct (susp !! k) as [[meta|meta]|] eqn:Hk; cbn [fst snd]; try (cbn; lia).
    pose proof (count_insert_AtLocalize susp k meta Hk) as H1.
    pose proof (count_delete_AtBlob susp k meta Hk) as H2.
    unfold processImage_afterBlob, catch_finally.
    destruct blob; cbn; [|lia].
    destruct (viewTransformMatrix meta); cbn; [|lia].
    destruct (mapServer s); cbn; lia.
  - destruct (susp !! k) as [[meta|meta]|] eqn:Hk; cbn [fst snd]; try (cbn; lia).
    pose proof (count_delete susp k _ Hk) as H1.
    unfold processImage_afterLocalize, catch_finally, succeed_finally.
    destruct r as [|response]; cbn; [lia|].
    destruct (hasFix response) as [[p c]|]; cbn; [|lia].
    destruct (match p with
              | Pose2D _ => true
              | PoseFlat elems => (length elems =? 16)%nat
              | PoseNotArray => false
              end); cbn; [|lia].
    destruct (onPoseUpdate (options s)) as [[|]|]; cbn; lia.
  - cbn. lia.
  - cbn. lia.
Qed.

Lemma run_requests (evs : list Event) (y : System) :
  forallb (fun ev => negb (isCall ev)) evs = true ->
  (networkCalls (snd (run evs y)) + beforeRequest (fst (run evs y))
   <= beforeRequest y)%nat.
Proof.
  revert y. induction evs as [|ev evs IH]; intros y Hevs; cbn [run].
  - cbn. lia.
  - cbn in Hevs. apply andb_true_iff in Hevs as [Hev Hevs].
    apply negb_true_iff in Hev. pose proof (step_requests ev y Hev) as H1.
    destruct (step ev y) as [y1 e1]. specialize (IH y1 Hevs).
    destruct (run evs y1) as [y2 e2]. cbn [fst snd] in *.
    unfold networkCalls in *. rewrite List.filter_app, length_app. lia.
Qed.

(** An event other than a call that logs no error leaves the time of the
    last send and the options alone. *)
Lemma step_keeps_lastSendTime (ev : Event) (y : System) :
  isCall ev = false ->
  List.filter isConsoleError (snd (step ev y)) = [] ->
  lastSendTime (processor (fst (step ev y))) = lastSendTime (processor y)
  /\ options (processor (fst (step ev y))) = options (processor y).
Proof.
  intros Hev. destruct y as [s susp].
  destruct ev as [now prepared tcatch img meta|k blob tcatch|k r tcatch|en|];
    try discriminate Hev; cbn [step processor suspended].
  - destruct (susp !! k) as [[meta|meta]|] eqn:Hk; cbn [fst snd]; auto.
    unfold processImage_afterBlob, catch_finally.
    destruct blob; cbn; [|discriminate].
    destruct (viewTransformMatrix meta); cbn; [|discriminate].
    destruct (mapServer s); cbn; [auto|discriminate].
  - destruct (susp !! k) as [[meta|meta]|] eqn:Hk; cbn [fst snd]; auto.
    unfold processImage_afterLocalize, catch_finally, succeed_finally.
    destruct r as [|response]; cbn; [discriminate|].
    destruct (hasFix response) as [[p c]|]; cbn; [|auto].
    destruct (match p with
              | Pose2D _ => true
              | PoseFlat elems => (length elems =? 16)%nat
              | PoseNotArray => false
              end); cbn; [|discriminate].
    destruct (onPoseUpdate (options s)) as [[|]|]; cbn; auto; discriminate.
  - cbn. auto.
  - cbn. auto.
Qed.

Lemma filter_app_nil (es1 es2 : list Effect) :
  List.filter isConsoleError (es1 ++ es2) = [] ->
  List.filter isConsoleError es1 = [] /\ List.filter isConsoleError es2 = [].
Proof. rewrite List.filter_app. apply app_eq_nil. Qed.

Lemma run_keeps_lastSendTime (evs : list Event) (y : System) :
  forallb (fun ev => negb (isCall ev)) evs = true ->
  List.filter isConsoleError (snd (run evs y)) = [] ->
  lastSendTime (processor (fst (run evs y))) = lastSendTime (processor y)
  /\ options (processor (fst (run evs y))) = options (processor y).
Proof.
  revert y. induction evs as [|ev evs IH]; intros y Hevs Hq; cbn [run] in *.
  - auto.
  - cbn in Hevs. apply andb_true_iff in Hevs as [Hev Hevs].
    apply negb_true_iff in Hev.
    pose proof (step_keeps_lastSendTime ev y Hev) as H1.
    destruct (step ev y) as [y1 e1]. specialize (IH y1 Hevs).
    destruct (run evs y1) as [y2 e2]. cbn [fst snd] in *.
    apply filter_app_nil in Hq as [Hq1 Hq2].
    destruct (H1 Hq1) as [E1 E2]. rewrite <- E1, <- E2. apply IH, Hq2.
Qed.

Lemma run_app (l1 l2 : list Event) (z : System) :
  run (l1 ++ l2) z
  = (fst (run l2 (fst (run l1 z))),
     snd (run l1 z) ++ snd (run l2 (fst (run l1 z)))).
Proof.
  revert z. induction l1 as [|ev l1 IH]; intros z.
  - cbn [app run fst snd]. now destruct (run l2 z).
  - change ((ev :: l1) ++ l2) with (ev :: (l1 ++ l2)). cbn [run].
    destruct (step ev z) as [z1 f1]. rewrite IH.
    destruct (run l1 z1) as [z2 f2]. cbn [fst snd].
    now rewrite app_assoc.
Qed.

(** A call sends nothing by itself and suspends at most itself; when it
    logs no error it is either dropped, or it is suspended at the blob and
    has recorded its time. *)
Lemma call_outcome (now : Z) (prepared : bool) (tcatch : Z)
    (img : option CaptureImageData) (meta : CaptureMetadata) (y : System) :
  let ev := CallProcessImage now prepared tcatch img meta in
  networkCalls (snd (step ev y)) = 0%nat
  /\ (beforeRequest (fst (step ev y)) <= S (beforeRequest y))%nat
  /\ (List.filter isConsoleError (snd (step ev y)) = [] ->
      fst (step ev y) = y
      \/ (lastSendTime (processor (fst (step ev y))) = now
          /\ options (processor (fst (step ev y))) = options (processor y))).
Proof.
  destruct y as [s susp]. cbn [step processor suspended].
  unfold processImage_begin, catch_finally, beforeRequest.
  destruct img as [i|]; cbn; [|auto].
  destruct (negb (isEnabled s) || negb (mapServer s)
            || negb (bool_decide (is_Some (buffer i)))); cbn; [auto|].
  destruct (negb (String.eqb (format i) "RGBA")); cbn; [auto|].
  destruct (tooSoon s now || isBusy s); cbn; [auto|].
  destruct prepared; cbn.
  - split; [reflexivity|]. split; [|auto].
    rewrite List.filter_app, length_app. cbn. lia.
  - split; [reflexivity|]. split; [lia|discriminate].
Qed.

(** C5: a call is dropped, with no effect and nothing left suspended,
    unless the processor is enabled, the format is RGBA, the interval has
    elapsed since [lastSendTime] and [isBusy] is false; in every state the
    processor reaches at most one request is unanswered; and of two calls
    less than [interval] apart, with no error logged up to the second, at
    most one leads to a request. *)
Theorem processImage_single_request
    (opts : Options) (mapServerThrows : bool) (evs : list Event) :
  let y := fst (run evs (start opts mapServerThrows)) in
  (forall now prepared tcatch img meta,
      isEnabled (processor y) = false
      \/ (forall i, img = Some i -> format i <> "RGBA")
      \/ now - lastSendTime (processor y) < interval (options (processor y))
      \/ isBusy (processor y) = true ->
      step (CallProcessImage now prepared tcatch img meta) y = (y, []))
  /\ (outstanding y <= 1)%nat
  /\ (suspended y = [] ->
      forall t1 p1 c1 i1 m1 t2 p2 c2 i2 m2 mids rest,
      t2 - t1 < interval (options (processor y)) ->
      forallb (fun ev => negb (isCall ev)) (mids ++ rest) = true ->
      List.filter isConsoleError
        (snd (run (CallProcessImage t1 p1 c1 i1 m1 :: mids) y)) = [] ->
      (networkCalls
         (snd (run (CallProcessImage t1 p1 c1 i1 m1
                    :: mids ++ CallProcessImage t2 p2 c2 i2 m2 :: rest) y))
       <= 1)%nat).
Proof.
  intros y.
  assert (Hy : single_flight y) by apply run_single_flight, start_single_flight.
  clearbody y. split; [|split].
  - intros now prepared tcatch img meta H. cbn [step].
    rewrite (processImage_gate now prepared tcatch img (processor y) H).
    now rewrite vps_System_eta.
  - unfold outstanding. destruct Hy as [Hlen _].
    pose proof (List.filter_length_le isAtLocalize (suspended y)). lia.
  - intros Hidle t1 p1 c1 i1 m1 t2 p2 c2 i2 m2 mids rest Ht Hevs Hq.
    rewrite forallb_app in Hevs. apply andb_true_iff in Hevs as [Hmids Hrest].
    assert (H0 : beforeRequest y = 0%nat) by (unfold beforeRequest; now rewrite Hidle).
    cbn [run] in *.
    destruct (call_outcome t1 p1 c1 i1 m1 y) as (Hn1 & Hb1 & Ho1).
    destruct (step (CallProcessImage t1 p1 c1 i1 m1) y) as [y1 e1].
    cbn [fst snd] in *.
    rewrite run_app. cbn [fst snd run].
    pose proof (run_requests mids y1 Hmids) as Hm.
    pose proof (run_keeps_lastSendTime mids y1 Hmids) as Hl.
    destruct (run mids y1) as [y2 e2]. cbn [fst snd] in *.
    destruct (call_outcome t2 p2 c2 i2 m2 y2) as (Hn2 & Hb2 & _).
    pose proof (processImage_gate t2 p2 c2 i2 (processor y2)) as Hg.
    cbn [step] in *.
    destruct (processImage_begin t2 p2 c2 i2 (processor y2)) as [[s3 e3] a3] eqn:E3.
    cbn [fst snd] in *.
    set (y3 := mkSystem s3 (if a3 then suspended y2 ++ [AtBlob m2] else suspended y2)) in *.
    pose proof (run_requests rest y3 Hrest) as Hr.
    destruct (run rest y3) as [y4 e4]. cbn [fst snd] in *.
    apply filter_app_nil in Hq as [Hq1 Hq2].
    unfold networkCalls in *.
    rewrite !List.filter_app, !length_app. rewrite Hn1, Hn2.
    destruct (Ho1 Hq1) as [->|(Hlast1 & Hopt1)].
    + (* the first call was dropped *) lia.
    + (* the first call was sent: the second comes too soon *)
      destruct (Hl Hq2) as [Hlast2 Hopt2].
      assert (E : (s3, e3, a3) = (processor y2, [], false)).
      { apply Hg. right; right; left. rewrite Hlast2, Hopt2, Hlast1, Hopt1. exact Ht. }
      injection E as -> -> ->. subst y3. rewrite vps_System_eta in Hr. lia.
Qed.

Lemma processImage_single_request_witness :
  let y := start Samples.vpsOptions false in
  let first := CallProcessImage 6000 true 0 (Some Samples.image0) Samples.metadata0 in
  let second := CallProcessImage 7000 true 0 (Some Samples.image0) Samples.metadata0 in
  let mids := [BlobSettled 0 true 0;
               LocalizeSettled 0 (LocalizeReturns (Some Samples.goodResponse)) 0] in
  suspended y = []
  /\ 7000 - 6000 < interval (options (processor y))
  /\ List.filter isConsoleError (snd (run (first :: mids) y)) = []
  /\ (networkCalls (snd (run (first :: mids ++ second :: []) y)) <= 1)%nat
  /\ (outstanding y <= 1)%nat.
Proof.
  intros y first second mids.
  split; [reflexivity|]. split; [reflexivity|]. split; [reflexivity|].
  pose proof (processImage_single_request Samples.vpsOptions false []) as H.
  cbv zeta in H. cbn [run fst] in H. destruct H as (_ & Hout & Htwo). split.
  - exact (Htwo eq_refl 6000 true 0 (Some Samples.image0) Samples.metadata0
                7000 true 0 (Some Samples.image0) Samples.metadata0 mids []
                eq_refl eq_refl eq_refl).
  - exact Hout.
Defined.

(** *** Retry and back-off *)


Lemma nonpositive_not_positive (c : float) :
  (c <=? 0)%float = true \/ is_nan c = true -> (0 <? c)%float = false.
Proof.
  unfold is_nan. rewrite leb_spec, ltb_spec, FloatAxioms.eqb_spec.
  change (Prim2SF 0) with (S754_zero false).
  destruct (Prim2SF c) as [sg|sg| |sg m e]; cbn; auto.
  - destruct sg; cbn; intros [H|H]; auto; discriminate.
  - destruct sg; cbn; intros [H|H]; auto; try discriminate.
    unfold SFeqb, SFcompare in H. rewrite Z.compare_refl, Pos.compare_cont_refl in H.
    discriminate.
Qed.




(** *** Answers without a fix *)

(** C7 does not hold where it speaks of a retry.  An answer with
    confidence 0 is not retried: the retry count goes to
    0 instead of up by one, and the time of the last send stays. *)
Lemma low_confidence_is_not_retried :
  let s := mkProcessor DEFAULT_OPTIONS true true true 1000 None 1 in
  let response := Some {| pose := Some (PoseFlat (replicate 16 0%float));
                          serverConfidence := Some 0%float |} in
  let s' := fst (processImage_afterLocalize (LocalizeReturns response) 2000
                                            Samples.metadata0 s) in
  retryCount s' <> retryCount s + 1
  /\ retryCount s' = 0
  /\ lastSendTime s' = lastSendTime s.
Proof. vm_compute. repeat split. discriminate. Qed.

(** C7, as the code has it: an answer that is missing, has no pose, or
    has a confidence that is missing, NaN or at most 0 ends the attempt
    without a fix: no error is logged, the pose callback is not called,
    [retryCount] is set to 0, [lastSendTime] stays at the time of the send
    and [isBusy] is cleared. *)
Theorem low_confidence_is_no_fix
    (s : Processor) (response : option Response) (tcatch : Z)
    (meta : CaptureMetadata) :
  response = None
  \/ (exists r, response = Some r
       /\ (pose r = None \/ serverConfidence r = None
           \/ exists c, serverConfidence r = Some c
                         /\ ((c <=? 0)%float = true \/ is_nan c = true))) ->
  let '(s', es) := processImage_afterLocalize (LocalizeReturns response) tcatch meta s in
  es = []
  /\ retryCount s' = 0
  /\ lastSendTime s' = lastSendTime s
  /\ isBusy s' = false.
Proof.
  intros H.
  assert (Hfix : hasFix response = None).
  { destruct H as [->|(r & -> & H)]; [reflexivity|].
    destruct r as [[p|] [c|]]; cbn in *; try reflexivity.
    destruct H as [H|[H|(c' & E & H)]]; try discriminate.
    injection E as <-. now rewrite (nonpositive_not_positive c H). }
  unfold processImage_afterLocalize. rewrite Hfix. cbn. auto.
Qed.

Lemma low_confidence_is_no_fix_witness :
  let s := mkProcessor Samples.vpsOptions true true true 6000 None 1 in
  pose Samples.noPoseResponse = None
  /\ let '(s', es) :=
       processImage_afterLocalize (LocalizeReturns (Some Samples.noPoseResponse))
                                  6500 Samples.metadata0 s in
     es = [] /\ retryCount s' = 0 /\ lastSendTime s' = lastSendTime s
     /\ isBusy s' = false.
Proof.
  intros s. split; [reflexivity|].
  apply (low_confidence_is_no_fix s (Some Samples.noPoseResponse) 6500
           Samples.metadata0).
  right. exists Samples.noPoseResponse. split; [reflexivity|]. left. reflexivity.
Defined.

(** *** [transpose] *)

Section TransposeProofs.
Context {A : Type} (undef : A).
#[local] Open Scope nat_scope.

Lemma fold_insert_lookup {B : Type} (g : nat -> B -> B) (d : B)
    (l : list nat) (t : list B) (j : nat) :
  NoDup l ->
  fold_left (fun t j => <[j := g j (default d (t !! j))]> t) l t !! j
  = if bool_decide (j ∈ l) then g j <$> t !! j else t !! j.
Proof.
  revert t. induction l as [|a l IH]; intros t Hnd; [reflexivity|].
  apply NoDup_cons in Hnd as [Ha Hnd]. cbn [fold_left]. rewrite IH by exact Hnd.
  destruct (decide (j = a)) as [->|Hja].
  - rewrite (bool_decide_eq_false_2 _ Ha).
    rewrite (bool_decide_eq_true_2 (a ∈ a :: l)) by (apply elem_of_cons; auto).
    destruct (t !! a) as [x|] eqn:Hx.
    + cbn. apply list_lookup_insert_eq. eapply lookup_lt_Some, Hx.
    + cbn. apply lookup_ge_None. rewrite length_insert. now apply lookup_ge_None.
  - rewrite list_lookup_insert_ne by congruence.
    destruct (decide (j ∈ l)) as [Hj|Hj].
    + rewrite (bool_decide_eq_true_2 _ Hj).
      rewrite (bool_decide_eq_true_2 (j ∈ a :: l)) by (rewrite elem_of_cons; tauto). reflexivity.
    + rewrite (bool_decide_eq_false_2 _ Hj).
      rewrite (bool_decide_eq_false_2 (j ∈ a :: l)) by (rewrite elem_of_cons; tauto). reflexivity.
Qed.

Lemma seq_elem (j n : nat) : j ∈ seq 0 n <-> j < n.
Proof. rewrite elem_of_seq. lia. Qed.

Lemma transposeRow_lookup (m : list (list A)) (cols : nat) (t : list (list A))
    (i j : nat) :
  transposeRow undef m cols t i !! j
  = if bool_decide (j < cols) then (fun r => <[i := at2 undef m i j]> r) <$> t !! j
    else t !! j.
Proof.
  unfold transposeRow.
  rewrite (fold_insert_lookup (fun j r => <[i := at2 undef m i j]> r) [])
    by apply NoDup_seq.
  now rewrite (bool_decide_ext _ _ (seq_elem j cols)).
Qed.

Lemma transposeRows_lookup (m : list (list A)) (cols : nat) (l : list nat)
    (t : list (list A)) (j : nat) :
  j < cols ->
  fold_left (transposeRow undef m cols) l t !! j
  = (fun r => fold_left (fun r i => <[i := at2 undef m i j]> r) l r) <$> t !! j.
Proof.
  intros Hj. revert t. induction l as [|i l IH]; intros t; cbn [fold_left].
  - now destruct (t !! j).
  - rewrite IH, transposeRow_lookup, bool_decide_eq_true_2 by exact Hj.
    now destruct (t !! j).
Qed.

Lemma transposeRows_length (m : list (list A)) (cols : nat) (l : list nat)
    (t : list (list A)) :
  length (fold_left (transposeRow undef m cols) l t) = length t.
Proof.
  revert t. induction l as [|i l IH]; intros t; cbn [fold_left]; [reflexivity|].
  rewrite IH. unfold transposeRow. generalize (seq 0 cols). intros js. revert t.
  induction js as [|j js IHj]; intros t; cbn [fold_left]; [reflexivity|].
  now rewrite IHj, length_insert.
Qed.

Lemma fill_row (h : nat -> A) (n : nat) :
  fold_left (fun r i => <[i := h i]> r) (seq 0 n) (replicate n undef)
  = map h (seq 0 n).
Proof.
  apply list_eq. intros i.
  rewrite (fold_insert_lookup (fun i _ => h i) undef) by apply NoDup_seq.
  rewrite (bool_decide_ext _ _ (seq_elem i n)).
  change (map h (seq 0 n)) with (h <$> seq 0 n). rewrite list_lookup_fmap.
  destruct (decide (i < n)) as [Hi|Hi].
  - rewrite bool_decide_eq_true_2, lookup_replicate_2, lookup_seq_lt by exact Hi.
    reflexivity.
  - rewrite bool_decide_eq_false_2, lookup_seq_ge by lia.
    apply lookup_replicate_None. lia.
Qed.

(** What the two loops of [transpose] leave in [transposed]. *)
Lemma transpose_eq (row0 : list A) (m : list (list A)) :
  fst (transpose undef (row0 :: m))
  = map (fun j => map (fun i => at2 undef (row0 :: m) i j)
                      (seq 0 (length (row0 :: m))))
        (seq 0 (length row0)).
Proof.
  cbn [transpose fst]. set (M := row0 :: m). set (rows := length M).
  set (cols := length row0). apply list_eq. intros j.
  change (map ?f ?l) with (f <$> l) at 1. rewrite list_lookup_fmap.
  destruct (decide (j < cols)) as [Hj|Hj].
  - rewrite transposeRows_lookup, lookup_replicate_2, lookup_seq_lt by exact Hj.
    cbv [fmap option_fmap option_map]. cbn [Nat.add]. f_equal. apply fill_row.
  - rewrite lookup_seq_ge by lia. apply lookup_ge_None.
    rewrite transposeRows_length, length_replicate. lia.
Qed.

Lemma at2_lookup (m : list (list A)) (i j : nat) (x : A) :
  m !! i ≫= (.!! j) = Some x -> at2 undef m i j = x.
Proof.
  unfold at2. destruct (m !! i) as [row|]; cbn; [|discriminate].
  now intros ->.
Qed.

Lemma rectangular_spec (rows cols : nat) (m : list (list A)) :
  rectangular rows cols m = true
  <-> length m = rows /\ Forall (fun row => length row = cols) m.
Proof.
  unfold rectangular. rewrite andb_true_iff, Nat.eqb_eq, forallb_forall, Forall_forall.
  split; intros [H1 H2]; (split; [exact H1|]); intros row Hrow.
  - apply Nat.eqb_eq, H2, list_elem_of_In, Hrow.
  - apply Nat.eqb_eq, H2, list_elem_of_In, Hrow.
Qed.

Lemma rectangular_lookup (rows cols : nat) (m : list (list A)) (i j : nat) :
  rectangular rows cols m = true -> i < rows -> j < cols ->
  m !! i ≫= (.!! j) = Some (at2 undef m i j).
Proof.
  intros [Hr Hc]%rectangular_spec Hi Hj. unfold at2.
  destruct (lookup_lt_is_Some_2 m i) as [row Hrow]; [lia|].
  rewrite Hrow. cbn.
  rewrite Forall_forall in Hc.
  assert (Hlen : length row = cols) by (eapply Hc, list_elem_of_lookup_2, Hrow).
  destruct (lookup_lt_is_Some_2 row j) as [x Hx]; [lia|].
  now rewrite Hx.
Qed.

Lemma transposed_rectangular (row0 : list A) (m : list (list A)) :
  rectangular (length row0) (length (row0 :: m))
              (fst (transpose undef (row0 :: m))) = true.
Proof.
  apply rectangular_spec. rewrite transpose_eq. split.
  - now rewrite length_map, length_seq.
  - apply Forall_forall. intros row Hrow.
    apply (list_elem_of_fmap_1 _ (seq 0 (length row0))) in Hrow as (j & -> & _).
    now rewrite length_map, length_seq.
Qed.

Lemma transposed_lookup (row0 : list A) (m : list (list A)) (i j : nat) :
  i < length (row0 :: m) -> j < length row0 ->
  fst (transpose undef (row0 :: m)) !! j ≫= (.!! i)
  = Some (at2 undef (row0 :: m) i j).
Proof.
  intros Hi Hj. rewrite transpose_eq.
  change (map ?f ?l) with (f <$> l) at 1.
  rewrite list_lookup_fmap, lookup_seq_lt by exact Hj. cbn [fmap option_fmap option_map mbind option_bind Nat.add].
  change (map ?f ?l) with (f <$> l).
  rewrite list_lookup_fmap, lookup_seq_lt by exact Hi. reflexivity.
Qed.

Lemma rows_eq (rows cols : nat) (m m' : list (list A)) :
  rectangular rows cols m = true -> rectangular rows cols m' = true ->
  (forall i j, i < rows -> j < cols ->
     m !! i ≫= (.!! j) = m' !! i ≫= (.!! j)) ->
  m = m'.
Proof.
  intros [Hr Hc]%rectangular_spec [Hr' Hc']%rectangular_spec H. apply list_eq. intros i.
  destruct (decide (i < rows)) as [Hi|Hi].
  - destruct (lookup_lt_is_Some_2 m i) as [row Hrow]; [lia|].
    destruct (lookup_lt_is_Some_2 m' i) as [row' Hrow']; [lia|].
    rewrite Hrow, Hrow'. f_equal.
    rewrite Forall_forall in Hc, Hc'.
    assert (Hl : length row = cols) by (eapply Hc, list_elem_of_lookup_2, Hrow).
    assert (Hl' : length row' = cols) by (eapply Hc', list_elem_of_lookup_2, Hrow').
    apply list_eq. intros j. destruct (decide (j < cols)) as [Hj|Hj].
    + specialize (H i j Hi Hj). rewrite Hrow, Hrow' in H. exact H.
    + rewrite (proj2 (lookup_ge_None row j)), (proj2 (lookup_ge_None row' j)) by lia.
      reflexivity.
  - rewrite (proj2 (lookup_ge_None m i)), (proj2 (lookup_ge_None m' i)) by lia.
    reflexivity.
Qed.

Lemma concat_lookup (r : nat) (ls : list (list A)) (j i : nat) :
  Forall (fun row => length row = r) ls -> i < r ->
  concat ls !! (j * r + i) = ls !! j ≫= (.!! i).
Proof.
  intros Hls Hi. revert j. induction Hls as [|row ls Hrow _ IH]; intros j.
  - reflexivity.
  - cbn [concat]. destruct j as [|j].
    + cbn. apply lookup_app_l. lia.
    + rewrite lookup_app_r by (cbn; lia).
      replace (S j * r + i - length row) with (j * r + i) by (cbn; lia).
      apply IH.
Qed.

Lemma concat_length (r : nat) (ls : list (list A)) :
  Forall (fun row => length row = r) ls -> length (concat ls) = length ls * r.
Proof.
  induction 1 as [|row ls Hrow _ IH]; [reflexivity|].
  cbn [concat length]. rewrite length_app, IH. lia.
Qed.

(** X12: [transpose] of a matrix with at least one row: no error is logged, the
    result has one row for every element of the first row, each as long as
    the matrix has rows, and its element [j][i] is [matrix[i][j]]
    ([undefined] where row [i] is shorter than the first). *)
Theorem transpose_swaps_indices (m : list (list A)) :
  m <> [] ->
  let cols := length (default [] (head m)) in
  let t := fst (transpose undef m) in
  snd (transpose undef m) = []
  /\ rectangular cols (length m) t = true
  /\ forall i j, i < length m -> j < cols ->
       t !! j ≫= (.!! i) = Some (at2 undef m i j).
Proof.
  destruct m as [|row0 m]; [congruence|]. intros _. cbn [head default].
  split; [reflexivity|]. split.
  - apply transposed_rectangular.
  - intros i j. apply transposed_lookup.
Qed.

(** X13: Transposing a rectangular matrix twice gives the matrix back, when it
    has at least one row and one column. *)
Theorem transpose_involutive (rows cols : nat) (m : list (list A)) :
  rectangular rows cols m = true -> 0 < rows -> 0 < cols ->
  fst (transpose undef (fst (transpose undef m))) = m.
Proof.
  intros Hm Hrows Hcols.
  pose proof (proj1 (rectangular_spec _ _ _) Hm) as [Hr Hc].
  destruct m as [|row0 m]; [cbn in Hr; lia|].
  assert (Hrow0 : length row0 = cols) by now inversion Hc.
  pose proof (transposed_rectangular row0 m) as Ht.
  rewrite Hrow0, Hr in Ht.
  destruct (fst (transpose undef (row0 :: m))) as [|col0 t] eqn:Et.
  { apply rectangular_spec in Ht as [Ht _]. cbn in Ht. lia. }
  pose proof (proj1 (rectangular_spec _ _ _) Ht) as [Htr Htc].
  assert (Hcol0 : length col0 = rows) by now inversion Htc.
  pose proof (transposed_rectangular col0 t) as Htt.
  rewrite Hcol0, Htr in Htt.
  apply (rows_eq rows cols); [exact Htt|exact Hm|]. intros i j Hi Hj.
  rewrite transposed_lookup by lia.
  rewrite (rectangular_lookup rows cols (row0 :: m) i j Hm Hi Hj).
  f_equal. apply at2_lookup. rewrite <- Et.
  apply transposed_lookup; lia.
Qed.

(** X14: The array [transpose(pose).flat()] of a rectangular row-major pose
    lists it column by column: index [j * rows + i] holds [pose[i][j]]. *)
Theorem transposed_flat_is_column_major (rows cols : nat) (m : list (list A))
    (i j : nat) :
  rectangular rows cols m = true -> i < rows -> j < cols ->
  length (flat (fst (transpose undef m))) = cols * rows
  /\ flat (fst (transpose undef m)) !! (j * rows + i) = m !! i ≫= (.!! j).
Proof.
  intros Hm Hi Hj.
  pose proof (proj1 (rectangular_spec _ _ _) Hm) as [Hr Hc].
  destruct m as [|row0 m]; [cbn in Hr; lia|].
  assert (Hrow0 : length row0 = cols) by now inversion Hc.
  pose proof (transposed_rectangular row0 m) as Ht.
  rewrite Hrow0, Hr in Ht. apply rectangular_spec in Ht as [Htr Htc].
  unfold flat. split.
  - now rewrite (concat_length rows), Htr.
  - rewrite (concat_lookup rows) by assumption.
    rewrite transposed_lookup by lia.
    symmetry. now apply (rectangular_lookup rows cols).
Qed.
End TransposeProofs.

Section TransposeWitnesses.
#[local] Open Scope nat_scope.

Lemma transpose_swaps_indices_witness :
  Samples.matrix23 <> []
  /\ fst (transpose 0 Samples.matrix23) !! 2 ≫= (.!! 1) = Some 6.
Proof.
  split; [discriminate|].
  apply (transpose_swaps_indices 0 Samples.matrix23); [discriminate|simpl; lia..].
Defined.

Lemma transpose_involutive_witness :
  fst (transpose 0 (fst (transpose 0 Samples.matrix23)))
  = Samples.matrix23.
Proof. apply (transpose_involutive 0 2 3); [reflexivity|lia|lia]. Defined.

Lemma transposed_flat_is_column_major_witness :
  flat (fst (transpose 0 Samples.matrix23)) !! (2 * 2 + 1) = Some 6.
Proof.
  apply (transposed_flat_is_column_major 0 2 3 Samples.matrix23 1 2);
    [reflexivity|lia|lia].
Defined.

End TransposeWitnesses.

(** *** Requests, the busy flag and the pose callback *)

Lemma step_without_mapServer (ev : Event) (y : System) :
  mapServer (processor y) = false ->
  networkCalls (snd (step ev y)) = 0%nat
  /\ mapServer (processor (fst (step ev y))) = false.
Proof.
  intros Hm. destruct y as [s susp]. cbn [processor] in Hm.
  destruct ev as [now prepared tcatch img meta|k blob tcatch|k r tcatch|en|];
    cbn [step processor suspended].
  - unfold processImage_begin. rewrite Hm. destruct img; cbn; auto.
    now rewrite orb_true_r.
  - destruct (susp !! k) as [[meta|meta]|]; cbn [fst snd]; auto.
    unfold processImage_afterBlob, catch_finally. rewrite Hm.
    destruct blob, (viewTransformMatrix meta); cbn; auto.
  - destruct (susp !! k) as [[meta|meta]|]; cbn [fst snd]; auto.
    unfold processImage_afterLocalize, catch_finally, succeed_finally.
    split_cases; auto.
  - cbn. auto.
  - cbn. auto.
Qed.

Lemma run_without_mapServer (evs : list Event) (y : System) :
  mapServer (processor y) = false ->
  networkCalls (snd (run evs y)) = 0%nat.
Proof.
  revert y. induction evs as [|ev evs IH]; intros y Hm; cbn [run]; [reflexivity|].
  destruct (step_without_mapServer ev y Hm) as [H1 H2].
  destruct (step ev y) as [y1 e1]. specialize (IH y1 H2).
  destruct (run evs y1) as [y2 e2]. cbn [fst snd] in *.
  unfold networkCalls in *. rewrite List.filter_app, length_app. lia.
Qed.

(** X15: After [destroy] no request is sent, whatever calls, settled promises
    and [setEnabled] calls follow. *)
Theorem destroy_stops_requests (y : System) (evs : list Event) :
  networkCalls (snd (run evs (fst (step Destroy y)))) = 0%nat.
Proof. apply run_without_mapServer. reflexivity. Qed.

(** X16: A processor constructed without [imageUrl], or whose [MapServer]
    could not be constructed, never sends a request, [setEnabled(true)]
    included. *)
Theorem construct_without_server_is_inert
    (opts : Options) (mapServerThrows : bool) (evs : list Event) :
  imageUrl opts = "" \/ mapServerThrows = true ->
  isEnabled (processor (start opts mapServerThrows)) = false
  /\ networkCalls (snd (run evs (start opts mapServerThrows))) = 0%nat.
Proof.
  intros H.
  assert (Hs : isEnabled (processor (start opts mapServerThrows)) = false
               /\ mapServer (processor (start opts mapServerThrows)) = false).
  { unfold start, construct. destruct H as [->| ->]; cbn; [auto|].
    destruct (String.eqb (imageUrl opts) ""); cbn; auto. }
  split; [apply Hs|]. apply run_without_mapServer, Hs.
Qed.

Lemma construct_without_server_is_inert_witness :
  networkCalls
    (snd (run [SetEnabled true;
               CallProcessImage 9000 true 9000 (Some Samples.image0) Samples.metadata0;
               BlobSettled 0 true 9001]
              (start DEFAULT_OPTIONS false))) = 0%nat.
Proof.
  apply (construct_without_server_is_inert DEFAULT_OPTIONS false). left. reflexivity.
Defined.

Lemma step_disabled (ev : Event) (y : System) :
  isEnabled (processor y) = false -> suspended y = [] -> isEnable ev = false ->
  snd (step ev y) = []
  /\ isEnabled (processor (fst (step ev y))) = false
  /\ suspended (fst (step ev y)) = [].
Proof.
  intros He Hs Hev. destruct y as [s susp]. cbn [processor suspended] in *. subst susp.
  destruct ev as [now prepared tcatch img meta|k blob tcatch|k r tcatch|en|];
    cbn [step processor suspended].
  - unfold processImage_begin. rewrite He. destruct img; cbn; auto.
  - cbn. auto.
  - cbn. auto.
  - destruct en; [discriminate|]. cbn. auto.
  - cbn. auto.
Qed.

(** X17: While the processor is disabled and no call is in flight, calls have
    no effect at all: nothing is sent, logged or reported until
    [setEnabled(true)]. *)
Theorem disabled_processor_is_passive (evs : list Event) (y : System) :
  isEnabled (processor y) = false -> suspended y = [] ->
  forallb (fun ev => negb (isEnable ev)) evs = true ->
  snd (run evs y) = [].
Proof.
  revert y. induction evs as [|ev evs IH]; intros y He Hs Hevs; cbn [run]; [reflexivity|].
  cbn in Hevs. apply andb_true_iff in Hevs as [Hev Hevs]. apply negb_true_iff in Hev.
  destruct (step_disabled ev y He Hs Hev) as (H1 & H2 & H3).
  destruct (step ev y) as [y1 e1]. specialize (IH y1 H2 H3 Hevs).
  destruct (run evs y1) as [y2 e2]. cbn [fst snd] in *. now rewrite H1, IH.
Qed.

Lemma disabled_processor_is_passive_witness :
  snd (run [CallProcessImage 9000 true 9000 (Some Samples.image0) Samples.metadata0;
            BlobSettled 0 true 9001]
           (fst (step (SetEnabled false) (start Samples.vpsOptions false)))) = [].
Proof.
  apply disabled_processor_is_passive; reflexivity.
Defined.

(** X18: Whatever a suspended call's awaits give - no blob, a rejected or an
    unusable response, a throwing callback - the call ends and [isBusy] is
    cleared. *)
Theorem busy_flag_always_released
    (opts : Options) (mapServerThrows : bool) (evs : list Event)
    (blob : bool) (t1 : Z) (r : LocalizeResult) (t2 : Z) :
  let y := fst (run evs (start opts mapServerThrows)) in
  let y' := fst (run [BlobSettled 0 blob t1; LocalizeSettled 0 r t2] y) in
  suspended y' = [] /\ isBusy (processor y') = false.
Proof.
  intros y y'.
  assert (Hy : single_flight y) by apply run_single_flight, start_single_flight.
  assert (Hy' : single_flight y') by now apply run_single_flight.
  assert (Hs : suspended y' = []).
  { subst y'. clearbody y. destruct Hy as [Hlen _]. destruct y as [s susp].
    cbn [suspended] in Hlen.
    destruct susp as [|c [|c' susp]]; [reflexivity| |cbn in Hlen; lia].
    destruct c as [meta|meta]; cbn [run step suspended processor lookup list_lookup].
    - unfold processImage_afterBlob, processImage_afterLocalize, catch_finally,
        succeed_finally.
      split_cases; reflexivity.
    - unfold processImage_afterLocalize, catch_finally, succeed_finally.
      split_cases; reflexivity. }
  split; [exact Hs|]. destruct Hy' as [_ Hb].
  destruct (isBusy (processor y')); [|reflexivity].
  exfalso. now apply Hb.
Qed.

Lemma step_checkedUpdate (ev : Event) (y : System) :
  forallb checkedUpdate (snd (step ev y)) = true.
Proof.
  destruct y as [s susp].
  destruct ev as [now prepared tcatch img meta|k blob tcatch|k r tcatch|en|];
    cbn [step processor suspended].
  - unfold processImage_begin, catch_finally. split_cases; reflexivity.
  - destruct (susp !! k) as [[meta|meta]|]; cbn [fst snd]; auto.
    unfold processImage_afterBlob, catch_finally. split_cases; reflexivity.
  - destruct (susp !! k) as [[meta|meta]|]; cbn [fst snd]; auto.
    unfold processImage_afterLocalize, catch_finally, succeed_finally, hasFix.
    destruct r as [|[[[p|] [c|]]|]]; cbn; try reflexivity.
    destruct (0 <? c)%float eqn:Hc; cbn; [|reflexivity].
    destruct p as [rows|elems|]; cbn.
    + destruct (onPoseUpdate (options s)) as [[|]|]; cbn; now rewrite ?Hc.
    + destruct (length elems =? 16)%nat eqn:Hl; cbn; [|reflexivity].
      destruct (onPoseUpdate (options s)) as [[|]|]; cbn; now rewrite ?Hc, ?Hl.
    + reflexivity.
  - reflexivity.
  - reflexivity.
Qed.

(** X19: The pose callback is only ever called with a response that passed the
    checks: its confidence is above 0 and its pose is an array of arrays
    or a flat array of 16 elements. *)
Theorem pose_updates_are_checked (evs : list Event) (y : System) :
  forallb checkedUpdate (snd (run evs y)) = true.
Proof.
  revert y. induction evs as [|ev evs IH]; intros y; cbn [run]; [reflexivity|].
  pose proof (step_checkedUpdate ev y) as H1.
  destruct (step ev y) as [y1 e1]. specialize (IH y1).
  destruct (run evs y1) as [y2 e2]. cbn [fst snd] in *.
  rewrite forallb_app. now rewrite H1, IH.
Qed.

End OpenVPSProofs.

(** ** Properties of the persistent anchor store *)

Module ARMarkerProofs.
Import ARMarkerSystem.

Lemma tryDelete_head (h : string) (t : list string) (msg : string) :
  h ∉ t -> tryDelete h msg (h :: t) = (t, []).
Proof.
  intros Hh. unfold tryDelete, deletePersistentAnchor.
  rewrite bool_decide_eq_true_2 by left.
  rewrite filter_cons_False by tauto.
  assert (E : filter (fun x => x <> h) t = t).
  { induction t as [|x t IH]; [reflexivity|].
    apply not_elem_of_cons in Hh as [Hx Ht].
    rewrite filter_cons_True by congruence. f_equal. apply IH, Ht. }
  now rewrite E.
Qed.

Lemma withoutStoredOrigin_props (s : System) (store : list string) :
  NoDup store -> Forall (fun h => truthy h = true) store ->
  NoDup (withoutStoredOrigin s store)
  /\ Forall (fun h => truthy h = true) (withoutStoredOrigin s store)
  /\ length (withoutStoredOrigin s store) <= length store.
Proof.
  intros Hnd Hall. unfold withoutStoredOrigin, tryDelete, deletePersistentAnchor.
  destruct (storedOriginAnchor s) as [old|]; [|auto].
  destruct (truthy old); [|auto].
  destruct (bool_decide (old ∈ store)); cbn [fst]; [|auto].
  split; [apply NoDup_filter, Hnd|]. split.
  - apply Forall_forall. intros x Hx. apply list_elem_of_filter in Hx as [_ Hx].
    rewrite Forall_forall in Hall. apply Hall, Hx.
  - apply length_filter.
Qed.

Lemma evict_keeps_bound (l : list string) (h : string) :
  length l <= MAX_PERSISTENT_ANCHORS ->
  length ((if (MAX_PERSISTENT_ANCHORS <=? length l)%nat then tl l else l) ++ [h])
  <= MAX_PERSISTENT_ANCHORS.
Proof.
  unfold MAX_PERSISTENT_ANCHORS. intros Hl. rewrite length_app.
  destruct (Nat.leb_spec 7 (length l)) as [H|H].
  - destruct l; cbn [length tl] in *; lia.
  - cbn [length]. lia.
Qed.

(** C9 does not hold for every full store.  The oldest anchor is not
    always the one evicted: with seven anchors
    stored, the last of them being the origin anchor persisted before, the
    eighth replaces that one and the oldest stays. *)
Lemma eighth_anchor_replaces_previous_origin :
  persistentAnchors
    (fst (setOriginAnchor true (Some Samples.anchor0) (Some "a8") Samples.fullStore))
  = Some ["a1"; "a2"; "a3"; "a4"; "a5"; "a6"; "a8"]
  /\ persistentAnchors
       (fst (setOriginAnchor true (Some Samples.anchor0) (Some "a8") Samples.fullStore))
     <> Some (tl Samples.sevenAnchors ++ ["a8"]).
Proof. split; [vm_compute; reflexivity|vm_compute; discriminate]. Qed.

(** C9, as the code has it: when a new origin anchor is persisted, the
    origin anchor persisted before (the handle kept under 'originAnchor')
    is deleted from the store first; if the store then still holds
    [MAX_PERSISTENT_ANCHORS] = 7 anchors or more, exactly one more anchor,
    the oldest, is evicted; then the new handle is added and recorded.  A
    store of at most 7 anchors stays at most 7, and when no earlier origin
    anchor is deleted, an 8th record put into a store of 7 leaves the 7 most
    recently created. *)
Theorem setOriginAnchor_bounds_store
    (s : System) (store : list string) (anchor : Anchor) (handle : string) :
  webXRSession s = true -> xrRefSpace s = true ->
  canPersist anchor = true ->
  persistentAnchors s = Some store ->
  NoDup store -> Forall (fun h => truthy h = true) store ->
  let store1 := withoutStoredOrigin s store in
  let s' := fst (setOriginAnchor true (Some anchor) (Some handle) s) in
  persistentAnchors s'
  = Some ((if (MAX_PERSISTENT_ANCHORS <=? length store1)%nat
           then tl store1 else store1) ++ [handle])
  /\ storedOriginAnchor s' = Some handle
  /\ (length store <= MAX_PERSISTENT_ANCHORS ->
      forall store', persistentAnchors s' = Some store' ->
      length store' <= MAX_PERSISTENT_ANCHORS)
  /\ (store1 = store -> length store = MAX_PERSISTENT_ANCHORS ->
      persistentAnchors s' = Some (tl store ++ [handle])).
Proof.
  intros Hx Hr Hp Hs Hnd Hall store1 s'.
  destruct (withoutStoredOrigin_props s store Hnd Hall) as (Hnd1 & Hall1 & Hlen1).
  fold store1 in Hnd1, Hall1, Hlen1.
  assert (E : persistentAnchors s'
              = Some ((if (MAX_PERSISTENT_ANCHORS <=? length store1)%nat
                       then tl store1 else store1) ++ [handle])
              /\ storedOriginAnchor s' = Some handle).
  { subst s'. unfold setOriginAnchor. rewrite Hx, Hr, Hp, Hs. cbn [negb orb].
    assert (E1 : exists e1,
               match storedOriginAnchor s with
               | Some old =>
                   if truthy old
                   then tryDelete old "Could not delete old persistent anchor" store
                   else (store, [])
               | None => (store, [])
               end = (store1, e1)).
    { subst store1. unfold withoutStoredOrigin, tryDelete.
      destruct (storedOriginAnchor s) as [old|]; [|eauto].
      destruct (truthy old); [|eauto].
      destruct (deletePersistentAnchor old store); cbn [fst]; eauto. }
    destruct E1 as [e1 ->].
    destruct (MAX_PERSISTENT_ANCHORS <=? length store1)%nat eqn:Hfull.
    - destruct store1 as [|oldest rest]; [discriminate Hfull|].
      apply Forall_cons in Hall1 as [Ht _]. rewrite Ht.
      apply NoDup_cons in Hnd1 as [Hin _].
      rewrite (tryDelete_head oldest rest _ Hin). cbn. auto.
    - cbn. auto. }
  destruct E as [E1 E2]. split; [exact E1|]. split; [exact E2|]. split.
  - intros Hcap store' Hs'. rewrite E1 in Hs'. injection Hs' as <-.
    apply evict_keeps_bound. lia.
  - intros Hsame Hseven. rewrite E1, Hsame, Hseven. now rewrite Nat.leb_refl.
Qed.

Lemma setOriginAnchor_bounds_store_witness :
  let s := Samples.fullStoreNoOrigin in
  webXRSession s = true /\ xrRefSpace s = true
  /\ canPersist Samples.anchor0 = true
  /\ persistentAnchors s = Some Samples.sevenAnchors
  /\ NoDup Samples.sevenAnchors
  /\ Forall (fun h => truthy h = true) Samples.sevenAnchors
  /\ persistentAnchors
       (fst (setOriginAnchor true (Some Samples.anchor0) (Some "a8") s))
     = Some ["a2"; "a3"; "a4"; "a5"; "a6"; "a7"; "a8"].
Proof.
  intros s.
  assert (Hnd : NoDup Samples.sevenAnchors) by compute_done.
  assert (Hall : Forall (fun h => truthy h = true) Samples.sevenAnchors)
    by (repeat constructor).
  repeat (split; [reflexivity|]). split; [exact Hnd|]. split; [exact Hall|].
  pose proof (setOriginAnchor_bounds_store s Samples.sevenAnchors Samples.anchor0
                "a8" eq_refl eq_refl eq_refl eq_refl Hnd Hall) as H.
  cbv zeta in H. destruct H as (_ & _ & _ & Hfull).
  exact (Hfull eq_refl eq_refl).
Defined.

(** *** The origin anchor on record *)

Lemma tryDelete_gone (h msg : string) (store : list string) :
  h ∉ fst (tryDelete h msg store).
Proof.
  unfold tryDelete, deletePersistentAnchor.
  destruct (bool_decide_reflect (h ∈ store)) as [Hin|Hin]; cbn [fst]; [|exact Hin].
  rewrite list_elem_of_filter. tauto.
Qed.

Lemma tryDelete_subset (h msg x : string) (store : list string) :
  x ∈ fst (tryDelete h msg store) -> x ∈ store.
Proof.
  unfold tryDelete, deletePersistentAnchor.
  destruct (bool_decide (h ∈ store)); cbn [fst]; [|auto].
  rewrite list_elem_of_filter. tauto.
Qed.

(** X20: When a new origin anchor can be persisted, the handle recorded for
    the previous origin anchor is deleted from the platform's store before
    anything else, so it is in the store no longer afterwards; this also
    holds when persisting the new anchor then fails, in which case the
    record still names the deleted handle. *)
Theorem previous_origin_handle_is_released
    (s : System) (store : list string) (anchor : Anchor) (old : string)
    (newHandle : option string) :
  webXRSession s = true -> xrRefSpace s = true ->
  canPersist anchor = true ->
  persistentAnchors s = Some store ->
  storedOriginAnchor s = Some old -> truthy old = true ->
  newHandle <> Some old ->
  let s' := fst (setOriginAnchor true (Some anchor) newHandle s) in
  (forall store', persistentAnchors s' = Some store' -> old ∉ store')
  /\ originAnchor s' = Some anchor
  /\ (newHandle = None -> storedOriginAnchor s' = Some old).
Proof.
  intros Hx Hr Hp Hs Ho Ht Hn. cbv zeta.
  unfold setOriginAnchor. rewrite Hx, Hr, Hp, Hs, Ho, Ht. cbn [negb orb].
  pose proof (tryDelete_gone old "Could not delete old persistent anchor" store) as H1.
  destruct (tryDelete old _ store) as [store1 e1]. cbn [fst] in H1.
  assert (H2 : forall store2 e2,
             (if (MAX_PERSISTENT_ANCHORS <=? length store1)%nat
              then match store1 with
                   | [] => (store1, [])
                   | oldestAnchor :: _ =>
                       if truthy oldestAnchor
                       then tryDelete oldestAnchor
                              "Could not delete oldest persistent anchor" store1
                       else (store1, [])
                   end
              else (store1, [])) = (store2, e2) ->
             old ∉ store2).
  { intros store2 e2 E.
    destruct (MAX_PERSISTENT_ANCHORS <=? length store1)%nat; [|now injection E as <- _].
    destruct store1 as [|oldest rest]; [now injection E as <- _|].
    destruct (truthy oldest); [|now injection E as <- _].
    intros Hin. apply H1.
    apply (tryDelete_subset oldest "Could not delete oldest persistent anchor").
    rewrite E. exact Hin. }
  destruct (if (MAX_PERSISTENT_ANCHORS <=? length store1)%nat then _ else _)
    as [store2 e2] eqn:E.
  specialize (H2 store2 e2 eq_refl).
  destruct newHandle as [handle|]; cbn; (split; [|split]);
    try reflexivity; try discriminate.
  - intros store' [= <-]. rewrite elem_of_app, list_elem_of_singleton.
    intros [F|F]; [auto|congruence].
  - intros store' [= <-]. exact H2.
Qed.

Lemma previous_origin_handle_is_released_witness :
  persistentAnchors
    (fst (setOriginAnchor true (Some Samples.anchor0) None Samples.fullStore))
  = Some ["a1"; "a2"; "a3"; "a4"; "a5"; "a6"]
  /\ storedOriginAnchor
       (fst (setOriginAnchor true (Some Samples.anchor0) None Samples.fullStore))
     = Some "a7".
Proof.
  split; [reflexivity|].
  apply (previous_origin_handle_is_released Samples.fullStore Samples.sevenAnchors
           Samples.anchor0 "a7" None); try reflexivity. discriminate.
Defined.

Lemma tryDelete_filter (h msg : string) (store : list string) :
  fst (tryDelete h msg store) = filter (fun x => x <> h) store.
Proof.
  unfold tryDelete, deletePersistentAnchor.
  destruct (bool_decide_reflect (h ∈ store)) as [Hin|Hin]; cbn [fst]; [reflexivity|].
  induction store as [|x store IH]; [reflexivity|].
  apply not_elem_of_cons in Hin as [Hx Hin].
  rewrite filter_cons_True by congruence. f_equal. apply IH, Hin.
Qed.

Lemma deleteEach_filter (uuids store : list string) (es : list Effect) :
  fst (fold_left (fun '(store, es) anchorUUID =>
                    let '(store1, e1) :=
                      tryDelete anchorUUID "Could not delete persisted anchor by UUID"
                                store in
                    (store1, es ++ e1))
                 uuids (store, es))
  = filter (fun x => x ∉ uuids) store.
Proof.
  revert store es. induction uuids as [|u uuids IH]; intros store es; cbn [fold_left].
  - cbn [fst]. induction store as [|x store IHs]; [reflexivity|].
    rewrite filter_cons_True by apply not_elem_of_nil. now f_equal.
  - pose proof (tryDelete_filter u "Could not delete persisted anchor by UUID" store) as E.
    destruct (tryDelete u _ store) as [store1 e1]. cbn [fst] in E. subst store1.
    rewrite IH. clear. induction store as [|x store IHs]; [reflexivity|].
    destruct (decide (x = u)) as [->|Hne].
    + rewrite filter_cons_False by tauto.
      rewrite (filter_cons_False (fun x => x ∉ u :: uuids))
        by (intros H; apply H; left). exact IHs.
    + rewrite filter_cons_True by exact Hne.
      destruct (decide (x ∈ uuids)) as [Hin|Hin].
      * rewrite filter_cons_False by tauto.
        rewrite (filter_cons_False (fun x => x ∉ u :: uuids))
          by (intros H; apply H; now right). exact IHs.
      * rewrite filter_cons_True by exact Hin.
        rewrite (filter_cons_True (fun x => x ∉ u :: uuids))
          by (rewrite not_elem_of_cons; tauto). now f_equal.
Qed.

Lemma filter_members (big l : list string) :
  (forall y, y ∈ l -> y ∈ big) -> filter (fun y => y ∉ big) l = [].
Proof.
  induction l as [|y l IH]; intros Hl; [reflexivity|].
  rewrite filter_cons_False.
  - apply IH. intros z Hz. apply Hl. now right.
  - intros Hn. apply Hn, Hl. left.
Qed.

(** X21: When a session starts, the handle kept under 'originAnchor' survives
    only if the anchor was restored from it, which then is the origin
    anchor; when restoring fails, every persistent anchor of the session
    is deleted and the record removed, and the record is also removed when
    the session has no persistent anchors, the record is empty or there is
    no reference space. *)
Theorem session_start_keeps_only_a_restored_origin
    (anchors : option (list string)) (refSpace : bool) (restored : option Anchor)
    (s : System) :
  let s' := fst (webXRSessionStarted (Some anchors) refSpace restored s) in
  (storedOriginAnchor s' = None
   \/ exists anchor, restored = Some anchor /\ originAnchor s' = Some anchor
                     /\ storedOriginAnchor s' = storedOriginAnchor s
                     /\ persistentAnchors s' = anchors)
  /\ (forall store h, anchors = Some store -> storedOriginAnchor s = Some h ->
        truthy h = true -> refSpace = true -> restored = None ->
        persistentAnchors s' = Some [] /\ storedOriginAnchor s' = None).
Proof.
  cbv zeta. unfold webXRSessionStarted. split.
  - destruct anchors as [store|], (storedOriginAnchor s) as [h|]; cbn; auto.
    destruct (truthy h && refSpace); cbn; auto.
    destruct restored as [anchor|]; cbn; [right; eauto|].
    destruct (deleteEach store store); cbn. auto.
  - intros store h -> -> Ht -> ->. rewrite Ht. cbn [andb].
    pose proof (deleteEach_filter store store []) as E. fold (deleteEach store store) in E.
    destruct (deleteEach store store) as [store1 es]. cbn [fst] in *. subst store1.
    cbn. split; [|reflexivity]. f_equal. now apply filter_members.
Qed.

Lemma session_start_keeps_only_a_restored_origin_witness :
  let s' := fst (webXRSessionStarted (Some (Some Samples.sevenAnchors)) true None
                                     Samples.fullStore) in
  persistentAnchors s' = Some [] /\ storedOriginAnchor s' = None.
Proof.
  apply (proj2 (session_start_keeps_only_a_restored_origin
                  (Some Samples.sevenAnchors) true None Samples.fullStore)
               Samples.sevenAnchors "a7"); reflexivity.
Defined.

(** *** The marker registry *)










Lemma addKnownMarker_sizeOf (k id : string) (v : AprilTagProcessor.JsValue)
    (p : AprilTagProcessor.Processor) :
  let m := (AprilTagProcessor.parseFloat v / 1000)%float in
  sizeOf (fst (AprilTagProcessor.addKnownMarker id v p)) k
  = if is_nan m || (m <=? 0)%float then sizeOf p k
    else if String.eqb k id then Some m else sizeOf p k.
Proof.
  cbv zeta. unfold sizeOf, AprilTagProcessor.addKnownMarker,
    AprilTagProcessor._sendMarkerToWorker.
  destruct (is_nan _ || _); [reflexivity|].
  cbn [AprilTagProcessor.cvWorkerReady AprilTagProcessor.cvWorker].
  destruct (AprilTagProcessor.cvWorkerReady p);
    [destruct (negb (AprilTagProcessor.cvWorker p) || negb true)|];
    cbn [fst AprilTagProcessor.knownMarkers];
    (destruct (String.eqb_spec k id) as [->|Hne];
     [apply AprilTagProofs.map_get_set|now apply AprilTagProofs.map_get_set_ne]).
Qed.

Lemma addSceneMarkers_other (k : string) (values : list MarkerComponent)
    (acc : AprilTagProcessor.Processor * list AprilTagProcessor.Effect) :
  k ∉ map (fun marker => markerid (data marker)) values ->
  sizeOf (fst (fold_left
                 (fun '(p, es) marker =>
                    if isAprilTag marker then
                      let '(p1, e1) :=
                        AprilTagProcessor.addKnownMarker (markerid (data marker))
                                                         (size (data marker)) p in
                      (p1, es ++ e1)
                    else (p, es))
                 values acc)) k
  = sizeOf (fst acc) k.
Proof.
  revert acc. induction values as [|v vs IH]; intros [p es] Hk; [reflexivity|].
  cbn in Hk. apply not_elem_of_cons in Hk as [Hne Hk].
  cbn [fold_left]. rewrite IH by exact Hk.
  destruct (isAprilTag v); [|reflexivity].
  pose proof (addKnownMarker_sizeOf k (markerid (data v)) (size (data v)) p) as H.
  destruct (AprilTagProcessor.addKnownMarker _ _ p) as [p1 e1]. cbn [fst] in *.
  rewrite H. destruct (is_nan _ || _); [reflexivity|].
  destruct (String.eqb_spec k (markerid (data v))); [congruence|reflexivity].
Qed.

Lemma addSceneMarkers_member (marker : MarkerComponent) (m : float)
    (values : list MarkerComponent)
    (acc : AprilTagProcessor.Processor * list AprilTagProcessor.Effect) :
  NoDup (map (fun marker => markerid (data marker)) values) ->
  marker ∈ values -> isAprilTag marker = true -> validSize marker = Some m ->
  sizeOf (fst (fold_left
                 (fun '(p, es) marker =>
                    if isAprilTag marker then
                      let '(p1, e1) :=
                        AprilTagProcessor.addKnownMarker (markerid (data marker))
                                                         (size (data marker)) p in
                      (p1, es ++ e1)
                    else (p, es))
                 values acc)) (markerid (data marker))
  = Some m.
Proof.
  intros Hnd Hin Ht Hv. revert acc.
  induction values as [|v vs IH]; intros [p es]; [now apply elem_of_nil in Hin|].
  cbn in Hnd. apply NoDup_cons in Hnd as [Hv' Hnd].
  apply elem_of_cons in Hin as [<-|Hin]; cbn [fold_left].
  - rewrite addSceneMarkers_other by exact Hv'. rewrite Ht.
    pose proof (addKnownMarker_sizeOf (markerid (data marker)) (markerid (data marker))
                  (size (data marker)) p) as H.
    destruct (AprilTagProcessor.addKnownMarker _ _ p) as [p1 e1]. cbn [fst] in *.
    rewrite H. unfold validSize in Hv.
    destruct (is_nan _ || _); [discriminate|]. now rewrite String.eqb_refl.
  - apply IH; assumption.
Qed.

Lemma keyed_ids (m : gmap string MarkerComponent) :
  keyed m ->
  map (fun marker => markerid (data marker)) (map snd (map_to_list m))
  = map fst (map_to_list m).
Proof.
  intros Hk. rewrite map_map. apply map_ext_in. intros [k marker] Hin. cbn.
  apply Hk. apply elem_of_map_to_list. now apply list_elem_of_In.
Qed.

Lemma registerComponent_markers (marker : MarkerComponent) (r : Registry) :
  markers (fst (registerComponent marker r))
  = <[markerid (data marker) := marker]> (markers r).
Proof.
  unfold registerComponent. destruct (aprilTagProcessor r); [|auto].
  destruct (isAprilTag marker); [|auto].
  destruct (AprilTagProcessor.addKnownMarker _ _ _); auto.
Qed.

Lemma registerComponent_keyed (marker : MarkerComponent) (r : Registry) :
  keyed (markers r) -> keyed (markers (fst (registerComponent marker r))).
Proof.
  intros Hk k marker'. rewrite registerComponent_markers.
  destruct (decide (k = markerid (data marker))) as [->|Hne].
  - rewrite lookup_insert_eq. now intros [= <-].
  - rewrite lookup_insert_ne by congruence. apply Hk.
Qed.

(** X24: An AprilTag component with a size the detector accepts is known to
    the detector under its id, with its size in meters, whether it is
    registered after the pipeline is up - [registerComponent] passes it on -
    or before - [_initializeProcessors] passes on every registered
    component, in whatever order [Object.values] lists them. *)
Theorem valid_apriltag_markers_reach_detector
    (marker : MarkerComponent) (m : float) :
  isAprilTag marker = true -> validSize marker = Some m ->
  (forall r p, aprilTagProcessor r = Some p ->
     exists p1, aprilTagProcessor (fst (registerComponent marker r)) = Some p1
                /\ sizeOf p1 (markerid (data marker)) = Some m)
  /\ (forall r values p,
        keyed (markers r) ->
        values ≡ₚ map snd (map_to_list (markers r)) ->
        markers r !! markerid (data marker) = Some marker ->
        sizeOf (fst (addSceneMarkers values p)) (markerid (data marker)) = Some m).
Proof.
  intros Ht Hv. split.
  - intros r p Hp. unfold registerComponent. rewrite Hp, Ht.
    pose proof (addKnownMarker_sizeOf (markerid (data marker)) (markerid (data marker))
                  (size (data marker)) p) as H.
    destruct (AprilTagProcessor.addKnownMarker _ _ p) as [p1 e1]. cbn [fst] in *.
    exists p1. split; [reflexivity|]. rewrite H. unfold validSize in Hv.
    destruct (is_nan _ || _); [discriminate|]. now rewrite String.eqb_refl.
  - intros r values p Hk Hperm Hm. unfold addSceneMarkers.
    apply addSceneMarkers_member; [|  |exact Ht|exact Hv].
    + rewrite Hperm, keyed_ids by exact Hk. apply NoDup_fst_map_to_list.
    + rewrite Hperm. apply list_elem_of_fmap. exists (markerid (data marker), marker).
      split; [reflexivity|]. now apply elem_of_map_to_list.
Qed.

Lemma valid_apriltag_markers_reach_detector_witness :
  let r := fst (registerComponent Samples.marker7 Samples.emptyRegistry) in
  sizeOf (fst (addSceneMarkers [Samples.marker7] (fst AprilTagProcessor.construct))) "7"
  = Some 0.15%float.
Proof.
  intros r.
  apply (proj2 (valid_apriltag_markers_reach_detector Samples.marker7 0.15 eq_refl eq_refl)
               r [Samples.marker7]).
  - subst r. apply registerComponent_keyed. intros k marker H.
    cbn [markers Samples.emptyRegistry] in H. rewrite lookup_empty in H. discriminate.
  - vm_compute. reflexivity.
  - vm_compute. reflexivity.
Defined.

End ARMarkerProofs.

(** ** Properties of the user-media helper *)

Module UserMediaHelperProofs.
Import UserMediaHelper.


(** X26: [startStreaming] and [stopStreaming] write the field [isStreaming] of
    the instance, while [_onVideoFrame] tests [super.isStreaming], which is
    looked up on [BaseCaptureHelper.prototype] and found there by no name:
    as written, [_onVideoFrame] returns at its first test in every state,
    distributes no frame and requests no further video frame. *)
Theorem onVideoFrame_reads_flag_from_prototype
    (readback : option (list Z)) (timestamp : float) (viewTransform : Matrix4)
    (throws : bool) (s : Helper) :
  superTruthy "isStreaming" = false
  /\ _onVideoFrame (superTruthy "isStreaming") readback timestamp viewTransform throws
                   (base_startStreaming s)
     = (base_startStreaming s, []).
Proof.
  split; [reflexivity|].
  change (superTruthy "isStreaming") with false.
  unfold _onVideoFrame, requestNext.
  destruct (videoElement (base_startStreaming s)) as [v|]; [|reflexivity].
  now rewrite orb_true_r, andb_false_r.
Qed.


End UserMediaHelperProofs.
